(** * MMseqs2 API client: a shallow embedding of [run_mmseqs]

    The development follows [alphafold/data/tools/mmseqs2.py].  The
    function [run_mmseqs] submits a batch of sequences to the MMseqs2
    server, polls the ticket, downloads and unpacks the result archive and
    parses the alignment files.  [alphafold/data/mmseqs2.py] ([run]) has the
    same set-up, de-duplication and submission code, line for line.

    Conventions of the embedding:
    - Python [str] is [string]: its characters are the code points below
      256.
    - Python [int] is [Z].
    - a [dict] that is only looked up is a [gmap]; the [templates] dict,
      whose iteration order drives side effects, is an association list in
      insertion order.
    - exceptions are values of [exn]; every effectful piece returns a
      [result] together with the final [state], so that the trace of
      requests is still there when the run raises.
    - the server is an oracle: the list of the replies it gives, in the
      order the requests are made.  A run that asks for more replies than
      the list holds ends in [NoReply].
    - the disk is a table of directories and a table of files, keyed by
      path.  [os.path.isdir], [os.path.isfile] and [open] for reading find
      what is listed under the path as spelled; [os.mkdir], [open] for
      writing and [tarfile] resolve the path component by component, as
      the kernel does.
    - logging and the progress bar do not influence control flow and are
      left out. *)

From Stdlib Require Import ZArith String Ascii List Lia.
From stdpp Require Import gmap strings list pretty.

Open Scope Z_scope.

(** ** Python values and exceptions *)

Inductive exn : Type :=
| Exception (msg : string)
| ValueError
| KeyError
| IndexError
| UnboundLocalError (var : string)
| FileNotFoundError (path : string)
| FileExistsError (path : string)
| NotADirectoryError (path : string)
| IsADirectoryError (path : string)
| ReadError
| UnicodeDecodeError.

Inductive result (A : Type) : Type :=
| Ok (a : A)
| Raise (e : exn)
| NoReply.
Arguments Ok {A} a.
Arguments Raise {A} e.
Arguments NoReply {A}.

Definition is_Ok {A} (r : result A) : bool :=
  match r with Ok _ => true | _ => false end.

(** ** String primitives *)

Module Py.

Definition NUL : ascii := "000"%char.
Definition LF : ascii := "010"%char.
Definition nl : string := String LF EmptyString.

(** [str.isspace] on the code points below 256: the ASCII blanks and
    separators, NEL (0x85) and the no-break space (0xa0). *)
Definition isspace (c : ascii) : bool :=
  let n := nat_of_ascii c in
  ((9 <=? n)%nat && (n <=? 13)%nat) || ((28 <=? n)%nat && (n <=? 32)%nat)
  || (n =? 133)%nat || (n =? 160)%nat.

Definition isdigit (c : ascii) : bool :=
  let n := nat_of_ascii c in (48 <=? n)%nat && (n <=? 57)%nat.

Definition digit_val (c : ascii) : Z := Z.of_nat (nat_of_ascii c) - 48.

(** [s.rstrip()] *)
Fixpoint rstrip (s : string) : string :=
  match s with
  | String c r =>
      match rstrip r with
      | EmptyString => if isspace c then EmptyString else String c EmptyString
      | r' => String c r'
      end
  | EmptyString => EmptyString
  end.

(** [s.split()]: the maximal runs of non-blank characters. *)
Fixpoint split_go (cur : string) (s : string) : list string :=
  match s with
  | EmptyString => match cur with EmptyString => [] | _ => [cur] end
  | String c r =>
      if isspace c
      then match cur with
           | EmptyString => split_go EmptyString r
           | _ => cur :: split_go EmptyString r
           end
      else split_go (cur +:+ String c EmptyString) r
  end.
Definition split (s : string) : list string := split_go EmptyString s.

(** [c in s] for a one-character needle. *)
Fixpoint contains (c : ascii) (s : string) : bool :=
  match s with
  | EmptyString => false
  | String d r => if Ascii.eqb c d then true else contains c r
  end.

(** [s.replace(c, "")] for a one-character needle. *)
Fixpoint remove_char (c : ascii) (s : string) : string :=
  match s with
  | EmptyString => EmptyString
  | String d r => if Ascii.eqb c d then remove_char c r else String d (remove_char c r)
  end.

(** [s.startswith(c)] for a one-character prefix. *)
Definition startswith (c : ascii) (s : string) : bool :=
  match s with String d _ => Ascii.eqb c d | EmptyString => false end.

(** [s[1:]] *)
Definition tail (s : string) : string :=
  match s with String _ r => r | EmptyString => EmptyString end.

(** [sep.join(l)] *)
Fixpoint join (sep : string) (l : list string) : string :=
  match l with
  | [] => EmptyString
  | [s] => s
  | s :: l' => s +:+ sep +:+ join sep l'
  end.

(** [str(n)] *)
Definition str (n : Z) : string := pretty n.

(** The digits of a decimal literal, with single underscores allowed
    between digits. [prev] tells whether the last character read was a
    digit. *)
Fixpoint int_digits (acc : Z) (prev : bool) (s : string) : option Z :=
  match s with
  | EmptyString => if prev then Some acc else None
  | String c r =>
      if isdigit c then int_digits (10 * acc + digit_val c) true r
      else if Ascii.eqb c "_"%char then
             if prev then int_digits acc false r else None
      else None
  end.

(** The blanks [int] skips around a literal: tab, line feed, vertical tab,
    form feed, carriage return and space, and the two blanks above 127.
    This is a smaller set than [str.isspace]: the separators 0x1c to 0x1f
    are not in it. *)
Definition int_space (c : ascii) : bool :=
  let n := nat_of_ascii c in
  ((9 <=? n)%nat && (n <=? 13)%nat) || (n =? 32)%nat
  || (n =? 133)%nat || (n =? 160)%nat.

Fixpoint int_lstrip (s : string) : string :=
  match s with
  | String c r => if int_space c then int_lstrip r else s
  | EmptyString => EmptyString
  end.

Fixpoint int_rstrip (s : string) : string :=
  match s with
  | String c r =>
      match int_rstrip r with
      | EmptyString => if int_space c then EmptyString else String c EmptyString
      | r' => String c r'
      end
  | EmptyString => EmptyString
  end.

(** [int(s)]: [None] stands for [ValueError]. *)
Definition int (s : string) : option Z :=
  match int_lstrip (int_rstrip s) with
  | String "-" r => Z.opp <$> int_digits 0 false r
  | String "+" r => int_digits 0 false r
  | r => int_digits 0 false r
  end.

(** The lines of a text file as iteration over the file object yields
    them: each keeps its line feed.  The text is the file's content after
    newline translation. *)
Fixpoint readlines (s : string) : list string :=
  match s with
  | EmptyString => []
  | String c r =>
      if Ascii.eqb c LF then String c EmptyString :: readlines r
      else match readlines r with
           | [] => [String c EmptyString]
           | l :: ls => String c l :: ls
           end
  end.

(** [l.index(x)]: [None] stands for [ValueError]. *)
Fixpoint index (x : string) (l : list string) : option nat :=
  match l with
  | [] => None
  | y :: l' => if decide (y = x) then Some 0%nat else S <$> index x l'
  end.

End Py.

(** ** Arguments of [run_mmseqs] *)

(** [x] is a single sequence or a list of sequences. *)
Inductive seq_input : Type :=
| OneSeq (s : string)
| SeqList (l : list string).

Record args : Type := Args {
  x : seq_input;
  prefix : string;
  use_env : bool;
  use_filter : bool;
  use_templates : bool;
  filter : option bool;
  use_pairing : bool;
  host_url : string
}.

(** The defaults of the signature. *)
Definition default_args (x : seq_input) (prefix : string) : args :=
  Args x prefix true true false None false "https://a3m.mmseqs.com".

(** ** Set-up: lines 19 and 49-72 *)

Definition submission_endpoint (a : args) : string :=
  if use_pairing a then "ticket/pair" else "ticket/msa".

Definition seqs (a : args) : list string :=
  match x a with OneSeq s => [s] | SeqList l => l end.

(** The locals after lines 52-64. *)
Record setup : Type := Setup {
  s_mode : string;
  s_use_templates : bool;
  s_use_env : bool
}.

Definition setup_mode (a : args) : setup :=
  let use_filter := match filter a with Some f => f | None => use_filter a end in
  let mode :=
    if use_filter
    then (if use_env a then "env" else "all")
    else (if use_env a then "env-nofilter" else "nofilter") in
  if use_pairing a
  then Setup "" false false
  else Setup mode (use_templates a) (use_env a).

Definition N : Z := 101.

(** ** De-duplication and the identifier map: lines 74-78 *)

(** [[seqs_unique.append(x) for x in seqs if x not in seqs_unique]]:
    the comprehension tests each element against the list as grown so far. *)
Definition dedup_step (seqs_unique : list string) (x : string) : list string :=
  if decide (x ∈ seqs_unique) then seqs_unique else seqs_unique ++ [x].

Definition seqs_unique (seqs : list string) : list string :=
  fold_left dedup_step seqs [].

(** [Ms = [N + seqs_unique.index(seq) for seq in seqs]] *)
Fixpoint Ms_of (uniq : list string) (seqs : list string) : result (list Z) :=
  match seqs with
  | [] => Ok []
  | seq :: rest =>
      match Py.index seq uniq with
      | None => Raise ValueError
      | Some i =>
          match Ms_of uniq rest with
          | Ok ms => Ok ((N + Z.of_nat i) :: ms)
          | Raise e => Raise e
          | NoReply => NoReply
          end
      end
  end.

Definition Ms (seqs : list string) : result (list Z) :=
  Ms_of (seqs_unique seqs) seqs.

(** ** The environment: file system, server, clock *)

(** A file is a text file or a gzipped tar archive whose members are
    regular files with a text.  The file system is two tables keyed by
    path; a directory or file is listed under its path in normal form
    (names separated by single slashes, no dot components).  There are no
    links, and nothing is refused for lack of rights or space. *)
Inductive file_content : Type :=
| Text (s : string)
| TarGz (members : list (string * string)).

Record filesystem : Type := MkFS {
  files : gmap string file_content;
  dirs : gset string
}.

(** The body of a server reply to [submit] or [status]: either it is not
    JSON, or it is an object whose [status] and [id] fields may be
    missing. *)
Record json_obj : Type := Obj {
  o_status : option string;
  o_id : option string
}.

Inductive reply : Type :=
| NotJson
| Json (o : json_obj).

(** What the run does to the outside, in the order it does it. *)
Inductive event : Type :=
| EMkdir (path : string)
| EPost (url q mode : string)
| EGet (url : string)
| ESleep (t : Z)
| EDownload (url path : string)
| EExtract (archive dir : string)
| ESystem (cmd : string).

(** The environment of one call: the initial file system, the replies of
    the server to successive [submit] and [status] requests, the raw
    values behind successive [random.randint(0, 5)] calls, and the bodies
    of successive result downloads. *)
Record world : Type := World {
  fs0 : filesystem;
  replies : list reply;
  rand : nat -> nat;
  payload : nat -> file_content
}.

Record state : Type := State {
  fs : filesystem;
  draws : nat;
  downloads : nat;
  trace : list event
}.

Definition init (w : world) : state := State (fs0 w) 0 0 [].

Definition emit (e : event) (s : state) : state :=
  State (fs s) (draws s) (downloads s) (trace s ++ [e]).

Definition set_fs (f : filesystem) (s : state) : state :=
  State f (draws s) (downloads s) (trace s).

(** ** A state-and-exception monad *)

Definition M (A : Type) : Type := state -> result A * state.

Definition ret {A} (a : A) : M A := fun s => (Ok a, s).
Definition raise {A} (e : exn) : M A := fun s => (Raise e, s).
Definition bind {A B} (m : M A) (k : A -> M B) : M B :=
  fun s =>
    match m s with
    | (Ok a, s') => k a s'
    | (Raise e, s') => (Raise e, s')
    | (NoReply, s') => (NoReply, s')
    end.
Definition lift {A} (r : result A) : M A := fun s => (r, s).
Definition tell (e : event) : M unit := fun s => (Ok tt, emit e s).

Notation "'let!' x ':=' m 'in' k" := (bind m (fun x => k))
  (at level 10, x name, m at level 100, k at level 200).
Notation "'exec' m ';;' k" := (bind m (fun _ => k))
  (at level 10, m at level 99, k at level 200).

(** [for x in l: acc = body acc x], for a loop that updates locals. *)
Fixpoint for_fold {A B} (l : list A) (body : B -> A -> M B) (acc : B) : M B :=
  match l with
  | [] => ret acc
  | a :: l' => let! acc' := body acc a in for_fold l' body acc'
  end.

(** ** File-system operations *)

Module Os.

(** [os.path.isdir(p)] and [os.path.isfile(p)]: what the tables hold for
    the path as the caller spells it. *)
Definition isdir (p : string) : M bool :=
  fun s => (Ok (bool_decide (p ∈ dirs (fs s))), s).

Definition isfile (p : string) : M bool :=
  fun s => (Ok (bool_decide (is_Some (files (fs s) !! p))), s).

(** [p[:p.rfind("/") + 1]] *)
Fixpoint head_slash (p : string) : string :=
  match p with
  | EmptyString => EmptyString
  | String c r =>
      if Py.contains "/" r then String c (head_slash r)
      else if Ascii.eqb c "/" then String c EmptyString
      else EmptyString
  end.

Fixpoint all_slashes (p : string) : bool :=
  match p with
  | EmptyString => true
  | String c r => Ascii.eqb c "/" && all_slashes r
  end.

(** [p.rstrip("/")] *)
Fixpoint rstrip_slash (p : string) : string :=
  match p with
  | EmptyString => EmptyString
  | String c r =>
      match rstrip_slash r with
      | EmptyString => if Ascii.eqb c "/" then EmptyString else String c EmptyString
      | r' => String c r'
      end
  end.

(** [os.path.dirname] *)
Definition dirname (p : string) : string :=
  let head := head_slash p in
  if all_slashes head then head else rstrip_slash head.

(** [os.path.basename]: [p[p.rfind("/") + 1:]] *)
Fixpoint basename (p : string) : string :=
  match p with
  | EmptyString => EmptyString
  | String c r =>
      if Py.contains "/" r then basename r
      else if Ascii.eqb c "/" then r
      else p
  end.

(** [p.endswith("/")], or [p] is empty. *)
Definition trailing (p : string) : bool := String.eqb (basename p) EmptyString.

(** [os.path.join(a, b)] *)
Definition join (a b : string) : string :=
  if Py.startswith "/" b then b
  else if trailing a then a +:+ b
  else a +:+ "/" +:+ b.

(** *** Path resolution

    [os.mkdir], [open] for writing and [tarfile] hand a path to the
    kernel, which walks it component by component from the root or the
    current directory: an empty component or [.] stays, [..] goes up, a
    name goes down and must be a directory unless it is the last.  The
    directory reached is kept as the names leading to it, innermost
    first; a relative walk that climbs above the current directory keeps
    the [..] steps at the bottom. *)

(** The pieces between the slashes: [parts "a//b/" = ["a"; ""; "b"; ""]]. *)
Fixpoint parts (p : string) : list string :=
  match p with
  | EmptyString => [EmptyString]
  | String c r =>
      if Ascii.eqb c "/" then EmptyString :: parts r
      else match parts r with
           | x :: xs => String c x :: xs
           | [] => [String c EmptyString]
           end
  end.

Definition absolute (p : string) : bool := Py.startswith "/" p.

(** The spelling under which the tables list the place [st]. *)
Definition key (abs : bool) (st : list string) : string :=
  (if abs then "/" else EmptyString) +:+ Py.join "/" (reverse st).

(** The root, the current directory and the directories above it are
    there without being listed. *)
Definition above (st : list string) : bool := forallb (String.eqb "..") st.

Definition dir_at (f : filesystem) (abs : bool) (st : list string) : bool :=
  above st || bool_decide (key abs st ∈ dirs f).

Definition file_at (f : filesystem) (abs : bool) (st : list string) : bool :=
  bool_decide (is_Some (files f !! key abs st)).

Definition up (abs : bool) (st : list string) : list string :=
  match st with
  | [] => if abs then [] else [".."]
  | c :: st' => if String.eqb c ".." then ".." :: st else st'
  end.

(** Why a walk stops: ENOENT or ENOTDIR. *)
Inductive blocked : Type :=
| Missing
| NotDir.

(** One component that is not the last. *)
Definition step (f : filesystem) (abs : bool) (st : list string) (c : string)
  : blocked + list string :=
  if String.eqb c EmptyString || String.eqb c "." then inr st
  else if String.eqb c ".." then inr (up abs st)
  else if dir_at f abs (c :: st) then inr (c :: st)
  else if file_at f abs (c :: st) then inl NotDir
  else inl Missing.

Fixpoint walk (f : filesystem) (abs : bool) (st : list string) (cs : list string)
  : blocked + list string :=
  match cs with
  | [] => inr st
  | c :: cs' =>
      match step f abs st c with
      | inl b => inl b
      | inr st' => walk f abs st' cs'
      end
  end.

(** Where a path leads: nowhere, to a directory that is there ([Here]),
    or to a name in a directory that is there ([Entry]), which the
    directory may hold or not. *)
Inductive place : Type :=
| Blocked (b : blocked)
| Here (st : list string)
| Entry (st : list string).

Definition resolve (f : filesystem) (p : string) : place :=
  let abs := absolute p in
  let cs := base.filter (λ c, c ≠ EmptyString) (parts p) in
  match walk f abs [] (removelast cs) with
  | inl b => Blocked b
  | inr st =>
      match last cs with
      | None => Here st
      | Some c =>
          if String.eqb c "." then Here st
          else if String.eqb c ".." then Here (up abs st)
          else Entry (c :: st)
      end
  end.

(** *** The calls *)

(** [os.path.exists(p)], as [tarfile] asks it of the directory a member
    goes into: the path is listed as spelled, or it leads to something
    that is there. *)
Definition exists_ (f : filesystem) (p : string) : bool :=
  bool_decide (p ∈ dirs f) || bool_decide (is_Some (files f !! p))
  || (negb (Py.contains Py.NUL p) && negb (String.eqb p EmptyString)
      && match resolve f p with
         | Blocked _ => false
         | Here _ => true
         | Entry st =>
             dir_at f (absolute p) st
             || (file_at f (absolute p) st && negb (trailing p))
         end).

(** What [os.mkdir(p)] does to the tables.  Trailing slashes do not
    matter to it. *)
Definition fs_mkdir (f : filesystem) (p : string) : exn + filesystem :=
  if Py.contains Py.NUL p then inl ValueError
  else if String.eqb p EmptyString then inl (FileNotFoundError p)
  else
    match resolve f p with
    | Blocked Missing => inl (FileNotFoundError p)
    | Blocked NotDir => inl (NotADirectoryError p)
    | Here _ => inl (FileExistsError p)
    | Entry st =>
        if dir_at f (absolute p) st || file_at f (absolute p) st
        then inl (FileExistsError p)
        else inr (MkFS (files f) ({[key (absolute p) st]} ∪ dirs f))
    end.

(** [os.mkdir(p)] *)
Definition mkdir (p : string) : M unit :=
  fun s =>
    match fs_mkdir (fs s) p with
    | inl e => (Raise e, s)
    | inr f => (Ok tt, emit (EMkdir p) (set_fs f s))
    end.

(** The error of [open(p, "r")] and of [tarfile.open(p)] when the tables
    hold no file under [p]. *)
Definition read_error (f : filesystem) (p : string) : exn :=
  if Py.contains Py.NUL p then ValueError
  else if String.eqb p EmptyString then FileNotFoundError p
  else if bool_decide (p ∈ dirs f) then IsADirectoryError p
  else
    match resolve f p with
    | Blocked Missing => FileNotFoundError p
    | Blocked NotDir => NotADirectoryError p
    | Here _ => IsADirectoryError p
    | Entry st =>
        if dir_at f (absolute p) st then IsADirectoryError p
        else if file_at f (absolute p) st && trailing p then NotADirectoryError p
        else FileNotFoundError p
    end.

(** [open(p, "r")] followed by iteration: the lines of a text file. *)
Definition read_lines (p : string) : M (list string) :=
  fun s =>
    match files (fs s) !! p with
    | None => (Raise (read_error (fs s) p), s)
    | Some (Text t) => (Ok (Py.readlines t), s)
    | Some (TarGz _) => (Raise UnicodeDecodeError, s)
    end.

(** The error of [open(p, "wb")], if any. *)
Definition write_error (f : filesystem) (p : string) : option exn :=
  if Py.contains Py.NUL p then Some ValueError
  else if String.eqb p EmptyString then Some (FileNotFoundError p)
  else if bool_decide (p ∈ dirs f) then Some (IsADirectoryError p)
  else
    match resolve f p with
    | Blocked Missing => Some (FileNotFoundError p)
    | Blocked NotDir => Some (NotADirectoryError p)
    | Here _ => Some (IsADirectoryError p)
    | Entry st =>
        if dir_at f (absolute p) st || trailing p then Some (IsADirectoryError p)
        else None
    end.

Definition fs_write (f : filesystem) (p : string) (c : file_content)
  : exn + filesystem :=
  match write_error f p with
  | Some e => inl e
  | None => inr (MkFS (<[p := c]> (files f)) (dirs f))
  end.

(** [open(p, "wb").write(c)] *)
Definition write_file (p : string) (c : file_content) : M unit :=
  fun s =>
    match fs_write (fs s) p c with
    | inl e => (Raise e, s)
    | inr f => (Ok tt, set_fs f s)
    end.

(** [os.makedirs(name)]: the missing directories above [name], outermost
    first, then [name] itself.  The recursion is on the head of
    [os.path.split], which is shorter than the path.  The tables come back
    also when the call raises: what was made stays. *)
Fixpoint makedirs (fuel : nat) (f : filesystem) (name : string)
  : option exn * filesystem :=
  let mk (f : filesystem) :=
    match fs_mkdir f name with
    | inl e => (Some e, f)
    | inr f' => (None, f')
    end in
  match fuel with
  | O => mk f
  | S n =>
      let head0 := dirname name in
      let tail0 := basename name in
      let head := if String.eqb tail0 EmptyString then dirname head0 else head0 in
      let tail := if String.eqb tail0 EmptyString then basename head0 else tail0 in
      if negb (String.eqb head EmptyString) && negb (String.eqb tail EmptyString)
         && negb (exists_ f head)
      then
        match makedirs n f head with
        | (None, f1) => if String.eqb tail "." then (None, f1) else mk f1
        | (Some (FileExistsError _), f1) =>
            if String.eqb tail "." then (None, f1) else mk f1
        | (Some e, f1) => (Some e, f1)
        end
      else mk f
  end.

(** One regular member of an archive, as [TarFile._extract_member] puts it
    under [dir]. *)
Definition extract_member (dir : string) (f : filesystem) (m : string * string)
  : option exn * filesystem :=
  let targetpath := rstrip_slash (join dir (fst m)) in
  let upperdirs := dirname targetpath in
  let made :=
    if negb (String.eqb upperdirs EmptyString) && negb (exists_ f upperdirs)
    then makedirs (String.length upperdirs) f upperdirs
    else (None, f) in
  match made with
  | (Some e, f1) => (Some e, f1)
  | (None, f1) =>
      match fs_write f1 targetpath (Text (snd m)) with
      | inl e => (Some e, f1)
      | inr f2 => (None, f2)
      end
  end.

Fixpoint extract_members (dir : string) (f : filesystem)
    (members : list (string * string)) : option exn * filesystem :=
  match members with
  | [] => (None, f)
  | m :: rest =>
      match extract_member dir f m with
      | (Some e, f1) => (Some e, f1)
      | (None, f1) => extract_members dir f1 rest
      end
  end.

(** [tarfile.open(p).extractall(dir)] *)
Definition extractall (p dir : string) : M unit :=
  fun s =>
    match files (fs s) !! p with
    | None =>
        (* [tarfile.open("")]: "nothing to open" *)
        (Raise (if String.eqb p EmptyString then ValueError
                else read_error (fs s) p), s)
    | Some (Text _) => (Raise ReadError, s)
    | Some (TarGz members) =>
        match extract_members dir (fs s) members with
        | (Some e, f) => (Raise e, set_fs f s)
        | (None, f) => (Ok tt, emit (EExtract p dir) (set_fs f s))
        end
    end.

(** [os.system(cmd)]: the command runs outside the model. *)
Definition system (cmd : string) : M unit := tell (ESystem cmd).

(** *** Paths in normal form *)

(** A component that names an entry: not empty, not [.] and not [..]. *)
Definition name (c : string) : bool :=
  negb (String.eqb c EmptyString) && negb (String.eqb c ".")
  && negb (String.eqb c "..").

(** A name that can stand alone as a path: no slash and no NUL. *)
Definition single (c : string) : bool :=
  name c && negb (Py.contains "/" c) && negb (Py.contains Py.NUL c).

(** Names separated by single slashes, after at most one leading slash,
    and no NUL. *)
Definition normal (p : string) : bool :=
  negb (Py.contains Py.NUL p) &&
  match parts p with
  | EmptyString :: c :: cs => forallb name (c :: cs)
  | cs => forallb name cs
  end.

(** The directories passed when the names [ns] are walked down from
    [st], as the tables list them. *)
Fixpoint climb (abs : bool) (st : list string) (ns : list string) : list string :=
  match ns with
  | [] => []
  | n :: ns' => key abs (n :: st) :: climb abs (n :: st) ns'
  end.

(** The directories above the last component of a path, outermost
    first: [ancestors "a/b/c" = ["a"; "a/b"]]. *)
Definition ancestors (p : string) : list string :=
  climb (absolute p) []
    (removelast (base.filter (λ c, c ≠ EmptyString) (parts p))).

End Os.

(** [5 + random.randint(0, 5)] *)
Definition sleep_time (w : world) : M Z :=
  fun s =>
    (Ok (5 + Z.of_nat (rand w (draws s) mod 6)),
     State (fs s) (S (draws s)) (downloads s) (trace s)).

(** [time.sleep(t)] *)
Definition sleep (t : Z) : M unit := tell (ESleep t).

(** ** The three requests: lines 21-46 *)

(** The FASTA body built by [submit]: lines 22-25. *)
Definition query (seqs : list string) (N : Z) : string :=
  snd (fold_left
         (fun (nq : Z * string) (seq : string) =>
            (fst nq + 1,
             snd nq +:+ ">" +:+ Py.str (fst nq) +:+ Py.nl +:+ seq +:+ Py.nl))
         seqs (N, EmptyString)).

Definition submit_url (a : args) : string :=
  host_url a +:+ "/" +:+ submission_endpoint a.

(** [requests.post(...)] of [submit]; the reply is read by [job_loop]. *)
Definition submit_request (a : args) (seqs : list string) (mode : string) (N : Z)
  : M unit :=
  tell (EPost (submit_url a) (query seqs N) mode).

(** [requests.get(...)] of [status]. *)
Definition status_request (a : args) (ID : string) : M unit :=
  tell (EGet (host_url a +:+ "/ticket/" +:+ ID)).

(** [res.json()] with its [except ValueError] branch: lines 28-33, 37-42. *)
Definition json_or_error (r : reply) : json_obj :=
  match r with
  | Json o => o
  | NotJson => Obj (Some "ERROR") None
  end.

(** [download(ID, path)]: lines 44-46. *)
Definition download (w : world) (a : args) (ID path : string) : M unit :=
  fun s =>
    let body := payload w (downloads s) in
    let s1 := emit (EDownload (host_url a +:+ "/result/download/" +:+ ID) path) s in
    Os.write_file path body
      (State (fs s1) (draws s1) (S (downloads s1)) (trace s1)).

Definition msg_errors : string :=
  "MMseqs2 API is giving errors. Please confirm your input is a valid protein sequence. If error persists, please try again an hour later.".

Definition msg_maintenance : string :=
  "MMseqs2 API is undergoing maintenance. Please try again in a few minutes.".

(** ** The submit / poll / download loop: lines 83-128

    The nest of [while] loops makes one request per iteration, so it is
    written as one recursion over the replies still to come.  [phase]
    tells which request the next reply answers: a [submit] (line 87 or 93)
    or a [status(ID)] (line 110). *)

Inductive phase : Type :=
| AtSubmit
| AtPoll (ID : string).

(** What a reply leads to: another [submit] after a sleep (the loop of
    line 88), an exception, or the test of the polling loop (line 106) on
    the ticket [ID] with the status [st] now in [out]. *)
Inductive verdict : Type :=
| Resubmit
| Fail (e : exn)
| Test (ID st : string).

Definition on_reply (ph : phase) (r : reply) : verdict :=
  let out := json_or_error r in
  match o_status out with
  | None => Fail KeyError
  | Some st =>
      match ph with
      | AtSubmit =>
          if bool_decide (st ∈ ["UNKNOWN"; "RATELIMIT"]) then Resubmit
          else if String.eqb st "ERROR" then Fail (Exception msg_errors)
          else if String.eqb st "MAINTENANCE" then Fail (Exception msg_maintenance)
          else match o_id out with
               | None => Fail KeyError
               | Some ID => Test ID st
               end
      | AtPoll ID => Test ID st
      end
  end.

Fixpoint job_loop (w : world) (a : args) (mode : string) (uniq : list string)
    (tar_gz_file : string) (rs : list reply) (ph : phase) : M unit :=
  match rs with
  | [] => lift NoReply
  | r :: rest =>
      match on_reply ph r with
      | Resubmit =>
          (* lines 89-93 *)
          let! sleep_t := sleep_time w in
          exec sleep sleep_t ;;
          exec submit_request a uniq mode N ;;
          job_loop w a mode uniq tar_gz_file rest AtSubmit
      | Fail e => raise e
      | Test ID st =>
          if bool_decide (st ∈ ["UNKNOWN"; "RUNNING"; "PENDING"]) then
            (* lines 107-110 *)
            let! t := sleep_time w in
            exec sleep t ;;
            exec status_request a ID ;;
            job_loop w a mode uniq tar_gz_file rest (AtPoll ID)
          else
            (* lines 116-128 *)
            let REDO := negb (String.eqb st "COMPLETE") in
            if String.eqb st "ERROR" then raise (Exception msg_errors)
            else
              exec download w a ID tar_gz_file ;;
              if REDO then
                (* back to line 87 *)
                exec submit_request a uniq mode N ;;
                job_loop w a mode uniq tar_gz_file rest AtSubmit
              else ret tt
      end
  end.

(** ** Unpacking: lines 131-140 *)

Definition a3m_files (a : args) (su : setup) : list string :=
  let path := prefix a in
  if use_pairing a then [path +:+ "/pair.a3m"]
  else ([path +:+ "/uniref.a3m"]
          ++ (if s_use_env su then [path +:+ "/bfd.mgnify30.metaeuk30.smag30.a3m"] else []))%list.

(** [any(not os.path.isfile(f) for f in l)] *)
Fixpoint any_not_isfile (l : list string) : M bool :=
  match l with
  | [] => ret false
  | f :: l' =>
      let! b := Os.isfile f in
      if negb b then ret true else any_not_isfile l'
  end.

Definition extract_a3m (tar_gz_file path : string) (a3m : list string) : M unit :=
  let! missing := any_not_isfile a3m in
  if missing then Os.extractall tar_gz_file path else ret tt.

(** ** Template hits: lines 143-163 *)

(** [if M not in templates: templates[M] = []; templates[M].append(pdb)]
    on a dict kept in insertion order. *)
Fixpoint dict_append (M : Z) (pdb : string) (d : list (Z * list string))
  : list (Z * list string) :=
  match d with
  | [] => [(M, [pdb])]
  | (k, v) :: d' =>
      if decide (k = M) then (k, (v ++ [pdb])%list) :: d'
      else (k, v) :: dict_append M pdb d'
  end.

(** One line of [pdb70.m8]: lines 147-151. *)
Definition read_hit (templates : list (Z * list string)) (line : string)
  : result (list (Z * list string)) :=
  let p := Py.split (Py.rstrip line) in
  match p !! 0%nat, p !! 1%nat, p !! 2%nat, p !! 10%nat with
  | Some M, Some pdb, Some qid, Some e_value =>
      match Py.int M with
      | None => Raise ValueError
      | Some M => Ok (dict_append M pdb templates)
      end
  | _, _, _, _ => Raise IndexError
  end.

Fixpoint read_hits (templates : list (Z * list string)) (lines : list string)
  : result (list (Z * list string)) :=
  match lines with
  | [] => Ok templates
  | line :: rest =>
      match read_hit templates line with
      | Ok templates' => read_hits templates' rest
      | Raise e => Raise e
      | NoReply => NoReply
      end
  end.

(** Lines 144-151. *)
Definition read_templates (path : string) : M (list (Z * list string)) :=
  let! lines := Os.read_lines (path +:+ "/pdb70.m8") in
  lift (read_hits [] lines).

Definition TMPL_PATH (a : args) (su : setup) (k : Z) : string :=
  prefix a +:+ "_" +:+ s_mode su +:+ "/templates_" +:+ Py.str k.

(** One round of the loop of lines 154-163. *)
Definition fetch_template (a : args) (su : setup) (template_paths : gmap Z string)
    (kv : Z * list string) : M (gmap Z string) :=
  let k := fst kv in
  let TMPL := snd kv in
  let p := TMPL_PATH a su k in
  let! d := Os.isdir p in
  exec (if negb d then
          exec Os.mkdir p ;;
          let TMPL_LINE := Py.join "," (take 20 TMPL) in
          exec Os.system ("curl -s https://a3m-templates.mmseqs.com/template/"
                          +:+ TMPL_LINE +:+ " | tar xzf - -C " +:+ p +:+ "/") ;;
          exec Os.system ("cp " +:+ p +:+ "/pdb70_a3m.ffindex "
                          +:+ p +:+ "/pdb70_cs219.ffindex") ;;
          Os.system ("touch " +:+ p +:+ "/pdb70_cs219.ffdata")
        else ret tt) ;;
  ret (<[k := p]> template_paths).

(** ** Alignment blocks: lines 166-178 *)

(** The locals of the line loop. *)
Record parse_state : Type := PS {
  update_M : bool;
  cur_M : option Z;
  a3m_lines : gmap Z (list string)
}.

(** The body of the loop over the lines of one file: lines 170-178. *)
Definition gather_line (st : parse_state) (line : string) : result parse_state :=
  if (0 <? String.length line)%nat then
    let has_nul := Py.contains Py.NUL line in
    let line := if has_nul then Py.remove_char Py.NUL line else line in
    let upd := if has_nul then true else update_M st in
    let after_header :=
      if Py.startswith ">" line && upd then
        match Py.int (Py.rstrip (Py.tail line)) with
        | None => Raise ValueError
        | Some m =>
            Ok (PS false (Some m)
                  (if bool_decide (is_Some (a3m_lines st !! m)) then a3m_lines st
                   else <[m := []]> (a3m_lines st)))
        end
      else Ok (PS upd (cur_M st) (a3m_lines st)) in
    match after_header with
    | Ok st' =>
        match cur_M st' with
        | None => Raise KeyError
        | Some m =>
            match a3m_lines st' !! m with
            | None => Raise KeyError
            | Some ls =>
                Ok (PS (update_M st') (cur_M st') (<[m := (ls ++ [line])%list]> (a3m_lines st')))
            end
        end
    | Raise e => Raise e
    | NoReply => NoReply
    end
  else Ok st.

Fixpoint gather_lines (st : parse_state) (lines : list string) : result parse_state :=
  match lines with
  | [] => Ok st
  | line :: rest =>
      match gather_line st line with
      | Ok st' => gather_lines st' rest
      | Raise e => Raise e
      | NoReply => NoReply
      end
  end.

(** One file: [update_M, M = True, None], then the loop over its lines. *)
Definition gather_text (d : gmap Z (list string)) (lines : list string)
  : result (gmap Z (list string)) :=
  match gather_lines (PS true None d) lines with
  | Ok st => Ok (a3m_lines st)
  | Raise e => Raise e
  | NoReply => NoReply
  end.

Definition gather_file (d : gmap Z (list string)) (a3m_file : string)
  : M (gmap Z (list string)) :=
  let! lines := Os.read_lines a3m_file in
  lift (gather_text d lines).

(** ** The results: lines 181-192 *)

(** [["".join(a3m_lines[n]) for n in Ms]] *)
Fixpoint join_blocks (d : gmap Z (list string)) (Ms : list Z) : result (list string) :=
  match Ms with
  | [] => Ok []
  | n :: rest =>
      match d !! n with
      | None => Raise KeyError
      | Some ls =>
          match join_blocks d rest with
          | Ok out => Ok (Py.join EmptyString ls :: out)
          | Raise e => Raise e
          | NoReply => NoReply
          end
      end
  end.

(** Lines 184-190. *)
Definition template_paths_ (template_paths : gmap Z string) (Ms : list Z)
  : list (option string) :=
  map (fun n =>
         if bool_decide (is_Some (template_paths !! n)) then template_paths !! n
         else None) Ms.

Inductive retval : Type :=
| Alignments (a3m_lines : list string)
| AlignmentsAndTemplates (a3m_lines : list string) (template_paths : list (option string)).

(** ** [run_mmseqs] *)

(** Lines 67-68. *)
Definition make_path (a : args) : M unit :=
  let path := prefix a in
  let! d := Os.isdir path in
  if negb d then Os.mkdir path else ret tt.

Definition tar_gz_file (a : args) : string := prefix a +:+ "/out.tar.gz".

(** Lines 83-140: submit, poll, download, unpack. *)
Definition fetch_a3m (a : args) (w : world) (su : setup) (uniq : list string)
  : M unit :=
  let mode := s_mode su in
  exec submit_request a uniq mode N ;;
  exec job_loop w a mode uniq (tar_gz_file a) (replies w) AtSubmit ;;
  extract_a3m (tar_gz_file a) (prefix a) (a3m_files a su).

(** Lines 143-192: template hits, alignment blocks, results in batch
    order. *)
Definition assemble (a : args) (su : setup) (Ms : list Z) : M retval :=
  (* lines 143-151: [templates] is bound only under [use_templates] *)
  let! templates :=
    (if s_use_templates su
     then let! t := read_templates (prefix a) in ret (Some t)
     else ret None) in
  (* lines 153-163 *)
  let! template_paths :=
    match templates with
    | None => raise (UnboundLocalError "templates")
    | Some t => for_fold t (fetch_template a su) ∅
    end in
  (* lines 166-178 *)
  let! lines := for_fold (a3m_files a su) gather_file ∅ in
  (* line 181 *)
  let! out := lift (join_blocks lines Ms) in
  (* lines 183-192 *)
  if s_use_templates su
  then ret (AlignmentsAndTemplates out (template_paths_ template_paths Ms))
  else ret (Alignments out).

Definition run_mmseqs_body (a : args) (w : world) : M retval :=
  let su := setup_mode a in
  exec make_path a ;;
  (* lines 75-78 *)
  let uniq := seqs_unique (seqs a) in
  let! Ms := lift (Ms_of uniq (seqs a)) in
  let! have_tar := Os.isfile (tar_gz_file a) in
  if negb have_tar then
    exec fetch_a3m a w su uniq ;;
    assemble a su Ms
  else
    (* line 192: [a3m_lines] was never assigned *)
    raise (UnboundLocalError "a3m_lines").

Definition run_mmseqs (a : args) (w : world) : result retval * state :=
  run_mmseqs_body a w (init w).

(** ** Vocabulary of the statements *)

(** The reply is a JSON object with this [status]. *)
Definition has_status (st : string) (r : reply) : Prop :=
  ∃ i, r = Json (Obj (Some st) i).

(** The submission statuses of line 88. *)
Definition retried (r : reply) : Prop :=
  has_status "UNKNOWN" r ∨ has_status "RATELIMIT" r.

Definition poll_statuses : list string := ["UNKNOWN"; "RUNNING"; "PENDING"].

(** The statuses that keep the polling loop of line 106 going. *)
Definition polling (r : reply) : Prop :=
  has_status "UNKNOWN" r ∨ has_status "RUNNING" r ∨ has_status "PENDING" r.

(** The request every [submit] of a run makes. *)
Definition the_post (a : args) : event :=
  EPost (submit_url a) (query (seqs_unique (seqs a)) N) (s_mode (setup_mode a)).

(** What [k] retried submissions leave in the trace: a sleep and a new
    [post] each, the first sleep taking draw number [d]. *)
Fixpoint retry_events (w : world) (post : event) (d k : nat) : list event :=
  match k with
  | O => []
  | S k' =>
      ESleep (5 + Z.of_nat (rand w d mod 6)) :: post :: retry_events w post (S d) k'
  end.

Definition is_download (e : event) : bool :=
  match e with EDownload _ _ => true | _ => false end.

Definition is_post (e : event) : bool :=
  match e with EPost _ _ _ => true | _ => false end.

Definition is_get (e : event) : bool :=
  match e with EGet _ => true | _ => false end.

(** The events that talk to the server. *)
Definition is_request (e : event) : bool :=
  is_post e || is_get e || is_download e.

(** [line.replace("\x00", "")] *)
Definition strip_nul (line : string) : string := Py.remove_char Py.NUL line.

Definition has_nul (line : string) : bool := Py.contains Py.NUL line.

(** Once the NUL bytes are gone the line reads [>n]. *)
Definition header_for (n : Z) (line : string) : Prop :=
  Py.startswith ">" (strip_nul line) = true ∧
  Py.int (Py.rstrip (Py.tail (strip_nul line))) = Some n.

(** A line without NUL byte. *)
Definition plain (line : string) : Prop :=
  line ≠ EmptyString ∧ has_nul line = false.

(** A line that does not start with [>], with or without NUL bytes. *)
Definition not_header (line : string) : Prop :=
  line ≠ EmptyString ∧ Py.startswith ">" (strip_nul line) = false.

(** The identifiers in the first column of a hits file. *)
Definition hit_ids (hits : string) : list Z :=
  omap (λ line, head (Py.split (Py.rstrip line)) ≫= Py.int) (Py.readlines hits).

(** The alignment list of a returned value. *)
Definition alignments (v : retval) : list string :=
  match v with
  | Alignments l => l
  | AlignmentsAndTemplates l _ => l
  end.

(** Every character of the string passes the test. *)
Fixpoint str_forall (P : ascii → bool) (s : string) : bool :=
  match s with
  | EmptyString => true
  | String c r => P c && str_forall P r
  end.

Definition nonspace (c : ascii) : bool := negb (Py.isspace c).

(** The shapes of the events a call of [run_mmseqs] can leave. *)
Definition allowed (a : args) (e : event) : Prop :=
  match e with
  | EMkdir p => p = prefix a ∨ ∃ k, p = TMPL_PATH a (setup_mode a) k
  | EPost _ _ _ => e = the_post a
  | EGet u => ∃ ID, u = host_url a +:+ "/ticket/" +:+ ID
  | ESleep t => 5 ≤ t ≤ 10
  | EDownload u p =>
      p = tar_gz_file a ∧ ∃ ID, u = host_url a +:+ "/result/download/" +:+ ID
  | EExtract p d => p = tar_gz_file a ∧ d = prefix a
  | ESystem _ => s_use_templates (setup_mode a) = true
  end.

(** The state after [k] sleeps that each were followed by the same
    request [e]. *)
Definition after_rounds (w : world) (e : event) (k : nat) (s : state) : state :=
  State (fs s) (draws s + k) (downloads s)
    (trace s ++ retry_events w e (draws s) k).

(** [templates.get(k, [])] *)
Fixpoint dict_get (k : Z) (d : list (Z * list string)) : list string :=
  match d with
  | [] => []
  | (k', v) :: d' => if decide (k' = k) then v else dict_get k d'
  end.

(** The fields of a line of the hits file. *)
Definition fields (line : string) : list string := Py.split (Py.rstrip line).

(** A line [read_hit] accepts: eleven fields or more, the first an
    integer. *)
Definition hit_line (line : string) : Prop :=
  (11 ≤ length (fields line))%nat ∧ is_Some (head (fields line) ≫= Py.int).

(** The structure named on a line, when the line is a hit for [k]. *)
Definition pdb_of (k : Z) (line : string) : option string :=
  match fields line with
  | f0 :: pdb :: _ => if decide (Py.int f0 = Some k) then Some pdb else None
  | _ => None
  end.

(** ** Sample worlds *)

Module Sample.

Definition nul : string := String Py.NUL EmptyString.

(** Two alignment files in the layout the server produces: the records
    of successive queries are separated by a NUL byte. *)
Definition uniref : string :=
  ">101" +:+ Py.nl +:+ "SSS" +:+ Py.nl +:+ ">hit1" +:+ Py.nl +:+ "AAA" +:+ Py.nl
  +:+ nul +:+ ">102" +:+ Py.nl +:+ "TTT" +:+ Py.nl +:+ ">hit2" +:+ Py.nl
  +:+ "BBB" +:+ Py.nl.

Definition bfd : string :=
  ">101" +:+ Py.nl +:+ "SSS" +:+ Py.nl +:+ ">env1" +:+ Py.nl +:+ "CCC" +:+ Py.nl
  +:+ nul +:+ ">102" +:+ Py.nl +:+ "TTT" +:+ Py.nl.

(** A hits file with two hits for 101 and none for 102. *)
Definition m8 : string :=
  "101 1abc_A 0.5 3 4 5 6 7 8 9 1e-5 50" +:+ Py.nl
  +:+ "101 2xyz_B 0.4 3 4 5 6 7 8 9 1e-4 40" +:+ Py.nl.

Definition archive : file_content :=
  TarGz [("uniref.a3m", uniref);
         ("bfd.mgnify30.metaeuk30.smag30.a3m", bfd);
         ("pdb70.m8", m8)].

Definition status_only (st : string) : reply := Json (Obj (Some st) None).
Definition ticket (st : string) : reply := Json (Obj (Some st) (Some "T1")).

Definition batch : seq_input := SeqList ["SSS"; "TTT"; "SSS"].

(** The defaults, and the same call with templates requested. *)
Definition plain : args := default_args batch "out".
Definition with_templates : args :=
  Args batch "out" true true true None false "https://a3m.mmseqs.com".

(** Pairing, with templates asked for all the same. *)
Definition paired : args :=
  Args batch "out" true true true None true "https://a3m.mmseqs.com".

(** A server with these replies, and a disk that has the output
    directory and [out_env], the parent of the template directories,
    which the code never creates. *)
Definition server (rs : list reply) : world :=
  World (MkFS ∅ {["out"; "out_env"]}) rs (fun _ => 3%nat) (fun _ => archive).

(** The status sequence UNKNOWN, RUNNING, RUNNING, COMPLETE. *)
Definition normal : world :=
  server [status_only "UNKNOWN"; ticket "RUNNING"; status_only "RUNNING";
          status_only "COMPLETE"].

(** A poll that ends in MAINTENANCE, twice, before the job completes. *)
Definition maintenance : world :=
  server [ticket "PENDING"; status_only "MAINTENANCE";
          ticket "PENDING"; status_only "MAINTENANCE";
          ticket "PENDING"; status_only "COMPLETE"].

(** The same, cut before any COMPLETE. *)
Definition maintenance_only : world :=
  server [ticket "PENDING"; status_only "MAINTENANCE"].

(** A first reply that is not JSON, with a usable reply behind it. *)
Definition garbled : world :=
  server [NotJson; ticket "COMPLETE"].

(** Two retried submissions, then ERROR or MAINTENANCE. *)
Definition refused : world :=
  server [status_only "UNKNOWN"; status_only "RATELIMIT"; status_only "ERROR";
          ticket "COMPLETE"].
Definition closed : world :=
  server [status_only "RATELIMIT"; status_only "MAINTENANCE"; ticket "COMPLETE"].

(** The archive of an earlier run is already in the output directory. *)
Definition resumed : world :=
  World (MkFS {["out/out.tar.gz" := archive]} {["out"]})
    [ticket "COMPLETE"] (fun _ => 3%nat) (fun _ => archive).

End Sample.

(** * Properties *)

(** ** [l.index] *)

Section Index.

Implicit Types (l u : list string) (s t : string).

Lemma index_Some_lookup l s i : Py.index s l = Some i → l !! i = Some s.
Proof.
  revert i. induction l as [|y l IH]; intros i; simpl; [done|].
  destruct (decide (y = s)) as [->|Hne].
  - by intros [= <-].
  - destruct (Py.index s l) as [j|]; simpl; [|done].
    intros [= <-]. by apply IH.
Qed.

Lemma index_Some_lt l s i : Py.index s l = Some i → (i < length l)%nat.
Proof. intros H. eapply lookup_lt_Some, index_Some_lookup, H. Qed.

Lemma index_None l s : Py.index s l = None ↔ s ∉ l.
Proof.
  induction l as [|y l IH]; simpl.
  - split; [intros _; apply not_elem_of_nil | done].
  - destruct (decide (y = s)) as [->|Hne].
    + split; [done | intros H; destruct H; left].
    + rewrite not_elem_of_cons, <- IH.
      destruct (Py.index s l); simpl.
      * split; [done | by intros [_ ?]].
      * split; [intros _; split; [congruence | done] | done].
Qed.

Lemma index_is_Some l s : s ∈ l → is_Some (Py.index s l).
Proof.
  intros Hin. destruct (Py.index s l) eqn:E; [eauto|].
  by apply index_None in E.
Qed.

(** The index found is that of the first occurrence. *)
Lemma index_first l s i j :
  Py.index s l = Some i → l !! j = Some s → (i ≤ j)%nat.
Proof.
  revert i j. induction l as [|y l IH]; intros i j; simpl; [done|].
  destruct (decide (y = s)) as [->|Hne].
  - intros [= <-] _. lia.
  - destruct (Py.index s l) as [k|] eqn:E; simpl; [|done].
    intros [= <-]. destruct j as [|j]; simpl.
    + intros [= ?]. done.
    + intros Hj. specialize (IH k j eq_refl Hj). lia.
Qed.

Lemma index_app l l' s :
  Py.index s (l ++ l') =
    match Py.index s l with
    | Some i => Some i
    | None => (λ j, length l + j)%nat <$> Py.index s l'
    end.
Proof.
  induction l as [|y l IH]; simpl.
  - by destruct (Py.index s l').
  - destruct (decide (y = s)); [done|].
    rewrite IH. destruct (Py.index s l); simpl; [done|].
    by destruct (Py.index s l').
Qed.

Lemma index_snoc_new l s : s ∉ l → Py.index s (l ++ [s]) = Some (length l).
Proof.
  intros Hn. rewrite index_app. apply index_None in Hn. rewrite Hn. simpl.
  destruct (decide (s = s)); [|done]. simpl. f_equal. lia.
Qed.

Lemma index_snoc_old l s t i : Py.index s l = Some i → Py.index s (l ++ [t]) = Some i.
Proof. intros H. by rewrite index_app, H. Qed.

End Index.

(** ** De-duplication *)

Section Dedup.

Implicit Types (l p u : list string) (s t : string).

Lemma seqs_unique_snoc p s :
  seqs_unique (p ++ [s]) = dedup_step (seqs_unique p) s.
Proof. unfold seqs_unique. by rewrite fold_left_app. Qed.

Lemma seqs_unique_NoDup p : NoDup (seqs_unique p).
Proof.
  induction p as [|s p IH] using rev_ind; [constructor|].
  rewrite seqs_unique_snoc. unfold dedup_step.
  destruct (decide (s ∈ seqs_unique p)); [done|].
  apply NoDup_app. split; [done|]. split.
  - intros t Ht Hs. apply list_elem_of_singleton in Hs. by subst.
  - apply NoDup_singleton.
Qed.

Lemma seqs_unique_elem_of p s : s ∈ seqs_unique p ↔ s ∈ p.
Proof.
  induction p as [|t p IH] using rev_ind; [done|].
  rewrite seqs_unique_snoc. unfold dedup_step.
  destruct (decide (t ∈ seqs_unique p)) as [Hin|Hn].
  - rewrite elem_of_app, list_elem_of_singleton, IH.
    split; [tauto|]. intros [?| ->]; [done|]. by apply IH.
  - rewrite !elem_of_app, IH. done.
Qed.

(** Ranks in [seqs_unique] follow first occurrences in the batch. *)
Lemma seqs_unique_order p s t i j :
  Py.index s (seqs_unique p) = Some i →
  Py.index t (seqs_unique p) = Some j →
  ∃ i' j', Py.index s p = Some i' ∧ Py.index t p = Some j' ∧
           ((i < j)%nat ↔ (i' < j')%nat).
Proof.
  revert s t i j. induction p as [|y p IH] using rev_ind; intros s t i j.
  { done. }
  rewrite seqs_unique_snoc. unfold dedup_step.
  destruct (decide (y ∈ seqs_unique p)) as [Hin|Hn].
  - intros Hs Ht. destruct (IH _ _ _ _ Hs Ht) as (i' & j' & Hi & Hj & Hij).
    exists i', j'. by rewrite (index_snoc_old _ _ _ _ Hi), (index_snoc_old _ _ _ _ Hj).
  - assert (Hyp : y ∉ p) by (by rewrite <- seqs_unique_elem_of).
    rewrite !index_app. simpl.
    destruct (Py.index s (seqs_unique p)) as [a|] eqn:Es;
      destruct (Py.index t (seqs_unique p)) as [b|] eqn:Et; simpl.
    + intros [= <-] [= <-].
      destruct (IH _ _ _ _ Es Et) as (i' & j' & Hi & Hj & Hij).
      exists i', j'. by rewrite Hi, Hj.
    + destruct (decide (y = t)) as [<-|]; [simpl|done].
      intros [= <-] [= <-].
      destruct (IH _ _ _ _ Es Es) as (i' & _ & Hi & _).
      exists i', (length p). rewrite Hi.
      apply index_None in Hyp. rewrite Hyp. simpl.
      destruct (decide (y = y)); [|done]. simpl.
      split; [done|]. split; [f_equal; lia|].
      apply index_Some_lt in Es, Hi. lia.
    + destruct (decide (y = s)) as [<-|]; [simpl|done].
      intros [= <-] [= <-].
      destruct (IH _ _ _ _ Et Et) as (j' & _ & Hj & _).
      exists (length p), j'. rewrite Hj.
      apply index_None in Hyp. rewrite Hyp. simpl.
      destruct (decide (y = y)); [|done]. simpl.
      split; [f_equal; lia|]. split; [done|].
      apply index_Some_lt in Et, Hj. lia.
    + destruct (decide (y = s)) as [<-|]; [simpl|done].
      destruct (decide (y = t)) as [<-|]; [simpl|done].
      intros [= <-] [= <-].
      exists (length p), (length p).
      apply index_None in Hyp. rewrite Hyp. simpl.
      destruct (decide (y = y)); [|done]. simpl.
      split; [f_equal; lia|]. split; [f_equal; lia|]. lia.
Qed.

(** The comprehension of line 78 never raises when every sequence has a
    rank; its value is the list of [N + rank]. *)
Lemma Ms_of_total u l :
  (∀ s, s ∈ l → s ∈ u) →
  ∃ ms, Ms_of u l = Ok ms ∧ length ms = length l ∧
        ∀ i s, l !! i = Some s →
               ∃ r, Py.index s u = Some r ∧ ms !! i = Some (N + Z.of_nat r).
Proof.
  induction l as [|x l IH]; intros Hsub; simpl.
  - exists []. split; [done|]. split; [done|]. intros i s. by rewrite lookup_nil.
  - destruct (index_is_Some u x) as [r Hr]; [apply Hsub; left|].
    rewrite Hr.
    destruct IH as (ms & -> & Hlen & Hms); [intros s Hs; apply Hsub; by right|].
    exists ((N + Z.of_nat r) :: ms). split; [done|]. split; [simpl; by rewrite Hlen|].
    intros [|i] s; simpl.
    + intros [= <-]. eauto.
    + apply Hms.
Qed.

Lemma Ms_total l :
  ∃ ms, Ms l = Ok ms ∧ length ms = length l ∧
        ∀ i s, l !! i = Some s →
               ∃ r, Py.index s (seqs_unique l) = Some r ∧
                    ms !! i = Some (N + Z.of_nat r).
Proof. apply Ms_of_total. intros s. by rewrite seqs_unique_elem_of. Qed.

(** Equal sequences get equal identifiers, and conversely. *)
Lemma Ms_share l ms i j s t :
  Ms l = Ok ms → l !! i = Some s → l !! j = Some t →
  (ms !! i = ms !! j ↔ s = t).
Proof.
  intros Hms Hi Hj. destruct (Ms_total l) as (ms' & Hms' & _ & Hall).
  rewrite Hms in Hms'. injection Hms' as <-.
  destruct (Hall _ _ Hi) as (r & Hr & ->).
  destruct (Hall _ _ Hj) as (r' & Hr' & ->).
  split.
  - intros [= Heq]. assert (r = r') as <- by lia.
    apply index_Some_lookup in Hr, Hr'. congruence.
  - intros <-. congruence.
Qed.

End Dedup.

(** ** The FASTA body *)

Lemma append_nil_r (s : string) : s +:+ EmptyString = s.
Proof. induction s as [|c s IH]; [done|]. cbv [String.append] in *. by f_equal. Qed.

Lemma append_assoc (s1 s2 s3 : string) : (s1 +:+ s2) +:+ s3 = s1 +:+ (s2 +:+ s3).
Proof.
  induction s1 as [|c s1 IH]; [done|].
  change (String c ((s1 +:+ s2) +:+ s3) = String c (s1 +:+ (s2 +:+ s3))).
  by f_equal.
Qed.

Lemma query_fold l n q :
  fold_left
    (fun (nq : Z * string) (seq : string) =>
       (fst nq + 1,
        snd nq +:+ ">" +:+ Py.str (fst nq) +:+ Py.nl +:+ seq +:+ Py.nl))
    l (n, q)
  = (n + Z.of_nat (length l), q +:+ query l n).
Proof.
  revert n q. induction l as [|s l IH]; intros n q.
  - unfold query. simpl. f_equal; [lia|]. by rewrite append_nil_r.
  - unfold query. simpl. rewrite !IH. simpl. f_equal; [lia|].
    by rewrite !append_assoc.
Qed.

(** Each unique sequence goes out under the next identifier. *)
Lemma query_cons s l n :
  query (s :: l) n = ">" +:+ Py.str n +:+ Py.nl +:+ s +:+ Py.nl +:+ query l (n + 1).
Proof.
  unfold query at 1. simpl. rewrite query_fold. simpl.
  by rewrite !append_assoc.
Qed.

Lemma query_nil n : query [] n = EmptyString.
Proof. done. Qed.

(** ** Identifier assignment *)

(** C1. For every batch, [seqs_unique] has no duplicates, holds exactly
    the sequences of the batch, and ranks them by first occurrence; the
    request body gives each unique sequence the identifier [101 + rank];
    [Ms] never raises, has one entry per batch index, namely [101 + rank]
    of the sequence at that index, so that two indices carry the same
    identifier exactly when they carry the same sequence.  For the batch
    [[S,T,S]] with [S] and [T] distinct, the unique sequences are [[S,T]],
    sent as [>101] and [>102], and the identifier map is [[101,102,101]]. *)
Theorem C1_identifier_assignment (batch : list string) :
  let uniq := seqs_unique batch in
  (NoDup uniq ∧
   (∀ s, s ∈ uniq ↔ s ∈ batch) ∧
   (∀ s t i j,
       Py.index s uniq = Some i → Py.index t uniq = Some j →
       ∃ i' j', Py.index s batch = Some i' ∧ Py.index t batch = Some j' ∧
                ((i < j)%nat ↔ (i' < j')%nat))) ∧
  (∀ s l n,
      query (s :: l) n
      = ">" +:+ Py.str n +:+ Py.nl +:+ s +:+ Py.nl +:+ query l (n + 1)) ∧
  (∃ ms, Ms batch = Ok ms ∧ length ms = length batch ∧
         (∀ i s, batch !! i = Some s →
                 ∃ r, uniq !! r = Some s ∧ ms !! i = Some (101 + Z.of_nat r)) ∧
         (∀ i j s t, batch !! i = Some s → batch !! j = Some t →
                     (ms !! i = ms !! j ↔ s = t))) ∧
  (∀ S T : string,
      S ≠ T →
      seqs_unique [S; T; S] = [S; T] ∧
      query (seqs_unique [S; T; S]) N
      = ">101" +:+ Py.nl +:+ S +:+ Py.nl +:+ ">102" +:+ Py.nl +:+ T +:+ Py.nl ∧
      Ms [S; T; S] = Ok [101; 102; 101]).
Proof.
  intros uniq. subst uniq.
  assert (HSTS : ∀ S T : string, S ≠ T → seqs_unique [S; T; S] = [S; T]).
  { intros S T HST.
    assert (E1 : dedup_step [] S = [S]).
    { unfold dedup_step. rewrite decide_False; [done | apply not_elem_of_nil]. }
    assert (E2 : dedup_step [S] T = [S; T]).
    { unfold dedup_step. rewrite decide_False; [done|].
      intros ?%list_elem_of_singleton. congruence. }
    assert (E3 : dedup_step [S; T] S = [S; T]).
    { unfold dedup_step. rewrite decide_True; [done | left]. }
    unfold seqs_unique. simpl. by rewrite E1, E2, E3. }
  split; [split; [|split] | split; [|split]].
  - apply seqs_unique_NoDup.
  - apply seqs_unique_elem_of.
  - apply seqs_unique_order.
  - apply query_cons.
  - destruct (Ms_total batch) as (ms & Hms & Hlen & Hall).
    exists ms. split; [done|]. split; [done|]. split.
    + intros i s Hi. destruct (Hall _ _ Hi) as (r & Hr & Hmi).
      exists r. split; [by apply index_Some_lookup | done].
    + intros i j s t. by apply Ms_share.
  - intros S T HST. rewrite (HSTS S T HST). split; [done|]. split.
    + rewrite !query_cons, query_nil. by rewrite append_nil_r.
    + unfold Ms. rewrite (HSTS S T HST). simpl.
      rewrite decide_True by done.
      rewrite decide_False by done. rewrite decide_True by done. done.
Qed.

Lemma C1_witness :
  "S" ≠ "T" ∧
  seqs_unique ["S"; "T"; "S"] = ["S"; "T"] ∧
  query (seqs_unique ["S"; "T"; "S"]) N
  = ">101" +:+ Py.nl +:+ "S" +:+ Py.nl +:+ ">102" +:+ Py.nl +:+ "T" +:+ Py.nl ∧
  Ms ["S"; "T"; "S"] = Ok [101; 102; 101].
Proof.
  assert (H : "S" ≠ "T") by discriminate.
  split; [exact H|].
  exact (proj2 (proj2 (proj2 (C1_identifier_assignment []))) "S" "T" H).
Defined.

(** ** The monad *)

Lemma bind_Ok_inv {A B} (m : M A) (k : A → M B) s b s' :
  bind m k s = (Ok b, s') → ∃ a s1, m s = (Ok a, s1) ∧ k a s1 = (Ok b, s').
Proof.
  unfold bind. destruct (m s) as [[a|e|] s1]; [eauto | done | done].
Qed.

Lemma bind_Ok {A B} (m : M A) (k : A → M B) s a s1 :
  m s = (Ok a, s1) → bind m k s = k a s1.
Proof. unfold bind. by intros ->. Qed.

Lemma bind_Raise {A B} (m : M A) (k : A → M B) s e s1 :
  m s = (Raise e, s1) → bind m k s = (Raise e, s1).
Proof. unfold bind. by intros ->. Qed.

(** A continuation that never returns makes the whole never return. *)
Lemma bind_never_Ok {A B} (m : M A) (k : A → M B) s :
  (∀ a s1, is_Ok (fst (k a s1)) = false) → is_Ok (fst (bind m k s)) = false.
Proof.
  intros Hk. unfold bind. destruct (m s) as [[a|e|] s1]; [apply Hk | done | done].
Qed.

(** ** Invariants of the trace *)

Section Keeps.

Variable P : event → Prop.

(** [m] only adds events that satisfy [P]. *)
Definition keeps {A} (m : M A) : Prop :=
  ∀ s, Forall P (trace s) → Forall P (trace (snd (m s))).

Lemma keeps_ret {A} (a : A) : keeps (ret a).
Proof. by intros s. Qed.

Lemma keeps_raise {A} e : keeps (@raise A e).
Proof. by intros s. Qed.

Lemma keeps_lift {A} (r : result A) : keeps (lift r).
Proof. by intros s. Qed.

Lemma keeps_bind {A B} (m : M A) (k : A → M B) :
  keeps m → (∀ a, keeps (k a)) → keeps (bind m k).
Proof.
  intros Hm Hk s Hs. unfold bind. specialize (Hm s Hs).
  destruct (m s) as [[a|e|] s1]; simpl in *; [by apply Hk | done | done].
Qed.

Lemma keeps_tell e : P e → keeps (tell e).
Proof.
  intros He s Hs. simpl. apply Forall_app. split; [done|]. by constructor.
Qed.

Lemma keeps_for_fold {A B} (l : list A) (body : B → A → M B) acc :
  (∀ b x, keeps (body b x)) → keeps (for_fold l body acc).
Proof.
  intros Hb. revert acc. induction l as [|x l IH]; intros acc; simpl.
  - apply keeps_ret.
  - apply keeps_bind; [apply Hb | intros b; apply IH].
Qed.

Lemma keeps_isdir p : keeps (Os.isdir p).
Proof. by intros s. Qed.

Lemma keeps_isfile p : keeps (Os.isfile p).
Proof. by intros s. Qed.

Lemma keeps_mkdir p : P (EMkdir p) → keeps (Os.mkdir p).
Proof.
  intros He s Hs. unfold Os.mkdir.
  repeat (case_match; simpl; try done).
  apply Forall_app. split; [done|]. by constructor.
Qed.

Lemma keeps_read_lines p : keeps (Os.read_lines p).
Proof. intros s Hs. unfold Os.read_lines. by repeat (case_match; simpl). Qed.

Lemma keeps_extractall p d : P (EExtract p d) → keeps (Os.extractall p d).
Proof.
  intros He s Hs. unfold Os.extractall.
  repeat (case_match; simpl; try done).
  apply Forall_app. split; [done|]. by constructor.
Qed.

Lemma keeps_sleep_time w : keeps (sleep_time w).
Proof. by intros s. Qed.

Lemma keeps_download w a ID p :
  P (EDownload (host_url a +:+ "/result/download/" +:+ ID) p) →
  keeps (download w a ID p).
Proof.
  intros He s Hs. unfold download, Os.write_file. simpl.
  destruct (Os.fs_write _ _ _); simpl;
    (apply Forall_app; split; [done|]; by constructor).
Qed.

Lemma keeps_any_not_isfile l : keeps (any_not_isfile l).
Proof.
  induction l as [|f l IH]; simpl; [apply keeps_ret|].
  apply keeps_bind; [apply keeps_isfile|]. intros b.
  destruct (negb b); [apply keeps_ret | apply IH].
Qed.

Lemma keeps_job_loop w a mode uniq tar rs ph :
  P (EPost (submit_url a) (query uniq N) mode) →
  (∀ t, P (ESleep t)) → (∀ u, P (EGet u)) → (∀ u p, P (EDownload u p)) →
  keeps (job_loop w a mode uniq tar rs ph).
Proof.
  intros Hpost Hsleep Hget Hdl. revert ph.
  induction rs as [|r rs IH]; intros ph; simpl; [apply keeps_lift|].
  destruct (on_reply ph r) as [|e|ID st].
  - apply keeps_bind; [apply keeps_sleep_time|]. intros t.
    apply keeps_bind; [by apply keeps_tell|]. intros _.
    apply keeps_bind; [by apply keeps_tell|]. intros _. apply IH.
  - apply keeps_raise.
  - case_bool_decide.
    + apply keeps_bind; [apply keeps_sleep_time|]. intros t.
      apply keeps_bind; [by apply keeps_tell|]. intros _.
      apply keeps_bind; [by apply keeps_tell|]. intros _. apply IH.
    + destruct (String.eqb st "ERROR"); [apply keeps_raise|].
      apply keeps_bind; [by apply keeps_download|]. intros _.
      destruct (negb _); [|apply keeps_ret].
      apply keeps_bind; [by apply keeps_tell|]. intros _. apply IH.
Qed.

End Keeps.

(** An invariant that constrains only the submissions holds along the
    whole run. *)
Section KeepsRun.

Variable P : event → Prop.
Variable a : args.
Variable w : world.

Hypothesis P_post :
  P (EPost (submit_url a) (query (seqs_unique (seqs a)) N) (s_mode (setup_mode a))).
Hypothesis P_other : ∀ e, (∀ u q m, e ≠ EPost u q m) → P e.

Lemma keeps_make_path : keeps P (make_path a).
Proof.
  unfold make_path. apply keeps_bind; [apply keeps_isdir|]. intros d.
  destruct (negb d); [|apply keeps_ret]. apply keeps_mkdir. by apply P_other.
Qed.

Lemma keeps_fetch_a3m : keeps P (fetch_a3m a w (setup_mode a) (seqs_unique (seqs a))).
Proof.
  unfold fetch_a3m.
  apply keeps_bind; [by apply keeps_tell|]. intros _.
  apply keeps_bind.
  { apply keeps_job_loop; [done|..]; intros; by apply P_other. }
  intros _. unfold extract_a3m.
  apply keeps_bind; [apply keeps_any_not_isfile|]. intros b.
  destruct b; [|apply keeps_ret]. apply keeps_extractall. by apply P_other.
Qed.

Lemma keeps_read_templates p : keeps P (read_templates p).
Proof.
  unfold read_templates. apply keeps_bind; [apply keeps_read_lines|].
  intros lines. apply keeps_lift.
Qed.

Lemma keeps_fetch_template su tp kv : keeps P (fetch_template a su tp kv).
Proof.
  unfold fetch_template. apply keeps_bind; [apply keeps_isdir|]. intros d.
  apply keeps_bind; [|intros _; apply keeps_ret].
  destruct (negb d); [|apply keeps_ret].
  apply keeps_bind; [apply keeps_mkdir; by apply P_other|]. intros _.
  apply keeps_bind; [apply keeps_tell; by apply P_other|]. intros _.
  apply keeps_bind; [apply keeps_tell; by apply P_other|]. intros _.
  apply keeps_tell; by apply P_other.
Qed.

Lemma keeps_gather_file d f : keeps P (gather_file d f).
Proof.
  unfold gather_file. apply keeps_bind; [apply keeps_read_lines|].
  intros lines. apply keeps_lift.
Qed.

Lemma keeps_assemble su ms : keeps P (assemble a su ms).
Proof.
  unfold assemble. apply keeps_bind.
  { destruct (s_use_templates su); [|apply keeps_ret].
    apply keeps_bind; [apply keeps_read_templates | intros t; apply keeps_ret]. }
  intros [t|].
  2:{ apply keeps_bind; [apply keeps_raise|]. intros tp.
      apply keeps_bind; [apply keeps_for_fold; intros; apply keeps_gather_file|].
      intros lines. apply keeps_bind; [apply keeps_lift|]. intros out.
      destruct (s_use_templates su); apply keeps_ret. }
  apply keeps_bind; [apply keeps_for_fold; intros; apply keeps_fetch_template|].
  intros tp.
  apply keeps_bind; [apply keeps_for_fold; intros; apply keeps_gather_file|].
  intros lines. apply keeps_bind; [apply keeps_lift|]. intros out.
  destruct (s_use_templates su); apply keeps_ret.
Qed.

Lemma keeps_run_mmseqs : Forall P (trace (snd (run_mmseqs a w))).
Proof.
  unfold run_mmseqs. cut (keeps P (run_mmseqs_body a w)).
  { intros H. apply H. constructor. }
  unfold run_mmseqs_body.
  apply keeps_bind; [apply keeps_make_path|]. intros _.
  apply keeps_bind; [apply keeps_lift|]. intros ms.
  apply keeps_bind; [apply keeps_isfile|]. intros have_tar.
  destruct (negb have_tar); [|apply keeps_raise].
  apply keeps_bind; [apply keeps_fetch_a3m | intros _; apply keeps_assemble].
Qed.

End KeepsRun.

(** ** Mode selection *)

(** C9. With [filter] left at [None]: without pairing the mode is "env",
    "all", "env-nofilter" or "nofilter" according to [use_filter] and
    [use_env], the template and environment flags are the caller's, and
    the endpoint is [ticket/msa]; with pairing the mode is the empty
    string, both flags are off and the endpoint is [ticket/pair].  Every
    submission of the run posts to that endpoint with that mode. *)
Theorem C9_mode_selection (a : args) :
  filter a = None →
  (use_pairing a = false →
     (use_filter a = true → use_env a = true → s_mode (setup_mode a) = "env") ∧
     (use_filter a = true → use_env a = false → s_mode (setup_mode a) = "all") ∧
     (use_filter a = false → use_env a = true → s_mode (setup_mode a) = "env-nofilter") ∧
     (use_filter a = false → use_env a = false → s_mode (setup_mode a) = "nofilter") ∧
     s_use_templates (setup_mode a) = use_templates a ∧
     s_use_env (setup_mode a) = use_env a ∧
     submission_endpoint a = "ticket/msa") ∧
  (use_pairing a = true →
     s_mode (setup_mode a) = "" ∧
     s_use_templates (setup_mode a) = false ∧
     s_use_env (setup_mode a) = false ∧
     submission_endpoint a = "ticket/pair") ∧
  (∀ w url q mode,
      EPost url q mode ∈ trace (snd (run_mmseqs a w)) →
      url = host_url a +:+ "/" +:+ submission_endpoint a ∧
      mode = s_mode (setup_mode a)).
Proof.
  intros Hf. split; [|split].
  - intros Hp. unfold setup_mode, submission_endpoint. rewrite Hf, Hp.
    repeat split; intros; by repeat match goal with H : _ = _ |- _ => rewrite H end.
  - intros Hp. unfold setup_mode, submission_endpoint. by rewrite Hp.
  - intros w url q mode Hin.
    pose (P := fun e => match e with
                        | EPost u _ m =>
                            u = submit_url a ∧ m = s_mode (setup_mode a)
                        | _ => True
                        end).
    assert (HP : Forall P (trace (snd (run_mmseqs a w)))).
    { apply keeps_run_mmseqs; [done|]. intros [] He; try exact I.
      by destruct (He url0 q0 mode0). }
    rewrite Forall_forall in HP. exact (HP _ Hin).
Qed.

Lemma C9_witness :
  (s_mode (setup_mode Sample.plain) = "env" ∧
   submission_endpoint Sample.plain = "ticket/msa") ∧
  (s_mode (setup_mode Sample.paired) = "" ∧
   s_use_templates (setup_mode Sample.paired) = false ∧
   s_use_env (setup_mode Sample.paired) = false ∧
   submission_endpoint Sample.paired = "ticket/pair").
Proof.
  split.
  - destruct (C9_mode_selection Sample.plain eq_refl) as (H & _).
    destruct (H eq_refl) as (Henv & _ & _ & _ & _ & _ & Hep).
    split; [exact (Henv eq_refl eq_refl) | exact Hep].
  - destruct (C9_mode_selection Sample.paired eq_refl) as (_ & H & _).
    exact (H eq_refl).
Defined.

(** ** The run, stage by stage *)

(** [os.mkdir] touches no file. *)
Lemma fs_mkdir_files f p f' : Os.fs_mkdir f p = inr f' → files f' = files f.
Proof.
  unfold Os.fs_mkdir. repeat case_match; try done. by intros [= <-].
Qed.

Lemma mkdir_Ok p s s' :
  Os.mkdir p s = (Ok tt, s') →
  ∃ f', Os.fs_mkdir (fs s) p = inr f' ∧ s' = emit (EMkdir p) (set_fs f' s).
Proof.
  unfold Os.mkdir. destruct (Os.fs_mkdir (fs s) p) as [e|f']; [done|].
  intros [= <-]. eauto.
Qed.

Lemma make_path_Ok a s s0 :
  make_path a s = (Ok tt, s0) →
  files (fs s0) = files (fs s) ∧ draws s0 = draws s ∧ downloads s0 = downloads s ∧
  (trace s0 = trace s ∨ trace s0 = trace s ++ [EMkdir (prefix a)]).
Proof.
  unfold make_path, bind, Os.isdir, ret. simpl.
  case_bool_decide; simpl; [intros [= <-]; auto|].
  intros (f & Hf & ->)%mkdir_Ok. simpl. split; [|auto].
  by apply fs_mkdir_files in Hf.
Qed.

Lemma make_path_isdir a s :
  prefix a ∈ dirs (fs s) → make_path a s = (Ok tt, s).
Proof.
  intros Hd. unfold make_path, bind, Os.isdir. simpl.
  by rewrite bool_decide_eq_true_2.
Qed.

(** Once the output directory is there, the run is the archive test of
    line 80 followed by either the failing [return] or the two stages. *)
Lemma run_mmseqs_unfold a w s0 :
  make_path a (init w) = (Ok tt, s0) →
  ∃ ms, Ms (seqs a) = Ok ms ∧
        run_mmseqs a w =
          if bool_decide (is_Some (files (fs0 w) !! tar_gz_file a))
          then (Raise (UnboundLocalError "a3m_lines"), s0)
          else bind (fetch_a3m a w (setup_mode a) (seqs_unique (seqs a)))
                 (fun _ => assemble a (setup_mode a) ms) s0.
Proof.
  intros Hmk. destruct (Ms_total (seqs a)) as (ms & Hms & _).
  exists ms. split; [done|].
  unfold run_mmseqs, run_mmseqs_body. rewrite (bind_Ok _ _ _ _ _ Hmk).
  unfold Ms in Hms. unfold bind at 1. unfold lift. rewrite Hms.
  unfold bind at 1. unfold Os.isfile.
  destruct (make_path_Ok _ _ _ Hmk) as (-> & _). simpl.
  by destruct (bool_decide _).
Qed.

(** The run never returns a value when the [return] or the template loop
    is bound to fail. *)
Lemma run_mmseqs_not_Ok a w :
  (files (fs0 w) !! tar_gz_file a = None →
   ∀ ms s, is_Ok (fst (assemble a (setup_mode a) ms s)) = false) →
  is_Ok (fst (run_mmseqs a w)) = false.
Proof.
  intros Hasm. unfold run_mmseqs, run_mmseqs_body.
  unfold bind at 1.
  destruct (make_path a (init w)) as [[[]|e|] s0] eqn:Hmk; [|done|done].
  unfold bind at 1, lift. destruct (Ms_of _ _) as [ms|e|]; [|done|done].
  unfold bind at 1, Os.isfile.
  destruct (make_path_Ok _ _ _ Hmk) as (Hf & _). rewrite Hf. simpl.
  case_bool_decide as Hex; simpl; [done|].
  unfold bind. destruct (fetch_a3m _ _ _ _ _) as [[[]|e|] s2]; [|done|done].
  apply Hasm. by apply eq_None_not_Some.
Qed.

Lemma make_path_trace a s :
  trace (snd (make_path a s)) = trace s ∨
  trace (snd (make_path a s)) = trace s ++ [EMkdir (prefix a)].
Proof.
  unfold make_path, bind, Os.isdir, Os.mkdir, ret. simpl.
  case_bool_decide; simpl; [auto|].
  destruct (Os.fs_mkdir (fs s) (prefix a)); simpl; auto.
Qed.

(** ** Resuming from an archive on disk *)

(** C3 (what the code does). When [out.tar.gz] is already in the output
    directory, the run makes no request at all: the only event it can
    leave is the creation of the output directory.  It then skips the
    whole block of lines 81-190, parsing included, and the [return] of
    line 192 raises [UnboundLocalError] for [a3m_lines]: no alignment
    list is returned. *)
Theorem C3_archive_present_no_output (a : args) (w : world) :
  is_Some (files (fs0 w) !! tar_gz_file a) →
  (∀ e, e ∈ trace (snd (run_mmseqs a w)) → e = EMkdir (prefix a)) ∧
  is_Ok (fst (run_mmseqs a w)) = false ∧
  (∀ s0, make_path a (init w) = (Ok tt, s0) →
         run_mmseqs a w = (Raise (UnboundLocalError "a3m_lines"), s0)).
Proof.
  intros Hex.
  assert (Hrun : ∀ s0, make_path a (init w) = (Ok tt, s0) →
                       run_mmseqs a w = (Raise (UnboundLocalError "a3m_lines"), s0)).
  { intros s0 Hmk. destruct (run_mmseqs_unfold a w s0 Hmk) as (ms & _ & ->).
    by rewrite bool_decide_eq_true_2. }
  assert (Hcase : run_mmseqs a w = (Raise (UnboundLocalError "a3m_lines"),
                                     snd (make_path a (init w)))
                  ∨ (is_Ok (fst (run_mmseqs a w)) = false ∧
                     snd (run_mmseqs a w) = snd (make_path a (init w)))).
  { destruct (make_path a (init w)) as [[[]|e|] s0] eqn:Hmk.
    - left. by apply Hrun.
    - right. unfold run_mmseqs, run_mmseqs_body.
      by rewrite (bind_Raise _ _ _ _ _ Hmk).
    - right. unfold run_mmseqs, run_mmseqs_body, bind. by rewrite Hmk. }
  assert (Htr : trace (snd (run_mmseqs a w)) = trace (snd (make_path a (init w)))).
  { destruct Hcase as [-> | [_ ->]]; done. }
  split; [|split; [|done]].
  - intros e. rewrite Htr.
    destruct (make_path_trace a (init w)) as [-> | ->]; simpl.
    + by intros ?%elem_of_nil.
    + by intros ->%list_elem_of_singleton.
  - destruct Hcase as [-> | [? _]]; done.
Qed.

Lemma C3_witness :
  run_mmseqs Sample.plain Sample.resumed
  = (Raise (UnboundLocalError "a3m_lines"), init Sample.resumed).
Proof.
  apply (C3_archive_present_no_output Sample.plain Sample.resumed).
  - exists Sample.archive. vm_compute. reflexivity.
  - vm_compute. reflexivity.
Defined.

(** ** The template loop without templates *)

Lemma assemble_unbound a su ms s :
  s_use_templates su = false →
  assemble a su ms s = (Raise (UnboundLocalError "templates"), s).
Proof. intros H. unfold assemble. by rewrite H. Qed.

(** C10. With [use_templates] false, or forced off by [use_pairing], and
    no archive on disk, the run never returns an alignment list; whenever
    the output directory is in place and the submit, poll, download and
    unpack stage completes, the loop over [templates.items()] raises
    [UnboundLocalError] for [templates], in the very state that stage
    ended in. *)
Theorem C10_templates_unbound (a : args) (w : world) :
  use_templates a = false ∨ use_pairing a = true →
  files (fs0 w) !! tar_gz_file a = None →
  is_Ok (fst (run_mmseqs a w)) = false ∧
  (∀ s0 s1,
      make_path a (init w) = (Ok tt, s0) →
      fetch_a3m a w (setup_mode a) (seqs_unique (seqs a)) s0 = (Ok tt, s1) →
      run_mmseqs a w = (Raise (UnboundLocalError "templates"), s1)).
Proof.
  intros Hoff Hno.
  assert (Ht : s_use_templates (setup_mode a) = false).
  { unfold setup_mode. destruct Hoff as [H|H]; rewrite H; by destruct (use_pairing a). }
  split.
  - apply run_mmseqs_not_Ok. intros _ ms s. by rewrite assemble_unbound.
  - intros s0 s1 Hmk Hfetch.
    destruct (run_mmseqs_unfold a w s0 Hmk) as (ms & _ & ->).
    rewrite bool_decide_eq_false_2 by (rewrite Hno; by intros [? ?]).
    rewrite (bind_Ok _ _ _ _ _ Hfetch). by apply assemble_unbound.
Qed.

Lemma C10_witness :
  run_mmseqs Sample.plain Sample.normal
  = (Raise (UnboundLocalError "templates"),
     snd (fetch_a3m Sample.plain Sample.normal (setup_mode Sample.plain)
            (seqs_unique (seqs Sample.plain)) (init Sample.normal))).
Proof.
  apply (proj2 (C10_templates_unbound Sample.plain Sample.normal
                  (or_introl eq_refl) eq_refl)
           (init Sample.normal)).
  - vm_compute. reflexivity.
  - vm_compute. reflexivity.
Defined.

(** ** Submission: retried and fatal replies *)

Lemma retried_Resubmit r : retried r → on_reply AtSubmit r = Resubmit.
Proof. by intros [[i ->] | [i ->]]. Qed.

(** Line 88 retries nothing else. *)
Lemma Resubmit_retried r : on_reply AtSubmit r = Resubmit → retried r.
Proof.
  destruct r as [|[[st|] i]]; [done| |done]. unfold on_reply. simpl.
  case_bool_decide as Hst.
  - intros _. apply elem_of_cons in Hst as [->|Hst]; [left; by exists i|].
    apply list_elem_of_singleton in Hst as ->. right. by exists i.
  - by repeat case_match.
Qed.

Lemma state_eta s : State (fs s) (draws s) (downloads s) (trace s) = s.
Proof. by destruct s. Qed.

(** Retried replies cost a sleep and a submission each; a fatal reply
    then ends the loop on the spot. *)
Lemma job_loop_fatal w a mode uniq tar retries r rest e s :
  Forall retried retries →
  on_reply AtSubmit r = Fail e →
  job_loop w a mode uniq tar (retries ++ r :: rest) AtSubmit s
  = (Raise e,
     State (fs s) (draws s + length retries) (downloads s)
       (trace s ++ retry_events w (EPost (submit_url a) (query uniq N) mode)
                     (draws s) (length retries))).
Proof.
  intros Hre Hfail. revert s.
  induction Hre as [|x retries Hx Hre IH]; intros s; simpl.
  - rewrite Hfail. unfold raise. rewrite Nat.add_0_r, app_nil_r.
    by rewrite state_eta.
  - rewrite (retried_Resubmit _ Hx).
    unfold bind at 1, sleep_time. unfold bind at 1, sleep, tell.
    unfold bind at 1, submit_request, tell. rewrite IH. simpl.
    do 2 f_equal; [lia|]. by rewrite <- !app_assoc.
Qed.

Lemma retry_events_sleep w post d k t :
  is_post post = true → ESleep t ∈ retry_events w post d k → 5 ≤ t ≤ 10.
Proof.
  intros Hp. revert d. induction k as [|k IH]; intros d; simpl.
  - by intros ?%elem_of_nil.
  - intros Hin. apply elem_of_cons in Hin as [Heq|Hin].
    + injection Heq as ->.
      pose proof (Nat.mod_upper_bound (rand w d) 6). lia.
    + apply elem_of_cons in Hin as [<-|Hin]; [done|]. by eapply IH.
Qed.

Lemma retry_events_posts w post d k :
  is_post post = true →
  length (base.filter (λ e, is_post e = true) (retry_events w post d k)) = k.
Proof.
  intros Hp. revert d. induction k as [|k IH]; intros d; simpl; [done|].
  rewrite filter_cons_False by done.
  rewrite filter_cons_True by done. simpl. by rewrite IH.
Qed.

Lemma run_mmseqs_fatal a w s0 retries r rest e :
  make_path a (init w) = (Ok tt, s0) →
  files (fs0 w) !! tar_gz_file a = None →
  replies w = retries ++ r :: rest →
  Forall retried retries →
  on_reply AtSubmit r = Fail e →
  run_mmseqs a w
  = (Raise e,
     State (fs s0) (length retries) 0
       (trace s0 ++ the_post a :: retry_events w (the_post a) 0 (length retries))).
Proof.
  intros Hmk Hno Hrs Hre Hfail.
  destruct (run_mmseqs_unfold a w s0 Hmk) as (ms & _ & ->).
  rewrite bool_decide_eq_false_2 by (rewrite Hno; by intros [? ?]).
  unfold fetch_a3m. unfold bind at 1. unfold bind at 1.
  unfold submit_request at 1, tell. rewrite Hrs.
  unfold bind at 1. rewrite (job_loop_fatal _ _ _ _ _ _ _ _ _ _ Hre Hfail).
  destruct (make_path_Ok _ _ _ Hmk) as (_ & Hd & Hdl & _).
  simpl in *. rewrite Hd, Hdl. simpl. do 2 f_equal.
  by rewrite <- app_assoc.
Qed.

(** C6. After any number of UNKNOWN or RATELIMIT replies, each answered
    by a sleep and a new submission, a submission reply with status ERROR
    makes the run raise the "giving errors" exception, and one with status
    MAINTENANCE the "undergoing maintenance" exception; the two messages
    differ.  The trace ends with the submission that got that reply: no
    status request, no download and no further submission follows. *)
Theorem C6_submission_error_is_fatal
    (a : args) (w : world) (s0 : state) (retries : list reply) (r : reply)
    (rest : list reply) :
  make_path a (init w) = (Ok tt, s0) →
  files (fs0 w) !! tar_gz_file a = None →
  replies w = retries ++ r :: rest →
  Forall retried retries →
  has_status "ERROR" r ∨ has_status "MAINTENANCE" r →
  (has_status "ERROR" r → fst (run_mmseqs a w) = Raise (Exception msg_errors)) ∧
  (has_status "MAINTENANCE" r →
   fst (run_mmseqs a w) = Raise (Exception msg_maintenance)) ∧
  msg_errors ≠ msg_maintenance ∧
  trace (snd (run_mmseqs a w))
  = trace s0 ++ the_post a :: retry_events w (the_post a) 0 (length retries) ∧
  length (base.filter (λ e, is_post e = true)
            (the_post a :: retry_events w (the_post a) 0 (length retries)))
  = S (length retries).
Proof.
  intros Hmk Hno Hrs Hre Hst.
  assert (Hfail : ∃ e, on_reply AtSubmit r = Fail e).
  { destruct Hst as [[i ->] | [i ->]]; eauto. }
  destruct Hfail as [e Hfail].
  pose proof (run_mmseqs_fatal a w s0 retries r rest e Hmk Hno Hrs Hre Hfail) as Hrun.
  split; [|split; [|split; [|split]]].
  - intros [i ->]. rewrite Hrun. simpl. by injection Hfail as <-.
  - intros [i ->]. rewrite Hrun. simpl. by injection Hfail as <-.
  - done.
  - by rewrite Hrun.
  - rewrite filter_cons_True by done. simpl. by rewrite retry_events_posts.
Qed.

Lemma C6_witness :
  fst (run_mmseqs Sample.plain Sample.refused) = Raise (Exception msg_errors) ∧
  fst (run_mmseqs Sample.plain Sample.closed) = Raise (Exception msg_maintenance).
Proof.
  split.
  - refine (proj1 (C6_submission_error_is_fatal Sample.plain Sample.refused
                     (init Sample.refused)
                     [Sample.status_only "UNKNOWN"; Sample.status_only "RATELIMIT"]
                     (Sample.status_only "ERROR") [Sample.ticket "COMPLETE"]
                     _ eq_refl eq_refl _ _) _).
    + vm_compute. reflexivity.
    + apply Forall_cons_2; [left; by exists None|].
      apply Forall_cons_2; [right; by exists None|]. apply Forall_nil_2.
    + left. by exists None.
    + by exists None.
  - refine (proj1 (proj2 (C6_submission_error_is_fatal Sample.plain Sample.closed
                     (init Sample.closed)
                     [Sample.status_only "RATELIMIT"]
                     (Sample.status_only "MAINTENANCE") [Sample.ticket "COMPLETE"]
                     _ eq_refl eq_refl _ _)) _).
    + vm_compute. reflexivity.
    + apply Forall_cons_2; [right; by exists None|]. apply Forall_nil_2.
    + right. by exists None.
    + by exists None.
Defined.

(** ** A reply that is not JSON *)

(** C5 (what the code does). [submit] turns a body that is not JSON into
    the status ERROR, and line 95 raises on it: after any number of
    retried replies, a garbled reply makes the run raise the "giving
    errors" exception, with no sleep and no submission after it.  The
    replies that line 88 answers by a sleep of 5 to 10 seconds and a new
    submission are those with status UNKNOWN or RATELIMIT and no others;
    a body that is not JSON is not among them. *)
Theorem C5_not_json_is_fatal
    (a : args) (w : world) (s0 : state) (retries rest : list reply) :
  make_path a (init w) = (Ok tt, s0) →
  files (fs0 w) !! tar_gz_file a = None →
  replies w = retries ++ NotJson :: rest →
  Forall retried retries →
  fst (run_mmseqs a w) = Raise (Exception msg_errors) ∧
  trace (snd (run_mmseqs a w))
  = trace s0 ++ the_post a :: retry_events w (the_post a) 0 (length retries) ∧
  (∀ t, ESleep t ∈ retry_events w (the_post a) 0 (length retries) → 5 ≤ t ≤ 10) ∧
  (∀ r, on_reply AtSubmit r = Resubmit ↔ retried r) ∧
  on_reply AtSubmit NotJson = Fail (Exception msg_errors).
Proof.
  intros Hmk Hno Hrs Hre.
  rewrite (run_mmseqs_fatal a w s0 retries NotJson rest (Exception msg_errors)
             Hmk Hno Hrs Hre eq_refl).
  split; [done|]. split; [done|]. split; [|split; [|done]].
  - intros t Hin. by apply (retry_events_sleep w (the_post a) 0 (length retries)).
  - intros r. split; [apply Resubmit_retried | apply retried_Resubmit].
Qed.

Lemma C5_witness :
  fst (run_mmseqs Sample.plain Sample.garbled) = Raise (Exception msg_errors).
Proof.
  refine (proj1 (C5_not_json_is_fatal Sample.plain Sample.garbled
                   (init Sample.garbled) [] [Sample.ticket "COMPLETE"]
                   _ eq_refl eq_refl _)).
  - vm_compute. reflexivity.
  - constructor.
Defined.

(** The claim as written fails: the garbled reply is not retried, although
    a usable reply was waiting behind it. *)
Lemma C5_counterexample :
  fst (run_mmseqs Sample.plain Sample.garbled) = Raise (Exception msg_errors) ∧
  trace (snd (run_mmseqs Sample.plain Sample.garbled)) = [the_post Sample.plain].
Proof. vm_compute. split; reflexivity. Qed.

(** ** Downloads *)

(** One more round of the polling loop. *)
Lemma job_loop_poll_step w a mode uniq tar r rest ph ID st s :
  on_reply ph r = Test ID st →
  st ∈ poll_statuses →
  job_loop w a mode uniq tar (r :: rest) ph s
  = job_loop w a mode uniq tar rest (AtPoll ID)
      (State (fs s) (S (draws s)) (downloads s)
         (trace s ++ [ESleep (5 + Z.of_nat (rand w (draws s) mod 6));
                      EGet (host_url a +:+ "/ticket/" +:+ ID)])).
Proof.
  intros Hr Hst. simpl. rewrite Hr.
  rewrite bool_decide_eq_true_2 by done.
  unfold bind, sleep_time, sleep, status_request, tell, emit. simpl.
  by rewrite <- app_assoc.
Qed.

(** The polling ends on COMPLETE: one download, and the loop is left. *)
Lemma job_loop_complete_step w a mode uniq tar r rest ph ID s :
  on_reply ph r = Test ID "COMPLETE" →
  Os.write_error (fs s) tar = None →
  job_loop w a mode uniq tar (r :: rest) ph s
  = (Ok tt,
     State (MkFS (<[tar := payload w (downloads s)]> (files (fs s))) (dirs (fs s)))
       (draws s) (S (downloads s))
       (trace s ++ [EDownload (host_url a +:+ "/result/download/" +:+ ID) tar])).
Proof.
  intros Hr Hw. simpl. rewrite Hr. simpl.
  unfold bind, download, Os.write_file, Os.fs_write. simpl. by rewrite Hw.
Qed.

(** X7. The polling ends on a status that is neither COMPLETE nor ERROR,
    nor one that keeps it going: the archive is downloaded all the same,
    and the job is submitted again.  The archive path is one that
    [open(tar, "wb")] accepts: no directory, in a directory that is
    there. *)
Lemma job_loop_falls_through w a mode uniq tar r rest ph ID st s :
  on_reply ph r = Test ID st →
  st ∉ poll_statuses → st ≠ "ERROR" → st ≠ "COMPLETE" →
  Os.write_error (fs s) tar = None →
  job_loop w a mode uniq tar (r :: rest) ph s
  = job_loop w a mode uniq tar rest AtSubmit
      (State (MkFS (<[tar := payload w (downloads s)]> (files (fs s))) (dirs (fs s)))
         (draws s) (S (downloads s))
         (trace s ++ [EDownload (host_url a +:+ "/result/download/" +:+ ID) tar;
                      EPost (submit_url a) (query uniq N) mode])).
Proof.
  intros Hr Hst Herr Hc Hw. simpl. rewrite Hr.
  rewrite bool_decide_eq_false_2 by done.
  apply String.eqb_neq in Herr, Hc. rewrite Herr, Hc.
  unfold bind, download, Os.write_file, Os.fs_write, submit_request, tell, emit,
    set_fs. simpl. rewrite Hw. simpl.
  by rewrite <- app_assoc.
Qed.

Lemma polling_Test ID r :
  polling r → ∃ st, on_reply (AtPoll ID) r = Test ID st ∧ st ∈ poll_statuses.
Proof.
  unfold poll_statuses.
  intros [[i ->] | [[i ->] | [i ->]]]; eexists; (split; [reflexivity|]);
    set_solver.
Qed.

Lemma job_loop_poll_complete w a mode uniq tar ID polls rc rest s :
  Forall polling polls → has_status "COMPLETE" rc →
  Os.write_error (fs s) tar = None →
  job_loop w a mode uniq tar (polls ++ rc :: rest) (AtPoll ID) s
  = (Ok tt,
     State (MkFS (<[tar := payload w (downloads s)]> (files (fs s))) (dirs (fs s)))
       (draws s + length polls) (S (downloads s))
       (trace s
        ++ retry_events w (EGet (host_url a +:+ "/ticket/" +:+ ID))
             (draws s) (length polls)
        ++ [EDownload (host_url a +:+ "/result/download/" +:+ ID) tar])).
Proof.
  intros Hp [i ->]. revert s.
  induction Hp as [|x polls Hx Hp IH]; intros s Hw.
  - rewrite app_nil_l, (job_loop_complete_step _ _ _ _ _ _ _ _ ID) by done.
    by rewrite Nat.add_0_r.
  - destruct (polling_Test ID x Hx) as (st & Hr & Hst).
    rewrite <- app_comm_cons, (job_loop_poll_step _ _ _ _ _ _ _ _ ID st) by done.
    rewrite IH by done. simpl. do 2 f_equal; [lia|]. by rewrite <- !app_assoc.
Qed.

(** X6. A run of the protocol as the server is meant to speak it: retried
    submissions, a ticket that is RUNNING or PENDING, polls that stay
    UNKNOWN, RUNNING or PENDING, then COMPLETE.  The loop ends normally
    with exactly one download, its last event, which puts the body of
    that download at [tar]; each retried submission and each poll costs
    one sleep.  The archive path is one that [open(tar, "wb")] accepts:
    no directory, in a directory that is there. *)
Lemma job_loop_completes w a mode uniq tar retries ID st0 polls rc rest s :
  Forall retried retries →
  st0 = "RUNNING" ∨ st0 = "PENDING" →
  Forall polling polls → has_status "COMPLETE" rc →
  Os.write_error (fs s) tar = None →
  job_loop w a mode uniq tar
    (retries ++ Json (Obj (Some st0) (Some ID)) :: polls ++ rc :: rest) AtSubmit s
  = (Ok tt,
     State (MkFS (<[tar := payload w (downloads s)]> (files (fs s))) (dirs (fs s)))
       (draws s + length retries + S (length polls)) (S (downloads s))
       (trace s
        ++ retry_events w (EPost (submit_url a) (query uniq N) mode)
             (draws s) (length retries)
        ++ retry_events w (EGet (host_url a +:+ "/ticket/" +:+ ID))
             (draws s + length retries) (S (length polls))
        ++ [EDownload (host_url a +:+ "/result/download/" +:+ ID) tar])).
Proof.
  intros Hre Hst0 Hp Hc. revert s.
  induction Hre as [|x retries Hx Hre IH]; intros s Hw.
  - rewrite app_nil_l.
    rewrite (job_loop_poll_step _ _ _ _ _ _ _ _ ID st0).
    2:{ by destruct Hst0 as [-> | ->]. }
    2:{ unfold poll_statuses. destruct Hst0 as [-> | ->]; set_solver. }
    rewrite (job_loop_poll_complete _ _ _ _ _ _ _ _ _ _ Hp Hc) by done. simpl.
    rewrite Nat.add_0_r. do 2 f_equal; [lia|].
    by rewrite <- !app_assoc.
  - rewrite <- app_comm_cons. simpl. rewrite (retried_Resubmit _ Hx).
    unfold bind at 1, sleep_time. unfold bind at 1, sleep, tell.
    unfold bind at 1, submit_request, tell. rewrite IH by done. simpl.
    do 2 f_equal; [lia|]. rewrite <- !app_assoc. simpl.
    by rewrite !Nat.add_succ_r.
Qed.

(** The status sequence UNKNOWN, RUNNING, RUNNING, COMPLETE: one
    re-submission, two polls, and a single download at the very end of the
    exchange with the server. *)
Example normal_exchange :
  base.filter (λ e, is_request e = true)
    (trace (snd (run_mmseqs Sample.with_templates Sample.normal)))
  = [the_post Sample.with_templates;
     the_post Sample.with_templates;
     EGet "https://a3m.mmseqs.com/ticket/T1";
     EGet "https://a3m.mmseqs.com/ticket/T1";
     EDownload "https://a3m.mmseqs.com/result/download/T1" "out/out.tar.gz"].
Proof. vm_compute. reflexivity. Qed.

(** C4 (what the code does). The download of line 128 sits in the body of
    the [while REDO] loop and is reached whatever status ended the
    polling.  When a poll answers MAINTENANCE the archive is downloaded
    although no COMPLETE was ever seen, and the job is submitted again;
    when that happens twice before the job completes, the run downloads
    three times. *)
Theorem C4_download_without_complete :
  base.filter (λ e, is_download e = true)
    (trace (snd (run_mmseqs Sample.with_templates Sample.maintenance_only)))
  = [EDownload "https://a3m.mmseqs.com/result/download/T1" "out/out.tar.gz"] ∧
  Forall (λ r, ¬ has_status "COMPLETE" r) (replies Sample.maintenance_only) ∧
  length (base.filter (λ e, is_download e = true)
            (trace (snd (run_mmseqs Sample.with_templates Sample.maintenance)))) = 3%nat ∧
  is_Ok (fst (run_mmseqs Sample.with_templates Sample.maintenance)) = true.
Proof.
  split; [|split; [|split]].
  - vm_compute. reflexivity.
  - repeat apply Forall_cons_2; try apply Forall_nil_2; by intros [i ?].
  - vm_compute. reflexivity.
  - vm_compute. reflexivity.
Qed.

(** ** Alignment blocks *)

Lemma remove_char_id c s : Py.contains c s = false → Py.remove_char c s = s.
Proof.
  induction s as [|d s IH]; simpl; [done|].
  destruct (Ascii.eqb c d); [done|]. intros H. by rewrite IH.
Qed.

Lemma contains_remove_char c s : Py.contains c (Py.remove_char c s) = false.
Proof.
  induction s as [|d s IH]; simpl; [done|].
  destruct (Ascii.eqb c d) eqn:E; [done|]. simpl. by rewrite E.
Qed.

Lemma nonempty_length (l : string) : l ≠ EmptyString → (0 <? String.length l)%nat = true.
Proof. by destruct l. Qed.

Lemma join_empty_cons s l : Py.join EmptyString (s :: l) = s +:+ Py.join EmptyString l.
Proof. destruct l; simpl; [by rewrite append_nil_r | done]. Qed.

Lemma join_empty_app l1 l2 :
  Py.join EmptyString (l1 ++ l2) = Py.join EmptyString l1 +:+ Py.join EmptyString l2.
Proof.
  induction l1 as [|s l1 IH]; [done|].
  rewrite <- app_comm_cons, !join_empty_cons, IH. by rewrite append_assoc.
Qed.

(** [''.join(l)] appends the pieces one after the other. *)
Lemma join_empty_foldr l :
  Py.join EmptyString l = foldr String.append EmptyString l.
Proof.
  induction l as [|s l IH]; [done|]. by rewrite join_empty_cons, IH.
Qed.

Section Gather.

Implicit Types (d : gmap Z (list string)) (l : string) (n : Z).

(** A header that is read: the line opens a block under its own
    identifier and is itself appended to it. *)
Lemma gather_line_header u M d l n :
  l ≠ EmptyString → u = true ∨ has_nul l = true → header_for n l →
  gather_line (PS u M d) l
  = Ok (PS false (Some n) (<[n := default [] (d !! n) ++ [strip_nul l]]> d)).
Proof.
  intros Hne Hu [Hgt Hint]. unfold gather_line.
  rewrite (nonempty_length _ Hne). simpl.
  unfold strip_nul, has_nul in *.
  assert (Hupd : (if Py.contains Py.NUL l then true else u) = true).
  { destruct Hu as [-> | ->]; [by destruct (Py.contains Py.NUL l) | done]. }
  rewrite Hupd.
  assert (Hl : (if Py.contains Py.NUL l then Py.remove_char Py.NUL l else l)
               = Py.remove_char Py.NUL l).
  { destruct (Py.contains Py.NUL l) eqn:E; [done|]. by rewrite remove_char_id. }
  rewrite Hl, Hgt, Hint. simpl.
  case_bool_decide as Hd; simpl.
  - destruct Hd as [ls Hls]. by rewrite Hls.
  - apply eq_None_not_Some in Hd. rewrite Hd, lookup_insert_eq. simpl.
    by rewrite insert_insert_eq.
Qed.

(** A line that is only appended to the current block. *)
Lemma gather_line_append u d l n ls :
  l ≠ EmptyString → d !! n = Some ls →
  Py.startswith ">" (strip_nul l) && (u || has_nul l) = false →
  gather_line (PS u (Some n) d) l
  = Ok (PS (u || has_nul l) (Some n) (<[n := ls ++ [strip_nul l]]> d)).
Proof.
  intros Hne Hls Hno. unfold gather_line.
  rewrite (nonempty_length _ Hne). simpl.
  unfold strip_nul, has_nul in *.
  destruct (Py.contains Py.NUL l) eqn:E; simpl.
  - rewrite orb_true_r in *. rewrite Hno. simpl. by rewrite Hls.
  - rewrite orb_false_r in *. rewrite remove_char_id in * by done.
    rewrite Hno. simpl. by rewrite Hls.
Qed.

Lemma gather_lines_app st (xs ys : list string) :
  gather_lines st (xs ++ ys)
  = match gather_lines st xs with
    | Ok st' => gather_lines st' ys
    | Raise e => Raise e
    | NoReply => NoReply
    end.
Proof.
  revert st. induction xs as [|l xs IH]; intros st; simpl; [done|].
  destruct (gather_line st l); [apply IH | done | done].
Qed.

(** Lines without NUL after a header that was read all go to its block,
    also those that start with [>]. *)
Lemma gather_lines_plain d n ls B :
  Forall plain B → d !! n = Some ls →
  gather_lines (PS false (Some n) d) B
  = Ok (PS false (Some n) (<[n := ls ++ B]> d)).
Proof.
  intros HB. revert d ls. induction HB as [|l B [Hne Hnul] HB IH]; intros d ls Hls.
  - simpl. by rewrite app_nil_r, insert_id.
  - simpl. rewrite (gather_line_append false d l n ls Hne Hls)
      by (rewrite Hnul; simpl; apply andb_false_r).
    rewrite Hnul. simpl.
    rewrite (IH _ (ls ++ [strip_nul l])) by apply lookup_insert_eq.
    rewrite insert_insert_eq. unfold strip_nul.
    rewrite remove_char_id by done. by rewrite <- app_assoc.
Qed.

(** Lines that do not start with [>] go to the current block; a NUL byte
    among them arms the next header. *)
Lemma gather_lines_not_header u d n ls G :
  Forall not_header G → d !! n = Some ls →
  gather_lines (PS u (Some n) d) G
  = Ok (PS (u || existsb has_nul G) (Some n) (<[n := ls ++ map strip_nul G]> d)).
Proof.
  intros HG. revert u d ls. induction HG as [|l G [Hne Hgt] HG IH]; intros u d ls Hls.
  - simpl. by rewrite orb_false_r, app_nil_r, insert_id.
  - simpl. rewrite (gather_line_append u d l n ls Hne Hls) by (by rewrite Hgt).
    rewrite (IH _ _ (ls ++ [strip_nul l])) by apply lookup_insert_eq.
    rewrite insert_insert_eq, <- app_assoc, orb_assoc. done.
Qed.

End Gather.

Lemma header_for_nonempty n l : header_for n l → l ≠ EmptyString.
Proof. intros [H _] ->. done. Qed.

(** Two headers, the second armed by a NUL byte: the lines up to the
    second header go to the block of the first, the rest to the block of
    the second. *)
Lemma gather_two_blocks (d : gmap Z (list string)) (n m : Z) (h1 h2 : string)
    (B1 Zs B2 : list string) :
  header_for n h1 → Forall plain B1 → Forall not_header Zs →
  existsb has_nul Zs = true ∨ has_nul h2 = true →
  header_for m h2 → Forall plain B2 →
  let d1 := <[n := default [] (d !! n)
                   ++ strip_nul h1 :: B1 ++ map strip_nul Zs]> d in
  gather_lines (PS true None d) (h1 :: B1 ++ Zs)
  = Ok (PS (existsb has_nul Zs) (Some n) d1) ∧
  gather_lines (PS (existsb has_nul Zs) (Some n) d1) (h2 :: B2)
  = Ok (PS false (Some m) (<[m := default [] (d1 !! m) ++ strip_nul h2 :: B2]> d1)).
Proof.
  intros Hh1 HB1 HZs Hnul Hh2 HB2 d1. split.
  - change (h1 :: B1 ++ Zs) with ([h1] ++ B1 ++ Zs).
    rewrite gather_lines_app. simpl.
    rewrite (gather_line_header true None d h1 n)
      by eauto using header_for_nonempty.
    rewrite gather_lines_app.
    rewrite (gather_lines_plain _ n (default [] (d !! n) ++ [strip_nul h1]))
      by (done || apply lookup_insert_eq).
    rewrite insert_insert_eq.
    rewrite (gather_lines_not_header false _ n
               ((default [] (d !! n) ++ [strip_nul h1]) ++ B1))
      by (done || apply lookup_insert_eq).
    rewrite insert_insert_eq. simpl. subst d1.
    do 3 f_equal. rewrite <- !app_assoc. done.
  - change (h2 :: B2) with ([h2] ++ B2). rewrite gather_lines_app. simpl.
    rewrite (gather_line_header _ (Some n) d1 h2 m)
      by eauto using header_for_nonempty.
    rewrite (gather_lines_plain _ m (default [] (d1 !! m) ++ [strip_nul h2]))
      by (done || apply lookup_insert_eq).
    rewrite insert_insert_eq. do 3 f_equal. by rewrite <- app_assoc.
Qed.

(** C7. Take a file whose first header names [n], followed by lines
    without NUL, then by lines that are not headers, and then by a second
    header naming [n] again, a NUL byte sitting on one of the lines in
    between or on the second header itself; lines without NUL follow.
    Every NUL byte is stripped from the line that carries it.  When the
    second header is reached the parser is armed ([update_M]) and reads it
    as a header: afterwards [update_M] is off and [M] is [n].  The text
    kept for [n] is what was there before, then the lines of the first
    block, then those of the second, each header included, and the entry
    returned for [n] is these lines appended one after the other, in that
    order. *)
Theorem C7_repeated_header_appends (d : gmap Z (list string)) (n : Z)
    (h1 h2 : string) (B1 Zs B2 : list string) :
  header_for n h1 → Forall plain B1 → Forall not_header Zs →
  existsb has_nul Zs = true ∨ has_nul h2 = true →
  header_for n h2 → Forall plain B2 →
  let before := default [] (d !! n) in
  let block1 := strip_nul h1 :: B1 ++ map strip_nul Zs in
  let block2 := strip_nul h2 :: B2 in
  (∀ l, has_nul (strip_nul l) = false) ∧
  (∀ l, has_nul l = false → strip_nul l = l) ∧
  gather_lines (PS true None d) (h1 :: B1 ++ Zs)
  = Ok (PS (existsb has_nul Zs) (Some n) (<[n := before ++ block1]> d)) ∧
  gather_lines (PS (existsb has_nul Zs) (Some n) (<[n := before ++ block1]> d))
    (h2 :: B2)
  = Ok (PS false (Some n) (<[n := before ++ block1 ++ block2]> d)) ∧
  gather_text d (h1 :: B1 ++ Zs ++ h2 :: B2)
  = Ok (<[n := before ++ block1 ++ block2]> d) ∧
  join_blocks (<[n := before ++ block1 ++ block2]> d) [n]
  = Ok [foldr String.append EmptyString
          (before ++ strip_nul h1 :: B1 ++ map strip_nul Zs
           ++ strip_nul h2 :: B2)].
Proof.
  intros Hh1 HB1 HZs Hnul Hh2 HB2 before block1 block2.
  destruct (gather_two_blocks d n n h1 h2 B1 Zs B2 Hh1 HB1 HZs Hnul Hh2 HB2)
    as [H1 H2].
  assert (H2' :
    gather_lines (PS (existsb has_nul Zs) (Some n) (<[n := before ++ block1]> d))
      (h2 :: B2)
    = Ok (PS false (Some n) (<[n := before ++ block1 ++ block2]> d))).
  { etrans; [apply H2|]. rewrite lookup_insert_eq, insert_insert_eq.
    change (default [] (Some ?v)) with v. subst before block1 block2.
    by rewrite <- (app_assoc (default [] (d !! n))). }
  split; [intros l; apply contains_remove_char|].
  split; [intros l; apply remove_char_id|].
  split; [exact H1|]. split; [exact H2'|]. split.
  - unfold gather_text.
    change (h1 :: B1 ++ Zs ++ h2 :: B2) with ((h1 :: B1) ++ Zs ++ h2 :: B2).
    rewrite app_assoc, gather_lines_app.
    change ((h1 :: B1) ++ Zs) with (h1 :: B1 ++ Zs).
    rewrite H1. fold before block1. by rewrite H2'.
  - cbn [join_blocks]. rewrite lookup_insert_eq, join_empty_foldr.
    subst before block1 block2. do 4 f_equal.
    by rewrite <- app_comm_cons, <- app_assoc.
Qed.

Lemma C7_witness :
  gather_text ∅
    [">101" +:+ Py.nl; "AAA" +:+ Py.nl; "BBB" +:+ Sample.nul +:+ Py.nl;
     ">101" +:+ Py.nl; "CCC" +:+ Py.nl]
  = Ok {[ 101 := [">101" +:+ Py.nl; "AAA" +:+ Py.nl; "BBB" +:+ Py.nl;
                  ">101" +:+ Py.nl; "CCC" +:+ Py.nl] ]}.
Proof.
  refine (proj1 (proj2 (proj2 (proj2 (proj2
    (C7_repeated_header_appends ∅ 101 (">101" +:+ Py.nl) (">101" +:+ Py.nl)
       ["AAA" +:+ Py.nl] ["BBB" +:+ Sample.nul +:+ Py.nl] ["CCC" +:+ Py.nl]
       _ _ _ _ _ _)))))).
  - split; vm_compute; reflexivity.
  - apply Forall_cons_2; [|apply Forall_nil_2].
    split; [discriminate | vm_compute; reflexivity].
  - apply Forall_cons_2; [|apply Forall_nil_2].
    split; [discriminate | vm_compute; reflexivity].
  - left. vm_compute. reflexivity.
  - split; vm_compute; reflexivity.
  - apply Forall_cons_2; [|apply Forall_nil_2].
    split; [discriminate | vm_compute; reflexivity].
Defined.

(** ** Results in batch order *)

Lemma join_blocks_Ok (d : gmap Z (list string)) (ms : list Z) (out : list string) :
  join_blocks d ms = Ok out →
  length out = length ms ∧
  ∀ i n, ms !! i = Some n →
         ∃ ls, d !! n = Some ls ∧ out !! i = Some (Py.join EmptyString ls).
Proof.
  revert out. induction ms as [|n ms IH]; intros out; simpl.
  - intros [= <-]. split; [done|]. intros i n. by rewrite lookup_nil.
  - destruct (d !! n) as [ls|] eqn:Hn; [|done].
    destruct (join_blocks d ms) as [out'| |]; [|done|done].
    intros [= <-]. destruct (IH out' eq_refl) as [Hlen Hall].
    split; [simpl; by rewrite Hlen|].
    intros [|i] k; simpl.
    + intros [= <-]. eauto.
    + apply Hall.
Qed.

(** The comprehension of line 181 succeeds when every identifier has a
    block. *)
Lemma join_blocks_total (d : gmap Z (list string)) (ms : list Z) :
  (∀ n, n ∈ ms → is_Some (d !! n)) → ∃ out, join_blocks d ms = Ok out.
Proof.
  induction ms as [|n ms IH]; intros Hall; simpl; [eauto|].
  destruct (Hall n) as [ls ->]; [left|].
  destruct IH as [out ->]; [intros k Hk; apply Hall; by right|]. eauto.
Qed.

Lemma read_lines_inv p s ls s' :
  Os.read_lines p s = (Ok ls, s') →
  s' = s ∧ ∃ t, files (fs s) !! p = Some (Text t) ∧ ls = Py.readlines t.
Proof.
  unfold Os.read_lines. destruct (files (fs s) !! p) as [[t|?]|]; [|done|done].
  intros [= <- <-]. eauto.
Qed.

Lemma gather_file_inv d f s d' s' :
  gather_file d f s = (Ok d', s') → s' = s.
Proof.
  unfold gather_file. intros H. apply bind_Ok_inv in H as (ls & s1 & Hr & Hl).
  apply read_lines_inv in Hr as [-> _]. unfold lift in Hl. congruence.
Qed.

Lemma gather_files_inv fl d s d' s' :
  for_fold fl gather_file d s = (Ok d', s') → s' = s.
Proof.
  revert d s. induction fl as [|f fl IH]; intros d s; simpl.
  - by intros [= _ <-].
  - intros H. apply bind_Ok_inv in H as (d1 & s1 & Hg & Hrest).
    apply gather_file_inv in Hg as ->. by apply IH in Hrest.
Qed.

(** A returned run went through every stage. *)
Lemma run_mmseqs_Ok_inv a w v s :
  run_mmseqs a w = (Ok v, s) →
  ∃ ms s0 s1,
    Ms (seqs a) = Ok ms ∧
    make_path a (init w) = (Ok tt, s0) ∧
    files (fs0 w) !! tar_gz_file a = None ∧
    fetch_a3m a w (setup_mode a) (seqs_unique (seqs a)) s0 = (Ok tt, s1) ∧
    assemble a (setup_mode a) ms s1 = (Ok v, s).
Proof.
  intros Hrun.
  destruct (make_path a (init w)) as [[[]|e|] s0] eqn:Hmk.
  - destruct (run_mmseqs_unfold a w s0 Hmk) as (ms & Hms & Heq).
    rewrite Heq in Hrun. case_bool_decide as Hex; [done|].
    apply bind_Ok_inv in Hrun as ([] & s1 & Hfetch & Hasm).
    exists ms, s0, s1. repeat split; try done.
    by apply eq_None_not_Some.
  - unfold run_mmseqs, run_mmseqs_body in Hrun.
    by rewrite (bind_Raise _ _ _ _ _ Hmk) in Hrun.
  - unfold run_mmseqs, run_mmseqs_body, bind in Hrun. by rewrite Hmk in Hrun.
Qed.

Lemma assemble_Ok_inv a su ms s v s' :
  assemble a su ms s = (Ok v, s') →
  s_use_templates su = true ∧
  ∃ t tp lines out,
    read_templates (prefix a) s = (Ok t, s) ∧
    for_fold t (fetch_template a su) ∅ s = (Ok tp, s') ∧
    for_fold (a3m_files a su) gather_file ∅ s' = (Ok lines, s') ∧
    join_blocks lines ms = Ok out ∧
    v = AlignmentsAndTemplates out (template_paths_ tp ms).
Proof.
  unfold assemble. destruct (s_use_templates su) eqn:Ht.
  - intros H. split; [done|].
    apply bind_Ok_inv in H as (ot & s1 & Hread & H).
    apply bind_Ok_inv in Hread as (t & s2 & Hread & Hret).
    injection Hret as <- <-.
    assert (s2 = s) as ->.
    { unfold read_templates in Hread.
      apply bind_Ok_inv in Hread as (ls & s3 & Hr & Hl).
      apply read_lines_inv in Hr as [-> _]. unfold lift in Hl. congruence. }
    apply bind_Ok_inv in H as (tp & s3 & Hfetch & H).
    apply bind_Ok_inv in H as (lines & s4 & Hgather & H).
    pose proof (gather_files_inv _ _ _ _ _ Hgather) as ->.
    apply bind_Ok_inv in H as (out & s5 & Hjoin & H).
    unfold lift in Hjoin. injection Hjoin as Hjoin <-.
    injection H as <- <-.
    exists t, tp, lines, out. done.
  - intros H. apply bind_Ok_inv in H as (ot & s1 & Hret & H).
    injection Hret as <- <-. by apply bind_Ok_inv in H as (? & ? & ? & _).
Qed.

(** C2. Whenever the run returns, the alignment list has one entry per
    batch index; the entry at an index is the concatenated text of the
    block that the alignment files hold under the identifier [Ms] gives to
    that index; and two indices that hold the same sequence hold the same
    entry. *)
Theorem C2_duplicates_share_alignment (a : args) (w : world) (v : retval) :
  fst (run_mmseqs a w) = Ok v →
  ∃ (ms : list Z) (blocks : gmap Z (list string)),
    Ms (seqs a) = Ok ms ∧
    for_fold (a3m_files a (setup_mode a)) gather_file ∅ (snd (run_mmseqs a w))
    = (Ok blocks, snd (run_mmseqs a w)) ∧
    length (alignments v) = length (seqs a) ∧
    (∀ i n, ms !! i = Some n →
            ∃ ls, blocks !! n = Some ls ∧
                  alignments v !! i = Some (Py.join EmptyString ls)) ∧
    (∀ i j s, seqs a !! i = Some s → seqs a !! j = Some s →
              alignments v !! i = alignments v !! j).
Proof.
  intros Hrun. destruct (run_mmseqs a w) as [r sf] eqn:Hr. simpl in Hrun. subst r.
  apply run_mmseqs_Ok_inv in Hr as (ms & s0 & s1 & Hms & _ & _ & _ & Hasm).
  apply assemble_Ok_inv in Hasm
    as (_ & t & tp & lines & out & _ & _ & Hgather & Hjoin & ->).
  apply join_blocks_Ok in Hjoin as [Hlen Hall].
  destruct (Ms_total (seqs a)) as (ms' & Hms' & Hlen' & Hrank).
  rewrite Hms in Hms'. injection Hms' as <-.
  exists ms, lines. simpl.
  split; [done|]. split; [done|]. split; [congruence|]. split; [done|].
  intros i j sq Hi Hj.
  destruct (Hrank _ _ Hi) as (r & Hr & Hmi).
  destruct (Hrank _ _ Hj) as (r' & Hr' & Hmj).
  assert (r' = r) as -> by congruence.
  destruct (Hall _ _ Hmi) as (ls & Hls & ->).
  destruct (Hall _ _ Hmj) as (ls' & Hls' & ->). congruence.
Qed.

Lemma C2_witness :
  ∃ v, fst (run_mmseqs Sample.with_templates Sample.normal) = Ok v ∧
       alignments v !! 0%nat = alignments v !! 2%nat.
Proof.
  eexists. split; [vm_compute; reflexivity|].
  match goal with
  | |- alignments ?v !! _ = _ =>
      destruct (C2_duplicates_share_alignment Sample.with_templates Sample.normal v)
        as (ms & blocks & _ & _ & _ & _ & Hshare); [vm_compute; reflexivity|]
  end.
  apply (Hshare 0%nat 2%nat "SSS"); reflexivity.
Defined.

(** ** Template paths *)

Lemma dict_append_keys M pdb (d : list (Z * list string)) k :
  k ∈ (dict_append M pdb d).*1 → k = M ∨ k ∈ d.*1.
Proof.
  induction d as [|[k' v] d IH]; simpl.
  - intros ?%list_elem_of_singleton. by left.
  - destruct (decide (k' = M)) as [->|Hne]; simpl.
    + intros Hin. by right.
    + intros [->|Hin]%elem_of_cons.
      * right. left.
      * destruct (IH Hin) as [->|?]; [by left | right; by right].
Qed.

Lemma read_hit_Ok t line t' :
  read_hit t line = Ok t' →
  ∃ M pdb, head (Py.split (Py.rstrip line)) ≫= Py.int = Some M ∧
           t' = dict_append M pdb t.
Proof.
  unfold read_hit.
  destruct (Py.split (Py.rstrip line)) as [|f0 p] eqn:Hp; [done|]. simpl.
  destruct (p !! 0%nat) as [pdb|]; [|done].
  destruct (p !! 1%nat); [|done]. destruct (p !! 9%nat); [|done].
  destruct (Py.int f0) as [M|] eqn:HM; [|done].
  intros [= <-]. eauto.
Qed.

(** Every key of [templates] is an identifier of the first column. *)
Lemma read_hits_keys t lines t' k :
  read_hits t lines = Ok t' → k ∈ t'.*1 →
  k ∈ t.*1 ∨ k ∈ omap (λ line, head (Py.split (Py.rstrip line)) ≫= Py.int) lines.
Proof.
  revert t. induction lines as [|line lines IH]; intros t; simpl.
  - intros [= <-]. by left.
  - destruct (read_hit t line) as [t1| |] eqn:Hhit; [|done|done].
    intros Hrest Hk. apply read_hit_Ok in Hhit as (M & pdb & HM & ->).
    rewrite HM. destruct (IH _ Hrest Hk) as [Hin|Hin].
    + apply dict_append_keys in Hin as [->|Hin]; [right; left | by left].
    + right. by right.
Qed.

Lemma fetch_template_Ok a su tp kv s tp' s' :
  fetch_template a su tp kv s = (Ok tp', s') →
  tp' = <[fst kv := TMPL_PATH a su (fst kv)]> tp ∧ files (fs s') = files (fs s).
Proof.
  unfold fetch_template. intros H.
  apply bind_Ok_inv in H as (d & s1 & Hd & H).
  injection Hd as <- <-.
  apply bind_Ok_inv in H as ([] & s2 & Hmk & H).
  injection H as <- <-. split; [done|].
  destruct (negb _); [|by injection Hmk as <-].
  apply bind_Ok_inv in Hmk as ([] & s3 & Hmk & H).
  apply bind_Ok_inv in H as ([] & s4 & H1 & H).
  apply bind_Ok_inv in H as ([] & s5 & H2 & H3).
  injection H1 as <-. injection H2 as <-. injection H3 as <-. simpl.
  apply mkdir_Ok in Hmk as (f & Hf & ->). simpl.
  by apply fs_mkdir_files in Hf.
Qed.

Lemma fetch_templates_Ok a su t tp s tp' s' :
  for_fold t (fetch_template a su) tp s = (Ok tp', s') →
  files (fs s') = files (fs s) ∧
  ∀ k p, tp' !! k = Some p →
         tp !! k = Some p ∨ (k ∈ t.*1 ∧ p = TMPL_PATH a su k).
Proof.
  revert tp s. induction t as [|kv t IH]; intros tp s; simpl.
  - intros [= <- <-]. split; [done|]. intros k p. by left.
  - intros H. apply bind_Ok_inv in H as (tp1 & s1 & Hf & H).
    apply fetch_template_Ok in Hf as [-> Hfs].
    apply IH in H as [Hfs' Hdom]. split; [congruence|].
    intros k p Hk. destruct (Hdom k p Hk) as [Hin|[Hin ->]].
    + destruct (decide (fst kv = k)) as [<-|Hne].
      * rewrite lookup_insert_eq in Hin. injection Hin as <-.
        right. split; [left | done].
      * rewrite lookup_insert_ne in Hin by done. by left.
    + right. split; [by right | done].
Qed.

Lemma template_paths_lookup (tp : gmap Z string) (ms : list Z) i n :
  ms !! i = Some n → template_paths_ tp ms !! i = Some (tp !! n).
Proof.
  intros Hi. unfold template_paths_. rewrite list_lookup_fmap, Hi. simpl.
  case_bool_decide as Hs; [done|]. f_equal. symmetry. by apply eq_None_not_Some.
Qed.

(** C8. A run that returns with templates requested returns, next to the
    alignments, one template entry per batch index.  The entry of an index
    whose identifier is not in the first column of [pdb70.m8] is [None];
    an entry that is a path is the template directory of that identifier,
    which then is in the first column. *)
Theorem C8_absent_template_is_None (a : args) (w : world) (v : retval) :
  fst (run_mmseqs a w) = Ok v →
  s_use_templates (setup_mode a) = true ∧
  ∃ (al : list string) (tp : list (option string)) (ms : list Z) (hits : string),
    v = AlignmentsAndTemplates al tp ∧
    Ms (seqs a) = Ok ms ∧
    length tp = length (seqs a) ∧
    files (fs (snd (run_mmseqs a w))) !! (prefix a +:+ "/pdb70.m8")
    = Some (Text hits) ∧
    (∀ i n, ms !! i = Some n → n ∉ hit_ids hits → tp !! i = Some None) ∧
    (∀ i n p, ms !! i = Some n → tp !! i = Some (Some p) →
              n ∈ hit_ids hits ∧ p = TMPL_PATH a (setup_mode a) n).
Proof.
  intros Hrun. destruct (run_mmseqs a w) as [r sf] eqn:Hr. simpl in Hrun. subst r.
  apply run_mmseqs_Ok_inv in Hr as (ms & s0 & s1 & Hms & _ & _ & _ & Hasm).
  apply assemble_Ok_inv in Hasm
    as (Hut & t & tp & lines & out & Hread & Hfetch & _ & Hjoin & ->).
  split; [done|].
  unfold read_templates in Hread.
  apply bind_Ok_inv in Hread as (ls & s2 & Hr & Hl).
  apply read_lines_inv in Hr as (-> & hits & Hfile & ->).
  unfold lift in Hl. injection Hl as Hhits.
  apply fetch_templates_Ok in Hfetch as [Hfs Hdom].
  destruct (Ms_total (seqs a)) as (ms' & Hms' & Hlen' & _).
  rewrite Hms in Hms'. injection Hms' as <-.
  exists out, (template_paths_ tp ms), ms, hits.
  split; [done|]. split; [done|]. split.
  { unfold template_paths_. by rewrite length_map. }
  simpl. split; [by rewrite Hfs|].
  assert (Hkey : ∀ n p, tp !! n = Some p →
                        n ∈ hit_ids hits ∧ p = TMPL_PATH a (setup_mode a) n).
  { intros n p Hn. destruct (Hdom n p Hn) as [Hemp|[Hin ->]].
    - by rewrite lookup_empty in Hemp.
    - split; [|done].
      destruct (read_hits_keys _ _ _ _ Hhits Hin) as [Hnil|?]; [|done].
      by apply elem_of_nil in Hnil. }
  split.
  - intros i n Hi Hnot. rewrite (template_paths_lookup tp ms i n Hi). f_equal.
    destruct (tp !! n) as [p|] eqn:Hn; [|done].
    destruct (Hkey n p Hn) as [Hin _]. done.
  - intros i n p Hi. rewrite (template_paths_lookup tp ms i n Hi).
    intros [= Hn]. by apply Hkey.
Qed.

Lemma C8_witness :
  ∃ al tp,
    fst (run_mmseqs Sample.with_templates Sample.normal)
    = Ok (AlignmentsAndTemplates al tp) ∧
    tp = [Some "out_env/templates_101"; None; Some "out_env/templates_101"].
Proof.
  destruct (C8_absent_template_is_None Sample.with_templates Sample.normal
              (match fst (run_mmseqs Sample.with_templates Sample.normal) with
               | Ok v => v
               | _ => Alignments []
               end))
    as (_ & al & tp & ms & hits & Hv & _).
  { vm_compute. reflexivity. }
  exists al, tp. vm_compute in Hv. injection Hv as <- <-.
  split; vm_compute; reflexivity.
Defined.


(** * Further properties of the code *)

(** ** Lines of a file *)

Lemma append_cons c (s t : string) : String c s +:+ t = String c (s +:+ t).
Proof. done. Qed.

Lemma readlines_facts (t : string) :
  Py.join EmptyString (Py.readlines t) = t ∧
  Forall (λ line, line ≠ EmptyString) (Py.readlines t) ∧
  Forall (λ line, ∀ pre post, line = pre +:+ String Py.LF post → post = EmptyString)
    (Py.readlines t).
Proof.
  induction t as [|c r (IHj & IHn & IHl)]; simpl.
  { split; [done|]. split; constructor. }
  destruct (Ascii.eqb c Py.LF) eqn:Ec.
  - split; [|split].
    + rewrite join_empty_cons, IHj. done.
    + by constructor.
    + constructor; [|done]. intros [|d pre] post; [by intros [= _ <-]|].
      intros [= _ Hpre]. by destruct pre.
  - apply Ascii.eqb_neq in Ec.
    destruct (Py.readlines r) as [|l ls] eqn:Hr.
    + simpl in IHj. subst r. split; [done|]. split.
      * by repeat constructor.
      * constructor; [|done]. intros [|d pre] post; [by intros [= -> _]|].
        intros [= _ Hpre]. by destruct pre.
    + rewrite join_empty_cons in IHj. rewrite join_empty_cons, append_cons, IHj.
      split; [done|]. split.
      * constructor; [done|]. by inversion IHn.
      * inversion IHl as [|? ? Hl Hls]; subst. constructor; [|done].
        intros [|d pre] post; [by intros [= -> _]|].
        intros [= <- Hpre]. by apply (Hl pre).
Qed.

(** X19. Iterating over a file loses nothing: the lines, put end to end,
    are the text; no line is empty, so the test [len(line) > 0] of line
    170 never fails; and a line feed can only be the last character of a
    line. *)
Theorem readlines_round_trip (t : string) :
  Py.join EmptyString (Py.readlines t) = t ∧
  Forall (λ line, line ≠ EmptyString) (Py.readlines t) ∧
  Forall (λ line, ∀ pre post, line = pre +:+ String Py.LF post → post = EmptyString)
    (Py.readlines t).
Proof. apply readlines_facts. Qed.

(** ** Identifiers written and read back *)

Lemma pretty_N_char_digit (x : BinNums.N) :
  (x < 10)%N →
  Py.isdigit (pretty_N_char x) = true ∧ Py.digit_val (pretty_N_char x) = Z.of_N x.
Proof.
  intros Hx.
  assert (x = 0 ∨ x = 1 ∨ x = 2 ∨ x = 3 ∨ x = 4 ∨ x = 5 ∨ x = 6 ∨ x = 7
          ∨ x = 8 ∨ x = 9)%N as Hcases by lia.
  repeat (destruct Hcases as [-> | Hcases]; [by vm_compute|]).
  subst x. by vm_compute.
Qed.

Lemma isdigit_nonspace c : Py.isdigit c = true → nonspace c = true.
Proof.
  unfold Py.isdigit, nonspace, Py.isspace.
  destruct c as [[] [] [] [] [] [] [] []]; simpl; done.
Qed.

(** The digits of [x] in front of [s], read back on top of [acc]. *)
Lemma int_digits_pretty_go (x : BinNums.N) (s : string) :
  (0 < x)%N →
  ∃ k, ∀ acc b,
    Py.int_digits acc b (pretty_N_go x s) = Py.int_digits (acc * k + Z.of_N x) true s.
Proof.
  revert s. induction (N.lt_wf_0 x) as [x _ IH]; intros s Hx.
  rewrite pretty_N_go_step by done.
  destruct (pretty_N_char_digit (x `mod` 10)) as [Hd Hv]; [by apply N.mod_lt|].
  pose proof (N.div_mod x 10 ltac:(done)) as Hdm.
  destruct (decide (x `div` 10 = 0)%N) as [Hq|Hq].
  - rewrite Hq, pretty_N_go_0. exists 10. intros acc b.
    cbn [Py.int_digits]. rewrite Hd, Hv. f_equal.
    rewrite Hq in Hdm. rewrite N.mul_0_r, N.add_0_l in Hdm. rewrite <- Hdm. lia.
  - destruct (IH (x `div` 10)%N) with (s := String (pretty_N_char (x `mod` 10)) s)
      as [k Hk]; [apply N.div_lt; lia | by apply N.neq_0_lt_0 |].
    exists (10 * k). intros acc b. rewrite Hk.
    cbn [Py.int_digits]. rewrite Hd, Hv. f_equal.
    assert (Z.of_N x = 10 * Z.of_N (x `div` 10) + Z.of_N (x `mod` 10)) as ->.
    { rewrite Hdm at 1. by rewrite N2Z.inj_add, N2Z.inj_mul. }
    lia.
Qed.

Lemma pretty_N_go_digits (x : BinNums.N) (s : string) :
  str_forall Py.isdigit s = true → str_forall Py.isdigit (pretty_N_go x s) = true.
Proof.
  revert s. induction (N.lt_wf_0 x) as [x _ IH]; intros s Hs.
  destruct (decide (x = 0)%N) as [->|Hx]; [by rewrite pretty_N_go_0|].
  rewrite pretty_N_go_step by lia. apply IH; [apply N.div_lt; lia|].
  simpl. rewrite Hs, andb_true_r.
  by apply pretty_N_char_digit, N.mod_lt.
Qed.

Lemma pretty_N_go_nonempty (x : BinNums.N) (s : string) :
  (0 < x)%N → pretty_N_go x s ≠ EmptyString.
Proof.
  revert s. induction (N.lt_wf_0 x) as [x _ IH]; intros s Hx.
  rewrite pretty_N_go_step by done.
  destruct (decide (x `div` 10 = 0)%N) as [Hq|Hq].
  - by rewrite Hq, pretty_N_go_0.
  - apply IH; [apply N.div_lt; lia | by apply N.neq_0_lt_0].
Qed.

Lemma str_forall_impl (P Q : ascii → bool) s :
  (∀ c, P c = true → Q c = true) → str_forall P s = true → str_forall Q s = true.
Proof.
  intros HPQ. induction s as [|c r IH]; simpl; [done|].
  intros [Hc Hr]%andb_prop. by rewrite (HPQ c Hc), IH.
Qed.

Lemma rstrip_nonspace s : str_forall nonspace s = true → Py.rstrip s = s.
Proof.
  induction s as [|c r IH]; simpl; [done|].
  intros [Hc Hr]%andb_prop. rewrite (IH Hr).
  unfold nonspace in Hc. apply negb_true_iff in Hc. rewrite Hc. by destruct r.
Qed.

(** The line feed that ends a header is stripped again. *)
Lemma rstrip_app_nl s : str_forall nonspace s = true → Py.rstrip (s +:+ Py.nl) = s.
Proof.
  induction s as [|c r IH]; [done|].
  rewrite append_cons. simpl. intros [Hc Hr]%andb_prop. rewrite (IH Hr).
  unfold nonspace in Hc. apply negb_true_iff in Hc. rewrite Hc. by destruct r.
Qed.

Lemma int_sign_digit c r :
  Py.isdigit c = true →
  match String c r with
  | String "-" r0 => Z.opp <$> Py.int_digits 0 false r0
  | String "+" r0 => Py.int_digits 0 false r0
  | r0 => Py.int_digits 0 false r0
  end = Py.int_digits 0 false (String c r).
Proof.
  destruct c as [[] [] [] [] [] [] [] []]; try discriminate; reflexivity.
Qed.

Lemma pretty_pos_digits (p : positive) :
  pretty (Zpos p) = pretty_N_go (Npos p) EmptyString.
Proof. done. Qed.

Lemma str_nonspace (n : Z) : str_forall nonspace (Py.str n) = true.
Proof.
  unfold Py.str.
  assert (Hd : ∀ p, str_forall nonspace (pretty_N_go (Npos p) EmptyString) = true).
  { intros p. apply (str_forall_impl Py.isdigit); [apply isdigit_nonspace|].
    by apply pretty_N_go_digits. }
  destruct n as [|p|p]; [done | apply Hd |].
  change (pretty (Zneg p)) with (String "-" (pretty_N_go (Npos p) EmptyString)).
  simpl. by rewrite Hd.
Qed.

(** The blanks of [int] are blanks of [str.isspace]. *)
Lemma int_space_isspace c : Py.int_space c = true → Py.isspace c = true.
Proof.
  unfold Py.int_space, Py.isspace.
  destruct c as [[] [] [] [] [] [] [] []]; simpl; done.
Qed.

Lemma nonspace_int_space c : nonspace c = true → Py.int_space c = false.
Proof.
  unfold nonspace. intros H%negb_true_iff.
  destruct (Py.int_space c) eqn:E; [|done].
  by rewrite (int_space_isspace c E) in H.
Qed.

Lemma int_rstrip_nonspace s : str_forall nonspace s = true → Py.int_rstrip s = s.
Proof.
  induction s as [|c r IH]; simpl; [done|].
  intros [Hc Hr]%andb_prop. rewrite (IH Hr).
  rewrite (nonspace_int_space c Hc). by destruct r.
Qed.

Lemma int_lstrip_nonspace s : str_forall nonspace s = true → Py.int_lstrip s = s.
Proof.
  destruct s as [|c r]; simpl; [done|].
  intros [Hc Hr]%andb_prop. by rewrite (nonspace_int_space c Hc).
Qed.

(** [int(str(n)) == n] *)
Lemma int_str (n : Z) : Py.int (Py.str n) = Some n.
Proof.
  unfold Py.int.
  rewrite (int_rstrip_nonspace _ (str_nonspace n)),
    (int_lstrip_nonspace _ (str_nonspace n)).
  unfold Py.str. destruct n as [|p|p]; [done | |].
  - rewrite pretty_pos_digits.
    destruct (pretty_N_go (Npos p) EmptyString) as [|c r] eqn:Hs.
    { by destruct (pretty_N_go_nonempty (Npos p) EmptyString). }
    pose proof (pretty_N_go_digits (Npos p) EmptyString eq_refl) as Hdig.
    rewrite Hs in Hdig. simpl in Hdig. apply andb_prop in Hdig as [Hc _].
    rewrite (int_sign_digit c r Hc), <- Hs.
    destruct (int_digits_pretty_go (Npos p) EmptyString) as [k ->]; [done|].
    simpl. f_equal.
  - change (pretty (Zneg p)) with (String "-" (pretty_N_go (Npos p) EmptyString)).
    destruct (int_digits_pretty_go (Npos p) EmptyString) as [k ->]; [done|].
    simpl. f_equal.
Qed.

Lemma contains_forall c (P : ascii → bool) s :
  P c = false → str_forall P s = true → Py.contains c s = false.
Proof.
  intros Hc. induction s as [|d r IH]; simpl; [done|].
  intros [Hd Hr]%andb_prop. destruct (Ascii.eqb c d) eqn:E; [|by apply IH].
  apply Ascii.eqb_eq in E as ->. congruence.
Qed.

Lemma str_no_nul (n : Z) : Py.contains Py.NUL (Py.str n) = false.
Proof.
  assert (Hd : ∀ p, Py.contains Py.NUL (pretty_N_go (Npos p) EmptyString) = false).
  { intros p. apply (contains_forall _ Py.isdigit); [done|].
    by apply pretty_N_go_digits. }
  unfold Py.str. destruct n as [|p|p]; [done | apply Hd |].
  change (pretty (Zneg p)) with (String "-" (pretty_N_go (Npos p) EmptyString)).
  simpl. apply Hd.
Qed.

Lemma contains_app c s t :
  Py.contains c (s +:+ t) = Py.contains c s || Py.contains c t.
Proof.
  induction s as [|d r IH]; [done|]. rewrite append_cons. simpl.
  by destruct (Ascii.eqb c d).
Qed.

(** X1. The decimal text [submit] writes for an identifier is read back
    by [int] as that identifier, and the header line [>n] followed by a
    line feed is, for the parser of the alignment files, a header for
    [n]: what goes out at line 24 comes back at line 175. *)
Theorem id_header_round_trip (n : Z) :
  Py.int (Py.str n) = Some n ∧
  header_for n (">" +:+ Py.str n +:+ Py.nl) ∧
  strip_nul (">" +:+ Py.str n +:+ Py.nl) = ">" +:+ Py.str n +:+ Py.nl.
Proof.
  assert (Hs : strip_nul (">" +:+ Py.str n +:+ Py.nl) = ">" +:+ Py.str n +:+ Py.nl).
  { apply remove_char_id. by rewrite !contains_app, str_no_nul. }
  split; [apply int_str|]. split; [|done].
  unfold header_for. rewrite Hs. split; [done|].
  change (Py.tail (">" +:+ Py.str n +:+ Py.nl)) with (Py.str n +:+ Py.nl).
  rewrite rstrip_app_nl by apply str_nonspace. apply int_str.
Qed.

Lemma readlines_line s rest :
  Py.contains Py.LF s = false →
  Py.readlines (s +:+ Py.nl +:+ rest) = (s +:+ Py.nl) :: Py.readlines rest.
Proof.
  induction s as [|c r IH]; [intros _; reflexivity|].
  rewrite !append_cons. cbn [Py.contains Py.readlines].
  destruct (Ascii.eqb Py.LF c) eqn:E; [done|]. intros Hr.
  rewrite Ascii.eqb_sym, E. by rewrite (IH Hr).
Qed.

Lemma str_no_lf (n : Z) : Py.contains Py.LF (Py.str n) = false.
Proof. apply (contains_forall _ nonspace); [done | apply str_nonspace]. Qed.

(** X2. When no sequence holds a line feed, the request body is, line by
    line, one header [>n], [>n+1], ... and one sequence line per unique
    sequence, in order. *)
Theorem query_lines (l : list string) (n : Z) :
  Forall (λ s, Py.contains Py.LF s = false) l →
  Py.readlines (query l n)
  = concat (imap (λ i s, [">" +:+ Py.str (n + Z.of_nat i) +:+ Py.nl; s +:+ Py.nl]) l).
Proof.
  intros Hl. revert n. induction Hl as [|s l Hs Hl IH]; intros n; [done|].
  rewrite query_cons. cbn [imap concat].
  change (">" +:+ Py.str n +:+ Py.nl +:+ s +:+ Py.nl +:+ query l (n + 1))
    with ((">" +:+ Py.str n) +:+ Py.nl +:+ s +:+ Py.nl +:+ query l (n + 1)).
  rewrite readlines_line.
  2:{ by rewrite contains_app, str_no_lf. }
  rewrite (readlines_line s) by done. rewrite IH.
  rewrite Z.add_0_r. cbn [app]. do 3 f_equal.
  apply imap_ext. intros i x _. unfold compose.
  by replace (n + Z.of_nat (S i)) with (n + 1 + Z.of_nat i) by lia.
Qed.

Lemma query_lines_witness :
  Py.readlines (query ["SSS"; "TTT"] 101)
  = [">101" +:+ Py.nl; "SSS" +:+ Py.nl; ">102" +:+ Py.nl; "TTT" +:+ Py.nl].
Proof.
  rewrite (query_lines ["SSS"; "TTT"] 101).
  - vm_compute. reflexivity.
  - repeat (apply Forall_cons_2; [vm_compute; reflexivity|]). apply Forall_nil_2.
Defined.

(** ** More on de-duplication *)

Lemma seqs_unique_NoDup_id (l : list string) : NoDup l → seqs_unique l = l.
Proof.
  induction l as [|x l IH] using rev_ind; [done|].
  intros [Hl [Hx _]]%NoDup_app. rewrite seqs_unique_snoc, (IH Hl).
  unfold dedup_step. rewrite decide_False; [done|].
  intros Hin. apply (Hx x Hin). left.
Qed.

(** X3. A batch without repeated sequences is submitted as it is, and
    its indices get the consecutive identifiers 101, 102, ... *)
Theorem Ms_of_distinct_batch (l : list string) :
  NoDup l →
  seqs_unique l = l ∧
  ∃ ms, Ms l = Ok ms ∧ length ms = length l ∧
        ∀ i, (i < length l)%nat → ms !! i = Some (101 + Z.of_nat i).
Proof.
  intros Hnd. split; [by apply seqs_unique_NoDup_id|].
  destruct (Ms_total l) as (ms & Hms & Hlen & Hall).
  exists ms. split; [done|]. split; [done|].
  intros i Hi. destruct (lookup_lt_is_Some_2 l i Hi) as [s Hs].
  destruct (Hall i s Hs) as (r & Hr & ->).
  rewrite (seqs_unique_NoDup_id l Hnd) in Hr.
  apply index_Some_lookup in Hr.
  by rewrite (NoDup_lookup l r i s Hnd Hr Hs).
Qed.

Lemma Ms_of_distinct_batch_witness :
  ∃ ms, Ms ["AAA"; "BBB"; "CCC"] = Ok ms ∧ ms !! 2%nat = Some 103.
Proof.
  destruct (Ms_of_distinct_batch ["AAA"; "BBB"; "CCC"]) as (_ & ms & Hms & _ & Hi).
  { apply (bool_decide_unpack _). vm_compute. exact I. }
  exists ms. split; [exact Hms|]. apply (Hi 2%nat). simpl. lia.
Defined.

(** X4. Identifiers are dense: each lies between 101 and 100 plus the
    number of unique sequences, and each number in that range is the
    identifier of some batch index. *)
Theorem Ms_dense (l : list string) (ms : list Z) :
  Ms l = Ok ms →
  (∀ m, m ∈ ms → 101 ≤ m < 101 + Z.of_nat (length (seqs_unique l))) ∧
  (∀ r, (r < length (seqs_unique l))%nat → 101 + Z.of_nat r ∈ ms).
Proof.
  intros Hms. destruct (Ms_total l) as (ms' & Hms' & Hlen & Hall).
  rewrite Hms in Hms'. injection Hms' as <-. split.
  - intros m [i Hi]%list_elem_of_lookup.
    destruct (lookup_lt_is_Some_2 l i) as [s Hs].
    { rewrite <- Hlen. by eapply lookup_lt_Some. }
    destruct (Hall i s Hs) as (r & Hr & Hm). rewrite Hi in Hm. injection Hm as ->.
    apply index_Some_lt in Hr. unfold N. lia.
  - intros r Hr. destruct (lookup_lt_is_Some_2 _ r Hr) as [s Hs].
    assert (Hin : s ∈ l).
    { apply seqs_unique_elem_of, list_elem_of_lookup. eauto. }
    apply list_elem_of_lookup in Hin as [i Hi].
    destruct (Hall i s Hi) as (r' & Hr' & Hm).
    apply index_Some_lookup in Hr'.
    rewrite (NoDup_lookup _ r r' s (seqs_unique_NoDup l) Hs Hr').
    apply list_elem_of_lookup. eauto.
Qed.

Lemma Ms_dense_witness :
  101 ≤ 102 < 101 + 2 ∧ 102 ∈ [101; 102; 101].
Proof.
  destruct (Ms_dense ["S"; "T"; "S"] [101; 102; 101] eq_refl) as [Hb Hd].
  split.
  - apply (Hb 102). right. left.
  - apply (Hd 1%nat). vm_compute. lia.
Defined.

(** X5. De-duplicating twice changes nothing, and the unique sequences
    are never more than the batch. *)
Theorem seqs_unique_idempotent (l : list string) :
  seqs_unique (seqs_unique l) = seqs_unique l ∧
  (length (seqs_unique l) ≤ length l)%nat.
Proof.
  split; [apply seqs_unique_NoDup_id, seqs_unique_NoDup|].
  apply submseteq_length, NoDup_submseteq; [apply seqs_unique_NoDup|].
  intros s. apply seqs_unique_elem_of.
Qed.


(** ** More on the submit / poll / download loop *)

Lemma retry_events_app w e d k1 k2 :
  retry_events w e d (k1 + k2)
  = retry_events w e d k1 ++ retry_events w e (d + k1) k2.
Proof.
  revert d. induction k1 as [|k1 IH]; intros d; simpl.
  - by rewrite Nat.add_0_r.
  - rewrite IH. by rewrite Nat.add_succ_r.
Qed.

(** Retried submissions in front of the replies: a sleep and a new
    submission each, then the loop goes on with what follows. *)
Lemma job_loop_retries_then w a mode uniq tar retries rs s :
  Forall retried retries →
  job_loop w a mode uniq tar (retries ++ rs) AtSubmit s
  = job_loop w a mode uniq tar rs AtSubmit
      (after_rounds w (EPost (submit_url a) (query uniq N) mode) (length retries) s).
Proof.
  intros Hre. revert s. induction Hre as [|x retries Hx Hre IH]; intros s.
  - unfold after_rounds. simpl. by rewrite Nat.add_0_r, app_nil_r, state_eta.
  - rewrite <- app_comm_cons. cbn [job_loop]. rewrite (retried_Resubmit _ Hx).
    unfold bind at 1, sleep_time. unfold bind at 1, sleep, tell.
    unfold bind at 1, submit_request, tell. rewrite IH.
    unfold after_rounds, emit. cbn [fs draws downloads trace length retry_events].
    rewrite <- !app_assoc. cbn [app]. by rewrite Nat.add_succ_r.
Qed.

(** Polls that keep the polling loop going: a sleep and a status request
    each. *)
Lemma job_loop_polls_then w a mode uniq tar ID polls rs s :
  Forall polling polls →
  job_loop w a mode uniq tar (polls ++ rs) (AtPoll ID) s
  = job_loop w a mode uniq tar rs (AtPoll ID)
      (after_rounds w (EGet (host_url a +:+ "/ticket/" +:+ ID)) (length polls) s).
Proof.
  intros Hp. revert s. induction Hp as [|x polls Hx Hp IH]; intros s.
  - unfold after_rounds. simpl. by rewrite Nat.add_0_r, app_nil_r, state_eta.
  - destruct (polling_Test ID x Hx) as (st & Hr & Hst).
    rewrite <- app_comm_cons, (job_loop_poll_step _ _ _ _ _ _ _ _ ID st) by done.
    rewrite IH. unfold after_rounds.
    cbn [fs draws downloads trace length retry_events].
    rewrite <- !app_assoc. cbn [app]. by rewrite Nat.add_succ_r.
Qed.

Lemma job_loop_ticket_then w a mode uniq tar ID st0 rs s :
  st0 = "RUNNING" ∨ st0 = "PENDING" →
  job_loop w a mode uniq tar (Json (Obj (Some st0) (Some ID)) :: rs) AtSubmit s
  = job_loop w a mode uniq tar rs (AtPoll ID)
      (after_rounds w (EGet (host_url a +:+ "/ticket/" +:+ ID)) 1 s).
Proof.
  intros Hst0. rewrite (job_loop_poll_step _ _ _ _ _ _ _ _ ID st0).
  - unfold after_rounds. simpl. by rewrite Nat.add_1_r.
  - by destruct Hst0 as [-> | ->].
  - unfold poll_statuses. destruct Hst0 as [-> | ->]; set_solver.
Qed.

Lemma after_rounds_add w e k1 k2 s :
  after_rounds w e k2 (after_rounds w e k1 s) = after_rounds w e (k1 + k2) s.
Proof.
  unfold after_rounds. cbn [fs draws downloads trace].
  by rewrite retry_events_app, Nat.add_assoc, app_assoc.
Qed.

(** X8. A poll that answers ERROR, or whose body is not JSON, ends the run
    with the "giving errors" exception: after the retried submissions and
    the polls before it, nothing is downloaded and nothing is submitted
    again; the file system is as it was. *)
Theorem poll_error_is_fatal w a mode uniq tar retries ID st0 polls r rest s :
  Forall retried retries →
  st0 = "RUNNING" ∨ st0 = "PENDING" →
  Forall polling polls →
  r = NotJson ∨ has_status "ERROR" r →
  job_loop w a mode uniq tar
    (retries ++ Json (Obj (Some st0) (Some ID)) :: polls ++ r :: rest) AtSubmit s
  = (Raise (Exception msg_errors),
     after_rounds w (EGet (host_url a +:+ "/ticket/" +:+ ID)) (S (length polls))
       (after_rounds w (EPost (submit_url a) (query uniq N) mode)
          (length retries) s)).
Proof.
  intros Hre Hst0 Hp Hr.
  rewrite job_loop_retries_then, job_loop_ticket_then, job_loop_polls_then by done.
  rewrite after_rounds_add. cbn [job_loop].
  assert (on_reply (AtPoll ID) r = Test ID "ERROR") as ->.
  { by destruct Hr as [-> | [i ->]]. }
  done.
Qed.

Lemma poll_error_is_fatal_witness :
  fst (job_loop Sample.normal Sample.with_templates "env" ["SSS"; "TTT"]
         "out/out.tar.gz"
         [Sample.ticket "PENDING"; Sample.status_only "RUNNING"; NotJson;
          Sample.status_only "COMPLETE"]
         AtSubmit (init Sample.normal))
  = Raise (Exception msg_errors).
Proof.
  refine (f_equal fst
            (poll_error_is_fatal Sample.normal Sample.with_templates "env"
               ["SSS"; "TTT"] "out/out.tar.gz" [] "T1" "PENDING"
               [Sample.status_only "RUNNING"] NotJson
               [Sample.status_only "COMPLETE"] (init Sample.normal) _ _ _ _)).
  - apply Forall_nil_2.
  - by right.
  - apply Forall_cons_2; [|apply Forall_nil_2]. right; left. by exists None.
  - by left.
Defined.

(** X6 and X7 at work: the replies of [Sample.normal] end the loop with one
    download; a poll that answers MAINTENANCE is followed by a download
    and a new submission. *)
Lemma job_loop_completes_witness :
  fst (job_loop Sample.normal Sample.with_templates "env" ["SSS"; "TTT"]
         "out/out.tar.gz" (replies Sample.normal) AtSubmit (init Sample.normal))
  = Ok tt.
Proof.
  refine (f_equal fst
            (job_loop_completes Sample.normal Sample.with_templates "env"
               ["SSS"; "TTT"] "out/out.tar.gz" [Sample.status_only "UNKNOWN"]
               "T1" "RUNNING" [Sample.status_only "RUNNING"]
               (Sample.status_only "COMPLETE") [] (init Sample.normal) _ _ _ _ _)).
  - apply Forall_cons_2; [|apply Forall_nil_2]. left. by exists None.
  - by left.
  - apply Forall_cons_2; [|apply Forall_nil_2]. right; left. by exists None.
  - by exists None.
  - vm_compute. reflexivity.
Defined.

Lemma job_loop_falls_through_witness :
  trace (snd (job_loop Sample.normal Sample.with_templates "env" ["SSS"; "TTT"]
                "out/out.tar.gz" [Sample.status_only "MAINTENANCE"] (AtPoll "T1")
                (init Sample.normal)))
  = [EDownload "https://a3m.mmseqs.com/result/download/T1" "out/out.tar.gz";
     EPost "https://a3m.mmseqs.com/ticket/msa" (query ["SSS"; "TTT"] 101) "env"].
Proof.
  refine (f_equal (λ r, trace (snd r))
            (job_loop_falls_through Sample.normal Sample.with_templates "env"
               ["SSS"; "TTT"] "out/out.tar.gz" (Sample.status_only "MAINTENANCE")
               [] (AtPoll "T1") "T1" "MAINTENANCE" (init Sample.normal) _ _ _ _ _)).
  - reflexivity.
  - unfold poll_statuses. intros H.
    repeat (apply elem_of_cons in H as [H|H]; [discriminate|]).
    by apply elem_of_nil in H.
  - discriminate.
  - discriminate.
  - vm_compute. reflexivity.
Defined.

(** X9. A reply that lacks a field the code indexes raises [KeyError]: a
    submission reply without [status]; a submission reply whose status is
    not UNKNOWN, RATELIMIT, ERROR or MAINTENANCE and that carries no [id];
    and, while polling, a status reply without [status]. *)
Theorem missing_field_raises_KeyError
    (a : args) (w : world) (s0 : state) (retries : list reply) (r : reply)
    (rest : list reply) :
  make_path a (init w) = (Ok tt, s0) →
  files (fs0 w) !! tar_gz_file a = None →
  replies w = retries ++ r :: rest →
  Forall retried retries →
  (∃ i, r = Json (Obj None i)) ∨
  (∃ st, r = Json (Obj (Some st) None) ∧
         (st ∉ ["UNKNOWN"; "RATELIMIT"]) ∧ st ≠ "ERROR" ∧ st ≠ "MAINTENANCE") →
  fst (run_mmseqs a w) = Raise KeyError ∧
  trace (snd (run_mmseqs a w))
  = trace s0 ++ the_post a :: retry_events w (the_post a) 0 (length retries) ∧
  (∀ mode uniq tar ID i rs s,
      job_loop w a mode uniq tar (Json (Obj None i) :: rs) (AtPoll ID) s
      = (Raise KeyError, s)).
Proof.
  intros Hmk Hno Hrs Hre Hr.
  assert (Hfail : on_reply AtSubmit r = Fail KeyError).
  { destruct Hr as [[i ->] | (st & -> & Hst & He & Hm)]; [done|].
    unfold on_reply. cbn [json_or_error o_status o_id].
    rewrite bool_decide_eq_false_2 by done.
    apply String.eqb_neq in He, Hm. by rewrite He, Hm. }
  rewrite (run_mmseqs_fatal a w s0 retries r rest KeyError Hmk Hno Hrs Hre Hfail).
  done.
Qed.

Lemma missing_field_raises_KeyError_witness :
  fst (run_mmseqs Sample.plain
         (Sample.server [Sample.status_only "UNKNOWN"; Sample.status_only "COMPLETE"]))
  = Raise KeyError.
Proof.
  refine (proj1 (missing_field_raises_KeyError Sample.plain
                   (Sample.server [Sample.status_only "UNKNOWN";
                                   Sample.status_only "COMPLETE"])
                   (init Sample.normal) [Sample.status_only "UNKNOWN"]
                   (Sample.status_only "COMPLETE") [] _ eq_refl eq_refl _ _)).
  - vm_compute. reflexivity.
  - apply Forall_cons_2; [|apply Forall_nil_2]. left. by exists None.
  - right. exists "COMPLETE". split; [done|]. split; [|split; discriminate].
    intros H. repeat (apply elem_of_cons in H as [H|H]; [discriminate|]).
    by apply elem_of_nil in H.
Defined.

(** ** Paths *)

Lemma parts_nonempty p : Os.parts p ≠ [].
Proof. induction p as [|c r IH]; simpl; [done|]. by repeat case_match. Qed.

Lemma join_cons2 sep x y l :
  Py.join sep (x :: y :: l) = x +:+ sep +:+ Py.join sep (y :: l).
Proof. done. Qed.

Lemma join_parts p : Py.join "/" (Os.parts p) = p.
Proof.
  induction p as [|c r IH]; [done|]. cbn [Os.parts].
  destruct (Os.parts r) as [|x xs] eqn:Hr; [by destruct (parts_nonempty r)|].
  destruct (Ascii.eqb c "/") eqn:Ec.
  - apply Ascii.eqb_eq in Ec as ->. by rewrite join_cons2, IH.
  - rewrite <- IH. destruct xs; done.
Qed.

Lemma parts_app_slash A B : Os.parts (A +:+ "/" +:+ B) = Os.parts A ++ Os.parts B.
Proof.
  induction A as [|c A IH]; [done|].
  change (String c A +:+ "/" +:+ B) with (String c (A +:+ "/" +:+ B)).
  cbn [Os.parts]. rewrite IH.
  destruct (Os.parts A) as [|x xs] eqn:HA; [by destruct (parts_nonempty A)|].
  by destruct (Ascii.eqb c "/").
Qed.

Lemma parts_no_slash T : Py.contains "/" T = false → Os.parts T = [T].
Proof.
  induction T as [|c T IH]; [done|]. cbn [Py.contains Os.parts].
  rewrite Ascii.eqb_sym. destruct (Ascii.eqb c "/"); [done|].
  intros H. by rewrite IH.
Qed.

Lemma head_slash_app (X T : string) :
  Py.contains "/" T = false → Os.head_slash (X +:+ "/" +:+ T) = X +:+ "/".
Proof.
  intros HT. induction X as [|c r IH].
  - change (EmptyString +:+ "/" +:+ T) with (String "/" T).
    cbn [Os.head_slash]. by rewrite HT.
  - rewrite (append_cons c r ("/" +:+ T)), (append_cons c r "/").
    cbn [Os.head_slash].
    assert (Hc : Py.contains "/" (r +:+ "/" +:+ T) = true).
    { rewrite !contains_app. apply orb_true_iff. by right. }
    by rewrite Hc, IH.
Qed.

Lemma all_slashes_app (A B : string) :
  Os.all_slashes (A +:+ B) = Os.all_slashes A && Os.all_slashes B.
Proof.
  induction A as [|c r IH]; [done|]. rewrite append_cons. simpl.
  by rewrite IH, andb_assoc.
Qed.

Lemma rstrip_slash_app (A B : string) :
  B ≠ EmptyString → Os.rstrip_slash B = B → Os.rstrip_slash (A +:+ B) = A +:+ B.
Proof.
  intros HB HsB. induction A as [|c r IH]; [done|].
  rewrite append_cons. cbn [Os.rstrip_slash]. rewrite IH.
  destruct (r +:+ B) eqn:E; [|done]. destruct r; [done | discriminate].
Qed.

Lemma rstrip_slash_snoc (X : string) :
  Os.rstrip_slash (X +:+ "/") = Os.rstrip_slash X.
Proof.
  induction X as [|c r IH]; [done|].
  rewrite append_cons. cbn [Os.rstrip_slash]. by rewrite IH.
Qed.

Lemma absolute_true p c cs : Os.parts p = EmptyString :: c :: cs → Os.absolute p = true.
Proof.
  destruct p as [|d r]; [done|]. unfold Os.absolute. cbn [Py.startswith Os.parts].
  rewrite (Ascii.eqb_sym "/" d).
  destruct (Ascii.eqb d "/"); [done|]. destruct (Os.parts r); discriminate.
Qed.

Lemma absolute_false p c cs :
  Os.parts p = c :: cs → c ≠ EmptyString → Os.absolute p = false.
Proof.
  destruct p as [|d r]; [done|]. unfold Os.absolute. cbn [Py.startswith Os.parts].
  rewrite (Ascii.eqb_sym "/" d).
  destruct (Ascii.eqb d "/"); [by intros [= <- _]|done].
Qed.

(** A name is no climbing step. *)
Lemma above_name c st : Os.name c = true → Os.above (c :: st) = false.
Proof.
  intros H. unfold Os.above. cbn [forallb].
  destruct (String.eqb ".." c) eqn:E; [|done].
  apply String.eqb_eq in E as <-. discriminate.
Qed.

Lemma step_name f abs st c :
  Os.name c = true →
  Os.step f abs st c
  = if bool_decide (Os.key abs (c :: st) ∈ dirs f) then inr (c :: st)
    else if bool_decide (is_Some (files f !! Os.key abs (c :: st))) then inl Os.NotDir
    else inl Os.Missing.
Proof.
  intros Hn. unfold Os.step, Os.dir_at, Os.file_at.
  rewrite (above_name c st Hn). unfold Os.name in Hn.
  apply andb_prop in Hn as [[H1 H2]%andb_prop H3].
  apply negb_true_iff in H1, H2, H3. by rewrite H1, H2, H3.
Qed.

(** Walking down names through directories that are all there. *)
Lemma walk_dirs f abs st ns :
  forallb Os.name ns = true →
  Forall (λ d, d ∈ dirs f) (Os.climb abs st ns) →
  Os.walk f abs st ns = inr (reverse ns ++ st).
Proof.
  revert st. induction ns as [|n ns IH]; intros st; [done|].
  cbn [forallb Os.climb Os.walk]. intros [Hn Hns]%andb_prop Hd.
  apply Forall_cons in Hd as [Hd Hds].
  rewrite (step_name f abs st n Hn), (bool_decide_eq_true_2 _ Hd).
  rewrite (IH _ Hns Hds), reverse_cons, <- app_assoc. done.
Qed.

(** The first directory that is missing stops the walk. *)
Lemma walk_blocked f abs st ns ds d rest :
  forallb Os.name ns = true →
  Os.climb abs st ns = ds ++ d :: rest →
  Forall (λ d, d ∈ dirs f) ds →
  d ∉ dirs f →
  Os.walk f abs st ns
  = inl (if bool_decide (is_Some (files f !! d)) then Os.NotDir else Os.Missing).
Proof.
  revert st ds. induction ns as [|n ns IH]; intros st ds; [by destruct ds|].
  cbn [forallb Os.climb Os.walk]. intros [Hn Hns]%andb_prop Hc Hds Hd.
  rewrite (step_name f abs st n Hn).
  destruct ds as [|d0 ds]; simpl in Hc; injection Hc as Hk Hc.
  - rewrite Hk, (bool_decide_eq_false_2 _ Hd). by case_bool_decide.
  - apply Forall_cons in Hds as [Hd0 Hds].
    rewrite Hk, (bool_decide_eq_true_2 _ Hd0). by apply (IH _ ds).
Qed.

Lemma filter_names cs :
  forallb Os.name cs = true → base.filter (λ c, c ≠ EmptyString) cs = cs.
Proof.
  induction cs as [|c cs IH]; [done|]. cbn [forallb].
  intros [Hc Hcs]%andb_prop. rewrite filter_cons_True; [by rewrite IH|].
  intros ->. discriminate.
Qed.

Lemma name_nonempty c : Os.name c = true → c ≠ EmptyString.
Proof. intros H ->. discriminate. Qed.

(** What a path in normal form is made of. *)
Lemma normal_parts p :
  Os.normal p = true →
  Py.contains Py.NUL p = false ∧ p ≠ EmptyString ∧
  ∃ ns n,
    base.filter (λ c, c ≠ EmptyString) (Os.parts p) = ns ++ [n] ∧
    forallb Os.name ns = true ∧ Os.name n = true ∧
    Os.key (Os.absolute p) (n :: reverse ns) = p ∧
    last (Os.parts p) = Some n.
Proof.
  unfold Os.normal. intros [Hnul Hp]%andb_prop. apply negb_true_iff in Hnul.
  split; [done|]. split; [by intros ->|].
  assert (Hsplit : ∀ cs : list string, cs ≠ [] → ∃ ns n, cs = ns ++ [n]).
  { intros cs Hcs. exists (removelast cs), (List.last cs EmptyString).
    by apply app_removelast_last. }
  assert (Hnames : ∀ cs, cs ≠ [] → forallb Os.name cs = true →
            ∃ ns n, cs = ns ++ [n] ∧ forallb Os.name ns = true ∧ Os.name n = true).
  { intros cs Hcs Hall. destruct (Hsplit cs Hcs) as (ns & n & ->).
    exists ns, n. rewrite forallb_app in Hall. cbn [forallb] in Hall.
    apply andb_prop in Hall as [? [? _]%andb_prop]. done. }
  pose proof (join_parts p) as Hj.
  destruct (Os.parts p) as [|c0 cs] eqn:Hparts; [by destruct (parts_nonempty p)|].
  destruct (decide (c0 = EmptyString)) as [->|Hc0].
  - destruct cs as [|c cs]; [discriminate|].
    destruct (Hnames (c :: cs)) as (ns & n & Heq & Hns & Hn); [done|done|].
    exists ns, n. rewrite (absolute_true p c cs Hparts).
    rewrite filter_cons_False by (intros H; by apply H).
    rewrite (filter_names _ Hp). split; [done|]. split; [done|]. split; [done|].
    split.
    + unfold Os.key. rewrite reverse_cons, reverse_involutive, <- Heq.
      by rewrite join_cons2 in Hj.
    + change (EmptyString :: c :: cs) with ([EmptyString] ++ (c :: cs)).
      by rewrite Heq, app_assoc, last_snoc.
  - assert (Hall : forallb Os.name (c0 :: cs) = true).
    { destruct c0; [done|]. exact Hp. }
    destruct (Hnames (c0 :: cs)) as (ns & n & Heq & Hns & Hn); [done|done|].
    exists ns, n. rewrite (absolute_false p c0 cs Hparts Hc0).
    rewrite (filter_names _ Hall). split; [done|]. split; [done|]. split; [done|].
    split.
    + unfold Os.key. rewrite reverse_cons, reverse_involutive, <- Heq. exact Hj.
    + by rewrite Heq, last_snoc.
Qed.

(** A path in normal form leads to its last name, unless a directory on
    the way is not there. *)
Lemma resolve_normal f p :
  Os.normal p = true →
  ∃ ns n,
    Os.ancestors p = Os.climb (Os.absolute p) [] ns ∧
    forallb Os.name ns = true ∧ Os.name n = true ∧
    Os.key (Os.absolute p) (n :: reverse ns) = p ∧
    Os.resolve f p
    = match Os.walk f (Os.absolute p) [] ns with
      | inl b => Os.Blocked b
      | inr st => Os.Entry (n :: st)
      end.
Proof.
  intros Hp. destruct (normal_parts p Hp) as (_ & _ & ns & n & Hf & Hns & Hn & Hk & _).
  exists ns, n. unfold Os.ancestors, Os.resolve. rewrite Hf, removelast_last.
  repeat (split; [done|]).
  destruct (Os.walk _ _ _ _) as [b|st]; [done|]. rewrite last_snoc.
  unfold Os.name in Hn. apply andb_prop in Hn as [[_ H2]%andb_prop H3].
  apply negb_true_iff in H2, H3. by rewrite H2, H3.
Qed.

Lemma resolve_normal_dirs f p :
  Os.normal p = true →
  Forall (λ d, d ∈ dirs f) (Os.ancestors p) →
  ∃ st, Os.resolve f p = Os.Entry st ∧ Os.key (Os.absolute p) st = p
        ∧ Os.above st = false.
Proof.
  intros Hp Hd. destruct (resolve_normal f p Hp) as (ns & n & Ha & Hns & Hn & Hk & ->).
  rewrite Ha in Hd. rewrite (walk_dirs _ _ _ _ Hns Hd), app_nil_r.
  eexists. split; [done|]. split; [done|]. by apply above_name.
Qed.

Lemma resolve_normal_blocked f p ds d rest :
  Os.normal p = true →
  Os.ancestors p = ds ++ d :: rest →
  Forall (λ d, d ∈ dirs f) ds →
  d ∉ dirs f →
  Os.resolve f p
  = Os.Blocked (if bool_decide (is_Some (files f !! d)) then Os.NotDir
                else Os.Missing).
Proof.
  intros Hp Hanc Hds Hd.
  destruct (resolve_normal f p Hp) as (ns & n & Ha & Hns & Hn & Hk & ->).
  rewrite Ha in Hanc. by rewrite (walk_blocked _ _ _ _ _ _ _ Hns Hanc Hds Hd).
Qed.

Lemma normal_no_nul p : Os.normal p = true → Py.contains Py.NUL p = false.
Proof. intros H. by destruct (normal_parts p H). Qed.

Lemma normal_eqb_empty p : Os.normal p = true → String.eqb p EmptyString = false.
Proof. intros H. apply String.eqb_neq. by destruct (normal_parts p H) as (_ & ? & _). Qed.

(** [os.mkdir] on a path in normal form whose upper directories are
    there: the path must be free. *)
Lemma fs_mkdir_normal f p :
  Os.normal p = true →
  Forall (λ d, d ∈ dirs f) (Os.ancestors p) →
  Os.fs_mkdir f p
  = if bool_decide (p ∈ dirs f) || bool_decide (is_Some (files f !! p))
    then inl (FileExistsError p)
    else inr (MkFS (files f) ({[p]} ∪ dirs f)).
Proof.
  intros Hp Hd. unfold Os.fs_mkdir.
  rewrite (normal_no_nul p Hp), (normal_eqb_empty p Hp).
  destruct (resolve_normal_dirs f p Hp Hd) as (st & -> & Hk & Hab).
  unfold Os.dir_at, Os.file_at. by rewrite Hab, Hk.
Qed.

(** ... and when one of them is not: ENOTDIR if a file has its place,
    ENOENT otherwise. *)
Lemma fs_mkdir_blocked f p ds d rest :
  Os.normal p = true →
  Os.ancestors p = ds ++ d :: rest →
  Forall (λ d, d ∈ dirs f) ds →
  d ∉ dirs f →
  Os.fs_mkdir f p
  = inl (if bool_decide (is_Some (files f !! d)) then NotADirectoryError p
         else FileNotFoundError p).
Proof.
  intros Hp Hanc Hds Hd. unfold Os.fs_mkdir.
  rewrite (normal_no_nul p Hp), (normal_eqb_empty p Hp).
  rewrite (resolve_normal_blocked f p ds d rest Hp Hanc Hds Hd).
  by case_bool_decide.
Qed.

(** A trailing slash does not change where a path leads. *)
Lemma resolve_trailing f p :
  p ≠ EmptyString →
  Os.absolute (p +:+ "/") = Os.absolute p ∧ Os.resolve f (p +:+ "/") = Os.resolve f p.
Proof.
  intros Hp.
  assert (Ha : Os.absolute (p +:+ "/") = Os.absolute p) by by destruct p.
  split; [done|]. unfold Os.resolve. rewrite Ha.
  change (p +:+ "/") with (p +:+ "/" +:+ EmptyString).
  rewrite parts_app_slash, filter_app.
  change (Os.parts EmptyString) with [EmptyString].
  rewrite filter_cons_False by (intros H; by apply H).
  by rewrite filter_nil, app_nil_r.
Qed.

Lemma fs_mkdir_trailing f p :
  Os.normal p = true →
  Forall (λ d, d ∈ dirs f) (Os.ancestors p) →
  p ∉ dirs f → files f !! p = None →
  Os.fs_mkdir f (p +:+ "/") = inr (MkFS (files f) ({[p]} ∪ dirs f)).
Proof.
  intros Hp Hanc Hd Hf. unfold Os.fs_mkdir.
  destruct (normal_parts p Hp) as (Hnul & Hne & _).
  rewrite contains_app, Hnul. cbn [orb Py.contains].
  change (Ascii.eqb Py.NUL "/") with false. cbv iota.
  replace (String.eqb (p +:+ "/") EmptyString) with false by by destruct p.
  destruct (resolve_trailing f p Hne) as [-> ->].
  destruct (resolve_normal_dirs f p Hp Hanc) as (st & -> & Hk & Hab).
  unfold Os.dir_at, Os.file_at. rewrite Hab, Hk.
  rewrite (bool_decide_eq_false_2 _ Hd).
  rewrite bool_decide_eq_false_2 by (rewrite Hf; by intros [? ?]). done.
Qed.

(** X11. When the output directory is not there and cannot be made, the
    run raises what [os.mkdir] raises and has made no request:
    [FileNotFoundError] for the empty prefix, [ValueError] for a prefix
    with a NUL character and, for a prefix in normal form,
    [FileExistsError] when a file has its place, [NotADirectoryError]
    when the first directory above it that is not there is a file, and
    [FileNotFoundError] when nothing is there.  A slash at the end of the
    prefix is no obstacle: the directory is made under the name before
    it. *)
Theorem run_mmseqs_mkdir_fails (a : args) (w : world) :
  prefix a ∉ dirs (fs0 w) →
  (prefix a = EmptyString →
   run_mmseqs a w = (Raise (FileNotFoundError EmptyString), init w)) ∧
  (Py.contains Py.NUL (prefix a) = true →
   run_mmseqs a w = (Raise ValueError, init w)) ∧
  (Os.normal (prefix a) = true →
   Forall (λ d, d ∈ dirs (fs0 w)) (Os.ancestors (prefix a)) →
   is_Some (files (fs0 w) !! prefix a) →
   run_mmseqs a w = (Raise (FileExistsError (prefix a)), init w)) ∧
  (∀ ds d rest,
     Os.normal (prefix a) = true →
     Os.ancestors (prefix a) = ds ++ d :: rest →
     Forall (λ d, d ∈ dirs (fs0 w)) ds →
     d ∉ dirs (fs0 w) →
     run_mmseqs a w
     = (Raise (if bool_decide (is_Some (files (fs0 w) !! d))
               then NotADirectoryError (prefix a)
               else FileNotFoundError (prefix a)), init w)) ∧
  (∀ p,
     prefix a = p +:+ "/" →
     Os.normal p = true →
     Forall (λ d, d ∈ dirs (fs0 w)) (Os.ancestors p) →
     p ∉ dirs (fs0 w) → files (fs0 w) !! p = None →
     make_path a (init w)
     = (Ok tt,
        State (MkFS (files (fs0 w)) ({[p]} ∪ dirs (fs0 w))) 0 0
          [EMkdir (prefix a)])).
Proof.
  intros Hnd.
  assert (Hmk : make_path a (init w) = Os.mkdir (prefix a) (init w)).
  { unfold make_path, bind, Os.isdir. simpl.
    by rewrite (bool_decide_eq_false_2 _ Hnd). }
  assert (Hrun : ∀ e, Os.fs_mkdir (fs0 w) (prefix a) = inl e →
                      run_mmseqs a w = (Raise e, init w)).
  { intros e He. unfold run_mmseqs, run_mmseqs_body.
    apply bind_Raise. rewrite Hmk. unfold Os.mkdir. simpl. by rewrite He. }
  split; [|split; [|split; [|split]]].
  - intros He. apply Hrun. rewrite He. done.
  - intros Hnul. apply Hrun. unfold Os.fs_mkdir. by rewrite Hnul.
  - intros Hp Hanc Hfile. apply Hrun. rewrite (fs_mkdir_normal _ _ Hp Hanc).
    by rewrite (bool_decide_eq_true_2 _ Hfile), orb_true_r.
  - intros ds d rest Hp Hanc Hds Hd. apply Hrun.
    rewrite (fs_mkdir_blocked _ _ ds d rest Hp Hanc Hds Hd). by case_bool_decide.
  - intros p Heq Hp Hanc Hd Hf. rewrite Hmk. unfold Os.mkdir. simpl.
    rewrite Heq at 1. by rewrite (fs_mkdir_trailing _ _ Hp Hanc Hd Hf).
Qed.

Lemma run_mmseqs_mkdir_fails_witness :
  run_mmseqs (default_args Sample.batch "runs/out")
    (World (MkFS {["runs" := Text "x"]} ∅) [] (λ _, 0%nat) (λ _, Sample.archive))
  = (Raise (NotADirectoryError "runs/out"),
     init (World (MkFS {["runs" := Text "x"]} ∅) [] (λ _, 0%nat)
             (λ _, Sample.archive))).
Proof.
  refine (proj1 (proj2 (proj2 (proj2
            (run_mmseqs_mkdir_fails (default_args Sample.batch "runs/out")
               (World (MkFS {["runs" := Text "x"]} ∅) [] (λ _, 0%nat)
                  (λ _, Sample.archive)) _))))
            [] "runs" [] eq_refl eq_refl _ _).
  - vm_compute. set_solver.
  - apply Forall_nil_2.
  - vm_compute. set_solver.
Defined.

(** ** What a run can do to the outside *)

Section Shape.

Variable P : event → Prop.
Variable a : args.
Variable w : world.

Hypothesis P_sleep : ∀ n : nat, P (ESleep (5 + Z.of_nat (n mod 6))).
Hypothesis P_get : ∀ ID, P (EGet (host_url a +:+ "/ticket/" +:+ ID)).

Lemma keeps_sleep_then {A} (k : M A) :
  keeps P k → keeps P (let! t := sleep_time w in exec sleep t ;; k).
Proof.
  intros Hk s Hs.
  change (Forall P (trace (snd (k (emit (ESleep (5 + Z.of_nat (rand w (draws s) mod 6)))
                                     (State (fs s) (S (draws s)) (downloads s) (trace s))))))).
  apply Hk. simpl. apply Forall_app. split; [done|].
  constructor; [apply P_sleep | constructor].
Qed.

Lemma keeps_bind_ret {A B} (x : A) (k : A → M B) :
  keeps P (k x) → keeps P (bind (ret x) k).
Proof. intros Hk s Hs. exact (Hk s Hs). Qed.

Lemma keeps_job_loop_shape mode uniq tar rs ph :
  P (EPost (submit_url a) (query uniq N) mode) →
  (∀ ID, P (EDownload (host_url a +:+ "/result/download/" +:+ ID) tar)) →
  keeps P (job_loop w a mode uniq tar rs ph).
Proof.
  intros Hpost Hdl. revert ph.
  induction rs as [|r rs IH]; intros ph; cbn [job_loop]; [apply keeps_lift|].
  destruct (on_reply ph r) as [|e|ID st].
  - apply keeps_sleep_then.
    apply keeps_bind; [by apply keeps_tell|]. intros _. apply IH.
  - apply keeps_raise.
  - case_bool_decide.
    + apply keeps_sleep_then.
      apply keeps_bind; [by apply keeps_tell|]. intros _. apply IH.
    + destruct (String.eqb st "ERROR"); [apply keeps_raise|].
      apply keeps_bind; [by apply keeps_download|]. intros _.
      destruct (negb _); [|apply keeps_ret].
      apply keeps_bind; [by apply keeps_tell|]. intros _. apply IH.
Qed.

End Shape.

(** X10. Whatever the server answers and whatever is on disk, a call
    leaves only events of these shapes: the creation of the output
    directory or of a template directory; the one submission request of
    the call; status requests for a ticket; sleeps of 5 to 10 seconds;
    downloads into [prefix/out.tar.gz]; the unpacking of that archive
    into the output directory; shell commands, and those only when
    templates are in force. *)
Theorem run_mmseqs_events_allowed (a : args) (w : world) :
  Forall (allowed a) (trace (snd (run_mmseqs a w))).
Proof.
  unfold run_mmseqs. cut (keeps (allowed a) (run_mmseqs_body a w)).
  { intros H. apply H. constructor. }
  unfold run_mmseqs_body.
  apply keeps_bind.
  { unfold make_path. apply keeps_bind; [apply keeps_isdir|]. intros d.
    destruct (negb d); [|apply keeps_ret]. apply keeps_mkdir. by left. }
  intros _. apply keeps_bind; [apply keeps_lift|]. intros ms.
  apply keeps_bind; [apply keeps_isfile|]. intros have_tar.
  destruct (negb have_tar); [|apply keeps_raise].
  apply keeps_bind.
  { unfold fetch_a3m. apply keeps_bind; [by apply keeps_tell|]. intros _.
    apply keeps_bind.
    - apply keeps_job_loop_shape; try done.
      + intros n. simpl. pose proof (Nat.mod_upper_bound n 6). lia.
      + intros ID. simpl. eauto.
      + intros ID. simpl. eauto.
    - intros _. unfold extract_a3m.
      apply keeps_bind; [apply keeps_any_not_isfile|]. intros b.
      destruct b; [|apply keeps_ret]. by apply keeps_extractall. }
  intros _. unfold assemble.
  destruct (s_use_templates (setup_mode a)) eqn:Ht.
  - apply keeps_bind.
    { apply keeps_bind; [|intros t; apply keeps_ret].
      unfold read_templates. apply keeps_bind; [apply keeps_read_lines|].
      intros lines. apply keeps_lift. }
    intros [t|].
    2:{ apply keeps_bind; [apply keeps_raise|]. intros tp.
        apply keeps_bind; [apply keeps_for_fold; intros; apply keeps_gather_file|].
        intros lines. apply keeps_bind; [apply keeps_lift | intros; apply keeps_ret]. }
    apply keeps_bind.
    { apply keeps_for_fold. intros tp kv. unfold fetch_template.
      apply keeps_bind; [apply keeps_isdir|]. intros d.
      apply keeps_bind; [|intros _; apply keeps_ret].
      destruct (negb d); [|apply keeps_ret].
      apply keeps_bind; [apply keeps_mkdir; right; eauto|]. intros _.
      apply keeps_bind; [by apply keeps_tell|]. intros _.
      apply keeps_bind; [by apply keeps_tell|]. intros _. by apply keeps_tell. }
    intros tp.
    apply keeps_bind; [apply keeps_for_fold; intros; apply keeps_gather_file|].
    intros lines. apply keeps_bind; [apply keeps_lift | intros; apply keeps_ret].
  - apply keeps_bind_ret.
    apply keeps_bind; [apply keeps_raise|]. intros tp.
    apply keeps_bind; [apply keeps_for_fold; intros; apply keeps_gather_file|].
    intros lines. apply keeps_bind; [apply keeps_lift | intros; apply keeps_ret].
Qed.

(** ** Unpacking *)






(** *** A name under a directory *)

Lemma parts_slash r :
  Py.contains "/" r = true → ∃ x y ys, Os.parts r = x :: y :: ys.
Proof.
  induction r as [|c r IH]; [done|]. cbn [Py.contains Os.parts].
  rewrite (Ascii.eqb_sym "/" c).
  destruct (Os.parts r) as [|x xs] eqn:Hr; [by destruct (parts_nonempty r)|].
  destruct (Ascii.eqb c "/"); [intros _; eauto|].
  intros H. destruct (IH H) as (x' & y & ys & [= -> ->]). eauto.
Qed.

Lemma basename_last p : last (Os.parts p) = Some (Os.basename p).
Proof.
  induction p as [|c r IH]; [done|]. cbn [Os.basename Os.parts].
  destruct (Py.contains "/" r) eqn:Hs.
  - destruct (parts_slash r Hs) as (x & y & ys & Hr). rewrite Hr in *.
    by destruct (Ascii.eqb c "/").
  - rewrite (parts_no_slash r Hs). by destruct (Ascii.eqb c "/").
Qed.

Lemma rstrip_slash_no_slash r : Py.contains "/" r = false → Os.rstrip_slash r = r.
Proof.
  induction r as [|c r IH]; [done|]. cbn [Py.contains Os.rstrip_slash].
  rewrite (Ascii.eqb_sym "/" c). destruct (Ascii.eqb c "/"); [done|].
  intros H. rewrite (IH H). by destruct r.
Qed.

Lemma rstrip_slash_basename p :
  Os.basename p ≠ EmptyString → Os.rstrip_slash p = p.
Proof.
  induction p as [|c r IH]; [done|]. cbn [Os.basename Os.rstrip_slash].
  destruct (Py.contains "/" r) eqn:Hs.
  - intros H. rewrite (IH H). destruct r; [done|done].
  - rewrite (rstrip_slash_no_slash r Hs).
    destruct (Ascii.eqb c "/"); [intros H; by destruct r|].
    intros _. by destruct r.
Qed.

Lemma all_slashes_basename p : Os.all_slashes p = true → Os.basename p = EmptyString.
Proof.
  induction p as [|c r IH]; [done|]. cbn [Os.all_slashes Os.basename].
  intros [Hc Hr]%andb_prop. rewrite Hc.
  destruct (Py.contains "/" r) eqn:Hs; [by apply IH|].
  destruct r as [|d r]; [done|]. cbn [Os.all_slashes] in Hr.
  apply andb_prop in Hr as [Hd _]. cbn [Py.contains] in Hs.
  rewrite (Ascii.eqb_sym "/" d), Hd in Hs. done.
Qed.

Lemma normal_basename p :
  Os.normal p = true → Os.name (Os.basename p) = true.
Proof.
  intros Hp. destruct (normal_parts p Hp) as (_ & _ & ns & n & _ & _ & Hn & _ & Hl).
  rewrite basename_last in Hl. by injection Hl as ->.
Qed.

Lemma normal_trailing p : Os.normal p = true → Os.trailing p = false.
Proof.
  intros Hp. unfold Os.trailing. apply String.eqb_neq.
  apply name_nonempty, normal_basename, Hp.
Qed.

Lemma single_facts n :
  Os.single n = true →
  Os.name n = true ∧ Py.contains "/" n = false ∧ Py.contains Py.NUL n = false.
Proof.
  unfold Os.single. intros [[H1 H2]%andb_prop H3]%andb_prop.
  by apply negb_true_iff in H2, H3.
Qed.

Lemma climb_app abs st l1 l2 :
  Os.climb abs st (l1 ++ l2)
  = Os.climb abs st l1 ++ Os.climb abs (reverse l1 ++ st) l2.
Proof.
  revert st. induction l1 as [|x l1 IH]; intros st; [done|].
  cbn [app Os.climb]. rewrite IH, reverse_cons, <- app_assoc. done.
Qed.

(** A single name under a directory in normal form: the path is in
    normal form, and above it are the directory and what is above the
    directory. *)
Lemma normal_child dir n :
  Os.normal dir = true → Os.single n = true →
  Os.normal (dir +:+ "/" +:+ n) = true ∧
  Os.ancestors (dir +:+ "/" +:+ n) = Os.ancestors dir ++ [dir] ∧
  Os.basename (dir +:+ "/" +:+ n) = n.
Proof.
  intros Hd Hn. destruct (single_facts n Hn) as (Hname & Hslash & Hnul).
  destruct (normal_parts dir Hd) as (Hdnul & Hne & ns & m & Hf & Hns & Hm & Hk & _).
  assert (Hparts : Os.parts (dir +:+ "/" +:+ n) = Os.parts dir ++ [n]).
  { by rewrite parts_app_slash, (parts_no_slash n Hslash). }
  assert (Habs : Os.absolute (dir +:+ "/" +:+ n) = Os.absolute dir).
  { destruct dir as [|c0 dir]; [congruence|]. rewrite append_cons. reflexivity. }
  split; [|split].
  - unfold Os.normal in *. rewrite !contains_app, Hdnul, Hnul. cbn [orb Py.contains negb andb].
    change (Ascii.eqb Py.NUL "/") with false. cbv iota. cbn [negb andb].
    rewrite Hparts. apply andb_prop in Hd as [_ Hd].
    destruct (Os.parts dir) as [|c0 cs] eqn:Hpd; [by destruct (parts_nonempty dir)|].
    destruct c0 as [|a0 c0].
    + destruct cs as [|c cs]; [done|]. cbn [app negb orb andb].
      change (c :: cs ++ [n]) with ((c :: cs) ++ [n]).
      rewrite forallb_app, Hd. cbn [forallb]. by rewrite Hname.
    + cbn [app negb orb andb].
      change (String a0 c0 :: cs ++ [n]) with ((String a0 c0 :: cs) ++ [n]).
      rewrite forallb_app, Hd. cbn [forallb]. by rewrite Hname.
  - unfold Os.ancestors. rewrite Habs, Hparts, filter_app, Hf.
    rewrite filter_cons_True by (by apply name_nonempty).
    rewrite filter_nil, removelast_last, removelast_last, climb_app.
    cbn [Os.climb]. by rewrite app_nil_r, Hk.
  - pose proof (basename_last (dir +:+ "/" +:+ n)) as Hb.
    rewrite Hparts, last_snoc in Hb. by injection Hb as <-.
Qed.

Lemma normal_not_all_slashes p : Os.normal p = true → Os.all_slashes p = false.
Proof.
  intros Hp. destruct (Os.all_slashes p) eqn:E; [|done].
  pose proof (normal_basename p Hp) as Hn.
  by rewrite (all_slashes_basename p E) in Hn.
Qed.

Lemma normal_rstrip_slash p : Os.normal p = true → Os.rstrip_slash p = p.
Proof.
  intros Hp. apply rstrip_slash_basename, name_nonempty, normal_basename, Hp.
Qed.

Lemma join_child dir n :
  Os.normal dir = true → Os.single n = true → Os.join dir n = dir +:+ "/" +:+ n.
Proof.
  intros Hd Hn. destruct (single_facts n Hn) as (Hname & Hslash & _).
  unfold Os.join. rewrite (normal_trailing dir Hd).
  destruct n as [|c n]; [done|]. cbn [Py.contains] in Hslash. cbn [Py.startswith].
  by destruct (Ascii.eqb "/" c).
Qed.

Lemma dirname_child dir n :
  Os.normal dir = true → Os.single n = true →
  Os.dirname (dir +:+ "/" +:+ n) = dir.
Proof.
  intros Hd Hn. destruct (single_facts n Hn) as (_ & Hslash & _).
  unfold Os.dirname. rewrite (head_slash_app dir n Hslash).
  rewrite all_slashes_app, (normal_not_all_slashes dir Hd). cbn [andb].
  by rewrite rstrip_slash_snoc, normal_rstrip_slash.
Qed.


(** A member with a single name goes into the target directory, which
    is there: no directory is made on its account. *)
Lemma extract_member_dirs f dir m :
  Os.normal dir = true → dir ∈ dirs f → Os.single (fst m) = true →
  dirs (snd (Os.extract_member dir f m)) = dirs f.
Proof.
  intros Hd Hin Hn. unfold Os.extract_member.
  rewrite (join_child dir _ Hd Hn).
  destruct (normal_child dir _ Hd Hn) as (Hc & _ & Hb).
  rewrite (normal_rstrip_slash _ Hc), (dirname_child dir _ Hd Hn).
  unfold Os.exists_. rewrite (bool_decide_eq_true_2 _ Hin). cbn [orb negb andb].
  rewrite andb_false_r. unfold Os.fs_write.
  by destruct (Os.write_error _ _).
Qed.


Lemma extract_members_dirs f dir ms :
  Os.normal dir = true → dir ∈ dirs f →
  Forall (λ n, Os.single n = true) ms.*1 →
  dirs (snd (Os.extract_members dir f ms)) = dirs f.
Proof.
  intros Hd. revert f. induction ms as [|m ms IH]; intros f Hin Hall; [done|].
  cbn [Os.extract_members]. apply Forall_cons in Hall as [Hm Hall].
  pose proof (extract_member_dirs f dir m Hd Hin Hm) as Hdm.
  destruct (Os.extract_member dir f m) as [[e|] f1]; [done|]. simpl in Hdm.
  rewrite IH; [done| by rewrite Hdm |done].
Qed.






(** ** Template hits *)

Lemma read_hit_spec t line :
  match fields line with
  | f0 :: pdb :: rest =>
      if decide (11 ≤ length (fields line))%nat then
        match Py.int f0 with
        | Some M => read_hit t line = Ok (dict_append M pdb t)
        | None => read_hit t line = Raise ValueError
        end
      else read_hit t line = Raise IndexError
  | _ => read_hit t line = Raise IndexError
  end.
Proof.
  unfold read_hit, fields.
  destruct (Py.split (Py.rstrip line)) as [|f0 [|pdb rest]] eqn:Hp; [done..|].
  case_decide as Hlen.
  - destruct (lookup_lt_is_Some_2 (f0 :: pdb :: rest) 2) as [q Hq]; [simpl in *; lia|].
    destruct (lookup_lt_is_Some_2 (f0 :: pdb :: rest) 10) as [e He]; [lia|].
    rewrite Hq, He. simpl. by destruct (Py.int f0).
  - rewrite (lookup_ge_None_2 (f0 :: pdb :: rest) 10) by (simpl in *; lia).
    by repeat case_match.
Qed.

Lemma dict_get_append M pdb d k :
  dict_get k (dict_append M pdb d)
  = if decide (M = k) then dict_get k d ++ [pdb] else dict_get k d.
Proof.
  induction d as [|[k' v] d IH]; simpl.
  - by repeat case_decide.
  - destruct (decide (k' = M)) as [->|Hne]; simpl.
    + by destruct (decide (M = k)).
    + destruct (decide (k' = k)) as [->|Hk].
      * by rewrite decide_False by congruence.
      * done.
Qed.

Lemma dict_append_NoDup M pdb d : NoDup d.*1 → NoDup (dict_append M pdb d).*1.
Proof.
  induction d as [|[k' v] d IH]; simpl.
  - intros _. apply NoDup_singleton.
  - intros [Hk Hd]%NoDup_cons. destruct (decide (k' = M)) as [->|Hne]; simpl.
    + by apply NoDup_cons.
    + apply NoDup_cons. split; [|by apply IH].
      intros [->|Hin]%dict_append_keys; done.
Qed.

Lemma dict_append_key M pdb d : M ∈ (dict_append M pdb d).*1.
Proof.
  induction d as [|[k' v] d IH]; simpl; [left|].
  destruct (decide (k' = M)) as [->|Hne]; simpl; [left | by right].
Qed.

Lemma dict_append_keys_mono M pdb d k : k ∈ d.*1 → k ∈ (dict_append M pdb d).*1.
Proof.
  induction d as [|[k' v] d IH]; simpl; [by intros ?%elem_of_nil|].
  destruct (decide (k' = M)) as [->|Hne]; simpl; [done|].
  intros [->|Hin]%elem_of_cons; [left | right; by apply IH].
Qed.

Lemma read_hits_spec t0 lines t :
  read_hits t0 lines = Ok t →
  Forall hit_line lines ∧
  (NoDup t0.*1 → NoDup t.*1) ∧
  (∀ k, dict_get k t = dict_get k t0 ++ omap (pdb_of k) lines) ∧
  (∀ k, k ∈ t.*1 ↔
        k ∈ t0.*1 ∨ k ∈ omap (λ line, head (fields line) ≫= Py.int) lines).
Proof.
  revert t0. induction lines as [|line lines IH]; intros t0.
  { intros [= <-]. split; [constructor|]. split; [done|]. split.
    - intros k. by rewrite app_nil_r.
    - intros k. simpl. rewrite elem_of_nil. tauto. }
  cbn [read_hits]. pose proof (read_hit_spec t0 line) as Hspec.
  destruct (fields line) as [|f0 [|pdb rest]] eqn:Hf;
    [by rewrite Hspec | by rewrite Hspec |].
  case_decide as Hlen; [|by rewrite Hspec].
  destruct (Py.int f0) as [M|] eqn:HM; rewrite Hspec; [|done].
  intros Hrest. destruct (IH _ Hrest) as (Hall & Hnd & Hget & Hkeys).
  split; [|split; [|split]].
  - constructor; [|done]. unfold hit_line. rewrite Hf. simpl. rewrite HM. eauto.
  - intros H0. by apply Hnd, dict_append_NoDup.
  - intros k. rewrite Hget, dict_get_append.
    change (omap (pdb_of k) (line :: lines))
      with (match pdb_of k line with
            | Some y => y :: omap (pdb_of k) lines
            | None => omap (pdb_of k) lines
            end).
    unfold pdb_of at 2. rewrite Hf, HM.
    destruct (decide (M = k)) as [->|Hne].
    + rewrite decide_True by done. by rewrite <- app_assoc.
    + rewrite decide_False by congruence. done.
  - intros k. rewrite Hkeys.
    change (omap ?f (line :: lines))
      with (match f line with
            | Some y => y :: omap f lines
            | None => omap f lines
            end).
    cbv beta. rewrite Hf. cbn [head mbind option_bind].
    rewrite HM. rewrite elem_of_cons. split.
    + intros [Hin|Hin]; [|tauto].
      apply dict_append_keys in Hin as [->|Hin]; tauto.
    + intros [Hin|[->|Hin]]; [left; by apply dict_append_keys_mono | | tauto].
      left. apply dict_append_key.
Qed.

Lemma read_hits_total t0 lines :
  Forall hit_line lines → ∃ t, read_hits t0 lines = Ok t.
Proof.
  intros Hall. revert t0. induction Hall as [|line lines [Hlen [M HM]] Hall IH];
    intros t0; [by eexists|].
  cbn [read_hits]. pose proof (read_hit_spec t0 line) as Hspec.
  destruct (fields line) as [|f0 [|pdb rest]] eqn:Hf; [simpl in Hlen; lia..|].
  rewrite decide_True in Hspec by done. simpl in HM. rewrite HM in Hspec.
  rewrite Hspec. apply IH.
Qed.

(** X14. Reading the hits file succeeds exactly when every line has at
    least eleven fields, the first of them an integer.  It then groups
    the hits by identifier: no identifier twice among the keys, the keys
    are the identifiers of the first column, and the structures kept for
    an identifier are the second fields of its lines, in file order. *)
Theorem read_hits_groups (lines : list string) :
  (is_Ok (read_hits [] lines) = true ↔ Forall hit_line lines) ∧
  (∀ t, read_hits [] lines = Ok t →
        NoDup t.*1 ∧
        (∀ k, k ∈ t.*1 ↔ k ∈ omap (λ line, head (fields line) ≫= Py.int) lines) ∧
        (∀ k, dict_get k t = omap (pdb_of k) lines)).
Proof.
  split.
  - split.
    + destruct (read_hits [] lines) as [t| |] eqn:Hr; [|done|done].
      intros _. by apply read_hits_spec in Hr as (? & _).
    + intros Hall. by destruct (read_hits_total [] lines Hall) as [t ->].
  - intros t Hr. apply read_hits_spec in Hr as (_ & Hnd & Hget & Hkeys).
    split; [apply Hnd; constructor|]. split.
    + intros k. rewrite Hkeys. simpl. rewrite elem_of_nil. tauto.
    + intros k. by rewrite Hget.
Qed.

Lemma read_hits_groups_witness :
  ∃ t, read_hits [] (Py.readlines Sample.m8) = Ok t ∧
       dict_get 101 t = ["1abc_A"; "2xyz_B"] ∧ dict_get 102 t = [].
Proof.
  eexists. split; [vm_compute; reflexivity|].
  match goal with
  | |- dict_get _ ?t = _ ∧ _ =>
      destruct (proj2 (read_hits_groups (Py.readlines Sample.m8)) t)
        as (_ & _ & Hget); [vm_compute; reflexivity|]
  end.
  rewrite !Hget. split; vm_compute; reflexivity.
Defined.

(** ** Template directories *)

Lemma fetch_template_present a su tp kv s :
  TMPL_PATH a su (fst kv) ∈ dirs (fs s) →
  fetch_template a su tp kv s = (Ok (<[fst kv := TMPL_PATH a su (fst kv)]> tp), s).
Proof.
  intros Hd. unfold fetch_template, bind, Os.isdir.
  by rewrite (bool_decide_eq_true_2 _ Hd).
Qed.

(** X15. When the template directories are all there already, the loop
    of lines 154-163 fetches nothing: no directory is made and no command
    is run, the state is untouched, and each identifier of [templates] is
    mapped to its directory. *)
Theorem fetch_templates_present (a : args) (su : setup)
    (t : list (Z * list string)) (tp : gmap Z string) (s : state) :
  (∀ k, k ∈ t.*1 → TMPL_PATH a su k ∈ dirs (fs s)) →
  ∃ tp', for_fold t (fetch_template a su) tp s = (Ok tp', s) ∧
         ∀ k, tp' !! k = if decide (k ∈ t.*1) then Some (TMPL_PATH a su k)
                         else tp !! k.
Proof.
  revert tp. induction t as [|kv t IH]; intros tp Hall.
  - exists tp. split; [done|]. intros k. rewrite decide_False; [done|].
    apply not_elem_of_nil.
  - destruct (IH (<[fst kv := TMPL_PATH a su (fst kv)]> tp)) as (tp' & Hrun & Hlook).
    { intros k Hk. apply Hall. by right. }
    exists tp'. split.
    + cbn [for_fold]. unfold bind at 1.
      rewrite fetch_template_present by (apply Hall; left). exact Hrun.
    + intros k. rewrite Hlook. cbn [fmap list_fmap].
      destruct (decide (k ∈ t.*1)) as [Hin|Hnin].
      * rewrite decide_True; [done | by right].
      * destruct (decide (fst kv = k)) as [<-|Hne].
        -- rewrite decide_True by left. apply lookup_insert_eq.
        -- rewrite decide_False.
           ++ by apply lookup_insert_ne.
           ++ intros [?|?]%elem_of_cons; congruence.
Qed.

Lemma fetch_templates_present_witness :
  fst (for_fold [(101, ["1abc_A"])] (fetch_template Sample.with_templates
                                       (setup_mode Sample.with_templates)) ∅
         (State (MkFS ∅ {["out_env/templates_101"]}) 0 0 []))
  = Ok {[ 101 := "out_env/templates_101" ]}.
Proof.
  destruct (fetch_templates_present Sample.with_templates
              (setup_mode Sample.with_templates) [(101, ["1abc_A"])] ∅
              (State (MkFS ∅ {["out_env/templates_101"]}) 0 0 []))
    as (tp' & Hrun & _).
  { intros k Hk. apply list_elem_of_singleton in Hk as ->.
    vm_compute. set_solver. }
  vm_compute. reflexivity.
Defined.

Lemma fetch_templates_all a su t tp s tp' s' :
  for_fold t (fetch_template a su) tp s = (Ok tp', s') →
  ∀ k, k ∈ t.*1 ∨ tp !! k = Some (TMPL_PATH a su k) →
       tp' !! k = Some (TMPL_PATH a su k).
Proof.
  revert tp s. induction t as [|kv t IH]; intros tp s; simpl.
  - intros [= <- <-] k [Hk|Hk]; [by apply elem_of_nil in Hk | done].
  - intros H k Hk. apply bind_Ok_inv in H as (tp1 & s1 & Hf & H).
    apply fetch_template_Ok in Hf as [-> _].
    apply (IH _ _ H). destruct (decide (fst kv = k)) as [<-|Hne].
    + right. apply lookup_insert_eq.
    + destruct Hk as [[?|?]%elem_of_cons | Hk]; [congruence | by left |].
      right. by rewrite lookup_insert_ne.
Qed.

(** X16. In a run that returns, the template entry of an index whose
    identifier is in the first column of [pdb70.m8] is the template
    directory of that identifier; the hits file was well formed. *)
Theorem present_template_is_path (a : args) (w : world) (v : retval) :
  fst (run_mmseqs a w) = Ok v →
  ∃ (al : list string) (tp : list (option string)) (ms : list Z) (hits : string),
    v = AlignmentsAndTemplates al tp ∧
    Ms (seqs a) = Ok ms ∧
    files (fs (snd (run_mmseqs a w))) !! (prefix a +:+ "/pdb70.m8")
    = Some (Text hits) ∧
    Forall hit_line (Py.readlines hits) ∧
    (∀ i n, ms !! i = Some n → n ∈ hit_ids hits →
            tp !! i = Some (Some (TMPL_PATH a (setup_mode a) n))).
Proof.
  intros Hrun. destruct (run_mmseqs a w) as [r sf] eqn:Hr. simpl in Hrun. subst r.
  apply run_mmseqs_Ok_inv in Hr as (ms & s0 & s1 & Hms & _ & _ & _ & Hasm).
  apply assemble_Ok_inv in Hasm
    as (Hut & t & tp & lines & out & Hread & Hfetch & _ & Hjoin & ->).
  unfold read_templates in Hread.
  apply bind_Ok_inv in Hread as (ls & s2 & Hrl & Hl).
  apply read_lines_inv in Hrl as (-> & hits & Hfile & ->).
  unfold lift in Hl. injection Hl as Hhits.
  pose proof (fetch_templates_all _ _ _ _ _ _ _ Hfetch) as Hall.
  apply fetch_templates_Ok in Hfetch as [Hfs _].
  apply read_hits_spec in Hhits as (Hwf & _ & _ & Hkeys).
  exists out, (template_paths_ tp ms), ms, hits.
  split; [done|]. split; [done|]. simpl. split; [by rewrite Hfs|].
  split; [done|].
  intros i n Hi Hn. rewrite (template_paths_lookup tp ms i n Hi). f_equal.
  apply Hall. left. apply Hkeys. by right.
Qed.

Lemma present_template_is_path_witness :
  ∃ al tp,
    fst (run_mmseqs Sample.with_templates Sample.normal)
    = Ok (AlignmentsAndTemplates al tp) ∧
    tp !! 0%nat = Some (Some "out_env/templates_101").
Proof.
  destruct (present_template_is_path Sample.with_templates Sample.normal
              (match fst (run_mmseqs Sample.with_templates Sample.normal) with
               | Ok v => v
               | _ => Alignments []
               end))
    as (al & tp & ms & hits & Hv & _).
  { vm_compute. reflexivity. }
  exists al, tp. vm_compute in Hv. injection Hv as <- <-.
  split; vm_compute; reflexivity.
Defined.

(** ** The parent of the template directories *)

Lemma str_no_slash (n : Z) : Py.contains "/" (Py.str n) = false.
Proof.
  assert (Hd : ∀ p, Py.contains "/" (pretty_N_go (Npos p) EmptyString) = false).
  { intros p. apply (contains_forall _ Py.isdigit); [done|].
    by apply pretty_N_go_digits. }
  unfold Py.str. destruct n as [|p|p]; [done | apply Hd |].
  change (pretty (Zneg p)) with (String "-" (pretty_N_go (Npos p) EmptyString)).
  simpl. apply Hd.
Qed.

(** With templates in force the mode is one of the four words. *)
Lemma template_mode (a : args) :
  s_use_templates (setup_mode a) = true →
  s_mode (setup_mode a) ∈ ["env"; "all"; "env-nofilter"; "nofilter"].
Proof.
  unfold setup_mode. destruct (use_pairing a); [done|]. intros _.
  destruct (match filter a with Some f => f | None => use_filter a end),
    (use_env a); simpl; set_solver.
Qed.

(** A walk down names that arrives went through directories that are
    there. *)
Lemma walk_inv f abs st ns st' :
  forallb Os.name ns = true →
  Os.walk f abs st ns = inr st' →
  st' = reverse ns ++ st ∧ Forall (λ d, d ∈ dirs f) (Os.climb abs st ns).
Proof.
  revert st. induction ns as [|n ns IH]; intros st; cbn [forallb Os.walk Os.climb].
  - intros _ [= <-]. by split; [|constructor].
  - intros [Hn Hns]%andb_prop. rewrite (step_name f abs st n Hn).
    case_bool_decide as Hd; [|by case_bool_decide].
    intros H. destruct (IH _ Hns H) as [-> Hds].
    split; [by rewrite reverse_cons, <- app_assoc|]. by constructor.
Qed.

(** [os.mkdir] succeeds on a path in normal form only when the path is
    free and the directories above it are there; it then lists the path
    as spelled. *)
Lemma fs_mkdir_normal_inv f p f' :
  Os.normal p = true →
  Os.fs_mkdir f p = inr f' →
  f' = MkFS (files f) ({[p]} ∪ dirs f) ∧
  Forall (λ d, d ∈ dirs f) (Os.ancestors p) ∧ p ∉ dirs f.
Proof.
  intros Hp. unfold Os.fs_mkdir.
  rewrite (normal_no_nul p Hp), (normal_eqb_empty p Hp).
  destruct (resolve_normal f p Hp) as (ns & n & Ha & Hns & Hn & Hk & ->).
  destruct (Os.walk f (Os.absolute p) [] ns) as [[]|st] eqn:Hw; [done|done|].
  destruct (walk_inv _ _ _ _ _ Hns Hw) as [-> Hds]. rewrite app_nil_r, Hk.
  unfold Os.dir_at, Os.file_at. rewrite Hk.
  rewrite (above_name n _ Hn). cbn [orb].
  case_bool_decide as Hd; [done|]. case_bool_decide; [done|].
  intros [= <-]. by rewrite Ha.
Qed.

(** In a list of paths that ends on one that is no directory there is a
    first that is none. *)
Lemma first_missing (f : filesystem) (l : list string) (d : string) :
  d ∉ dirs f →
  ∃ ds d' rest, l ++ [d] = ds ++ d' :: rest ∧
                Forall (λ x, x ∈ dirs f) ds ∧ d' ∉ dirs f.
Proof.
  intros Hd. induction l as [|x l (ds & d' & rest & Heq & Hds & Hd')].
  - exists [], d, []. by split; [|split; [constructor|]].
  - destruct (decide (x ∈ dirs f)) as [Hx|Hx].
    + exists (x :: ds), d', rest. simpl. rewrite Heq.
      by split; [|split; [constructor|]].
    + exists [], x, (l ++ [d]). by split; [|split; [constructor|]].
Qed.

(** *** The template directories *)

Lemma TMPL_PATH_child (a : args) (su : setup) (k : Z) :
  TMPL_PATH a su k
  = (prefix a +:+ "_" +:+ s_mode su) +:+ "/" +:+ ("templates_" +:+ Py.str k).
Proof. unfold TMPL_PATH. by rewrite !append_assoc. Qed.

Lemma templates_single (k : Z) : Os.single ("templates_" +:+ Py.str k) = true.
Proof.
  unfold Os.single. rewrite !contains_app, str_no_slash, str_no_nul.
  by change ("templates_" +:+ Py.str k) with (String "t" ("emplates_" +:+ Py.str k)).
Qed.

(** Without its parent a template directory cannot be made. *)
Lemma mkdir_template_fails (a : args) (su : setup) (k : Z) (f : filesystem) :
  Os.normal (prefix a +:+ "_" +:+ s_mode su) = true →
  prefix a +:+ "_" +:+ s_mode su ∉ dirs f →
  ∃ d, (d ∉ dirs f) ∧
       (d ∈ Os.ancestors (prefix a +:+ "_" +:+ s_mode su)
        ∨ d = prefix a +:+ "_" +:+ s_mode su) ∧
       Os.fs_mkdir f (TMPL_PATH a su k)
       = inl (if bool_decide (is_Some (files f !! d))
              then NotADirectoryError (TMPL_PATH a su k)
              else FileNotFoundError (TMPL_PATH a su k)).
Proof.
  intros Hpm Hd. rewrite TMPL_PATH_child.
  destruct (normal_child _ _ Hpm (templates_single k)) as (Hn & Ha & _).
  destruct (first_missing f (Os.ancestors (prefix a +:+ "_" +:+ s_mode su)) _ Hd)
    as (ds & d' & rest & Heq & Hds & Hd').
  exists d'. split; [done|]. split.
  - assert (Hin : d' ∈ Os.ancestors (prefix a +:+ "_" +:+ s_mode su)
                       ++ [prefix a +:+ "_" +:+ s_mode su]).
    { rewrite Heq. apply elem_of_app. right. left. }
    apply elem_of_app in Hin as [?|Hin]; [by left|].
    apply list_elem_of_singleton in Hin as ->. by right.
  - apply (fs_mkdir_blocked f _ ds d' rest Hn); [by rewrite Ha|done|done].
Qed.

(** X17. The template directories live under [prefix_mode], which is
    not the output directory.  With [prefix_mode] in normal form and not
    on disk, making a template directory fails and nothing is made or
    run: the error is [NotADirectoryError] when a file has the place of
    the first missing directory on the way, and [FileNotFoundError] when
    nothing does; in particular, with everything above [prefix_mode]
    there, it is decided by [prefix_mode] itself. *)
Theorem template_dir_needs_parent (a : args) (tp : gmap Z string)
    (kv : Z * list string) (s : state) :
  Os.normal (prefix a +:+ "_" +:+ s_mode (setup_mode a)) = true →
  TMPL_PATH a (setup_mode a) (fst kv) ∉ dirs (fs s) →
  prefix a +:+ "_" +:+ s_mode (setup_mode a) ∉ dirs (fs s) →
  prefix a +:+ "_" +:+ s_mode (setup_mode a) ≠ prefix a ∧
  Os.ancestors (TMPL_PATH a (setup_mode a) (fst kv))
  = Os.ancestors (prefix a +:+ "_" +:+ s_mode (setup_mode a))
    ++ [prefix a +:+ "_" +:+ s_mode (setup_mode a)] ∧
  (∃ e, fetch_template a (setup_mode a) tp kv s = (Raise e, s) ∧
        (e = FileNotFoundError (TMPL_PATH a (setup_mode a) (fst kv)) ∨
         e = NotADirectoryError (TMPL_PATH a (setup_mode a) (fst kv)))) ∧
  (Forall (λ d, d ∈ dirs (fs s))
     (Os.ancestors (prefix a +:+ "_" +:+ s_mode (setup_mode a))) →
   fetch_template a (setup_mode a) tp kv s
   = (Raise (if bool_decide
                  (is_Some (files (fs s)
                              !! (prefix a +:+ "_" +:+ s_mode (setup_mode a))))
             then NotADirectoryError (TMPL_PATH a (setup_mode a) (fst kv))
             else FileNotFoundError (TMPL_PATH a (setup_mode a) (fst kv))), s)).
Proof.
  intros Hpm Hd Hpar.
  assert (Hft : ∀ e, Os.fs_mkdir (fs s) (TMPL_PATH a (setup_mode a) (fst kv)) = inl e →
                     fetch_template a (setup_mode a) tp kv s = (Raise e, s)).
  { intros e He. unfold fetch_template, bind, Os.isdir, Os.mkdir.
    rewrite (bool_decide_eq_false_2 _ Hd). cbn [negb]. by rewrite He. }
  split; [|split; [|split]].
  - intros Heq. rewrite <- (append_nil_r (prefix a)) in Heq at 2.
    apply (inj _) in Heq. discriminate.
  - rewrite TMPL_PATH_child.
    by destruct (normal_child _ _ Hpm (templates_single (fst kv))) as (_ & -> & _).
  - destruct (mkdir_template_fails a (setup_mode a) (fst kv) (fs s) Hpm Hpar)
      as (d & _ & _ & He).
    eexists. split; [by apply Hft|]. case_bool_decide; auto.
  - intros Hanc. apply Hft. rewrite TMPL_PATH_child.
    destruct (normal_child _ _ Hpm (templates_single (fst kv))) as (Hn & Ha & _).
    apply (fs_mkdir_blocked (fs s) _
             (Os.ancestors (prefix a +:+ "_" +:+ s_mode (setup_mode a)))
             (prefix a +:+ "_" +:+ s_mode (setup_mode a)) [] Hn); done.
Qed.

Lemma template_dir_needs_parent_witness :
  fst (fetch_template Sample.with_templates (setup_mode Sample.with_templates) ∅
         (101, ["1abc_A"]) (State (MkFS ∅ {["out"]}) 0 0 []))
  = Raise (FileNotFoundError "out_env/templates_101").
Proof.
  refine (f_equal fst
            (proj2 (proj2 (proj2
               (template_dir_needs_parent Sample.with_templates ∅
                  (101, ["1abc_A"]) (State (MkFS ∅ {["out"]}) 0 0 [])
                  eq_refl _ _))) _)).
  - vm_compute. set_solver.
  - vm_compute. set_solver.
  - apply Forall_nil_2.
Defined.

(** ** Directories during a run *)

Section Stable.

(** [m] makes no directory. *)
Definition stable {A} (m : M A) : Prop :=
  ∀ s, dirs (fs (snd (m s))) = dirs (fs s).

Lemma stable_ret {A} (x : A) : stable (ret x).
Proof. by intros s. Qed.

Lemma stable_raise {A} e : stable (@raise A e).
Proof. by intros s. Qed.

Lemma stable_lift {A} (r : result A) : stable (lift r).
Proof. by intros s. Qed.

Lemma stable_tell e : stable (tell e).
Proof. by intros s. Qed.

Lemma stable_bind {A B} (m : M A) (k : A → M B) :
  stable m → (∀ x, stable (k x)) → stable (bind m k).
Proof.
  intros Hm Hk s. unfold bind. specialize (Hm s).
  destruct (m s) as [[x|e|] s1]; simpl in *; [|done|done].
  by rewrite Hk.
Qed.

Lemma stable_download w a ID p : stable (download w a ID p).
Proof.
  intros s. unfold download, Os.write_file, Os.fs_write. simpl.
  by destruct (Os.write_error _ _).
Qed.

Lemma stable_job_loop w a mode uniq tar rs ph :
  stable (job_loop w a mode uniq tar rs ph).
Proof.
  revert ph. induction rs as [|r rs IH]; intros ph; cbn [job_loop];
    [apply stable_lift|].
  destruct (on_reply ph r) as [|e|ID st].
  - apply stable_bind; [by intros s|]. intros t.
    apply stable_bind; [apply stable_tell|]. intros _.
    apply stable_bind; [apply stable_tell | intros _; apply IH].
  - apply stable_raise.
  - case_bool_decide.
    + apply stable_bind; [by intros s|]. intros t.
      apply stable_bind; [apply stable_tell|]. intros _.
      apply stable_bind; [apply stable_tell | intros _; apply IH].
    + destruct (String.eqb st "ERROR"); [apply stable_raise|].
      apply stable_bind; [apply stable_download|]. intros _.
      destruct (negb _); [|apply stable_ret].
      apply stable_bind; [apply stable_tell | intros _; apply IH].
Qed.

End Stable.

(** What is at the archive path after some steps is what was there
    before or a body the server sent. *)
Section Archive.

Variables (w : world) (tar : string).

Definition from_server {A} (m : M A) : Prop :=
  ∀ s c, files (fs (snd (m s))) !! tar = Some c →
         files (fs s) !! tar = Some c ∨ ∃ i, c = payload w i.

Lemma from_server_same {A} (m : M A) :
  (∀ s, files (fs (snd (m s))) = files (fs s)) → from_server m.
Proof. intros H s c. rewrite H. by left. Qed.

Lemma from_server_bind {A B} (m : M A) (k : A → M B) :
  from_server m → (∀ x, from_server (k x)) → from_server (bind m k).
Proof.
  intros Hm Hk s c. unfold bind. specialize (Hm s).
  destruct (m s) as [[x|e|] s1]; simpl in *; [|apply Hm..].
  intros Hc. destruct (Hk x s1 c Hc) as [H1|?]; [by apply Hm | by right].
Qed.

Lemma from_server_download a ID p : from_server (download w a ID p).
Proof.
  intros s c. unfold download, Os.write_file, Os.fs_write. simpl.
  destruct (Os.write_error _ _); simpl; [by left|].
  destruct (decide (p = tar)) as [->|Hne].
  - rewrite lookup_insert_eq. intros [= <-]. right. eauto.
  - rewrite lookup_insert_ne by done. by left.
Qed.

Lemma from_server_job_loop a mode uniq p rs ph :
  from_server (job_loop w a mode uniq p rs ph).
Proof.
  revert ph. induction rs as [|r rs IH]; intros ph; cbn [job_loop];
    [by apply from_server_same|].
  destruct (on_reply ph r) as [|e|ID st].
  - apply from_server_bind; [by apply from_server_same|]. intros t.
    apply from_server_bind; [by apply from_server_same|]. intros _.
    apply from_server_bind; [by apply from_server_same | intros _; apply IH].
  - by apply from_server_same.
  - case_bool_decide.
    + apply from_server_bind; [by apply from_server_same|]. intros t.
      apply from_server_bind; [by apply from_server_same|]. intros _.
      apply from_server_bind; [by apply from_server_same | intros _; apply IH].
    + destruct (String.eqb st "ERROR"); [by apply from_server_same|].
      apply from_server_bind; [apply from_server_download|]. intros _.
      destruct (negb _); [|by apply from_server_same].
      apply from_server_bind; [by apply from_server_same | intros _; apply IH].
Qed.

End Archive.

Lemma any_not_isfile_state l s : snd (any_not_isfile l s) = s.
Proof.
  induction l as [|f l IH]; [done|]. simpl. unfold bind, Os.isfile. simpl.
  by destruct (negb _).
Qed.

(** The output directory is there once [make_path] is through, and it is
    the only one that can be new. *)
Lemma make_path_dirs a s s0 :
  Os.normal (prefix a) = true →
  make_path a s = (Ok tt, s0) →
  prefix a ∈ dirs (fs s0) ∧
  ∀ p, p ∈ dirs (fs s0) → p = prefix a ∨ p ∈ dirs (fs s).
Proof.
  intros Hp. unfold make_path, bind, Os.isdir, ret. simpl.
  case_bool_decide as Hd; simpl.
  - intros [= <-]. split; [done|]. by right.
  - intros (f & Hf & ->)%mkdir_Ok.
    apply (fs_mkdir_normal_inv _ _ _ Hp) in Hf as (-> & _ & _). simpl.
    split; [set_solver|]. intros p [->%elem_of_singleton|?]%elem_of_union; auto.
Qed.

(** Fetching the alignments makes no directory when the archive members
    have single names: they go straight into the output directory. *)
Lemma fetch_a3m_dirs a w su uniq s0 s1 :
  Os.normal (prefix a) = true →
  prefix a ∈ dirs (fs s0) →
  files (fs s0) !! tar_gz_file a = None →
  (∀ i ms, payload w i = TarGz ms → Forall (λ n, Os.single n = true) ms.*1) →
  fetch_a3m a w su uniq s0 = (Ok tt, s1) →
  dirs (fs s1) = dirs (fs s0).
Proof.
  intros Hp Hin Hno Hpay. unfold fetch_a3m. intros H.
  apply bind_Ok_inv in H as ([] & s' & Hs & H). injection Hs as <-.
  apply bind_Ok_inv in H as ([] & s2 & Hloop & H).
  pose proof (stable_job_loop w a (s_mode su) uniq (tar_gz_file a) (replies w)
                AtSubmit (emit (EPost (submit_url a) (query uniq N) (s_mode su)) s0))
    as Hst.
  pose proof (from_server_job_loop w (tar_gz_file a) a (s_mode su) uniq
                (tar_gz_file a) (replies w) AtSubmit
                (emit (EPost (submit_url a) (query uniq N) (s_mode su)) s0))
    as Hfrom.
  rewrite Hloop in Hst, Hfrom. simpl in Hst, Hfrom.
  unfold extract_a3m in H. apply bind_Ok_inv in H as (b & s3 & Hany & H).
  pose proof (any_not_isfile_state (a3m_files a su) s2) as Hsame.
  rewrite Hany in Hsame. simpl in Hsame. subst s3.
  destruct b; [|injection H as <-; done].
  unfold Os.extractall in H.
  destruct (files (fs s2) !! tar_gz_file a) as [[t|ms]|] eqn:Htar; [done| |done].
  destruct (Hfrom _ eq_refl) as [Hold|[i Hi]]; [congruence|].
  pose proof (extract_members_dirs (fs s2) (prefix a) ms Hp) as Hex.
  rewrite Hst in Hex. specialize (Hex Hin (Hpay i ms (eq_sym Hi))).
  destruct (Os.extract_members (prefix a) (fs s2) ms) as [[e|] f]; [done|].
  injection H as <-. simpl in *. by rewrite Hex.
Qed.

Lemma fetch_template_Ok_needs a tp kv s tp' s' :
  Os.normal (prefix a +:+ "_" +:+ s_mode (setup_mode a)) = true →
  prefix a +:+ "_" +:+ s_mode (setup_mode a) ∉ dirs (fs s) →
  fetch_template a (setup_mode a) tp kv s = (Ok tp', s') →
  TMPL_PATH a (setup_mode a) (fst kv) ∈ dirs (fs s) ∧ s' = s.
Proof.
  intros Hpm Hpar. unfold fetch_template, bind, Os.isdir.
  case_bool_decide as Hd; cbn [negb].
  - intros [= _ <-]. done.
  - unfold Os.mkdir.
    destruct (mkdir_template_fails a (setup_mode a) (fst kv) (fs s) Hpm Hpar)
      as (d & _ & _ & ->). done.
Qed.

Lemma fetch_templates_Ok_needs a t tp s tp' s' :
  Os.normal (prefix a +:+ "_" +:+ s_mode (setup_mode a)) = true →
  prefix a +:+ "_" +:+ s_mode (setup_mode a) ∉ dirs (fs s) →
  for_fold t (fetch_template a (setup_mode a)) tp s = (Ok tp', s') →
  s' = s ∧ ∀ k, k ∈ t.*1 → TMPL_PATH a (setup_mode a) k ∈ dirs (fs s).
Proof.
  intros Hpm Hpar. revert tp. induction t as [|kv t IH]; intros tp; simpl.
  - intros [= _ <-]. split; [done|]. by intros k ?%elem_of_nil.
  - intros H. apply bind_Ok_inv in H as (tp1 & s1 & Hf & H).
    apply (fetch_template_Ok_needs a tp kv s tp1 s1 Hpm Hpar) in Hf as [Hd ->].
    apply IH in H as [-> Hall]. split; [done|].
    intros k [->|Hk]%elem_of_cons; [done | by apply Hall].
Qed.

(** X18. The code never makes [prefix_mode], the parent of the template
    directories.  Take a prefix in normal form and archives whose members
    have single names, so that unpacking makes no directory.  When
    [prefix_mode] is not on disk beforehand, a run with templates can only
    return if the template directory of every identifier in the hits file
    was listed from the start; on a disk where every directory has its
    upper directories, that means the hits file names no identifier at
    all. *)
Theorem templates_need_existing_dirs (a : args) (w : world) (v : retval) :
  fst (run_mmseqs a w) = Ok v →
  Os.normal (prefix a) = true →
  Os.normal (prefix a +:+ "_" +:+ s_mode (setup_mode a)) = true →
  (∀ i ms, payload w i = TarGz ms → Forall (λ n, Os.single n = true) ms.*1) →
  prefix a +:+ "_" +:+ s_mode (setup_mode a) ∉ dirs (fs0 w) →
  ∃ hits,
    files (fs (snd (run_mmseqs a w))) !! (prefix a +:+ "/pdb70.m8")
    = Some (Text hits) ∧
    (∀ n, n ∈ hit_ids hits → TMPL_PATH a (setup_mode a) n ∈ dirs (fs0 w)) ∧
    ((∀ d, d ∈ dirs (fs0 w) →
           Forall (λ x, x ∈ dirs (fs0 w)) (Os.ancestors d)) →
     hit_ids hits = []).
Proof.
  intros Hrun Hp Hpm Hpay Hpar.
  destruct (run_mmseqs a w) as [r sf] eqn:Hr. simpl in Hrun. subst r.
  apply run_mmseqs_Ok_inv in Hr as (ms & s0 & s1 & Hms & Hmk & Hno & Hfetch & Hasm).
  apply assemble_Ok_inv in Hasm
    as (Hut & t & tp & lines & out & Hread & Hft & _ & _ & _).
  unfold read_templates in Hread.
  apply bind_Ok_inv in Hread as (ls & s2 & Hrl & Hl).
  apply read_lines_inv in Hrl as (-> & hits & Hfile & ->).
  unfold lift in Hl. injection Hl as Hhits.
  assert (Hne : ∀ X, prefix a +:+ "_" +:+ X ≠ prefix a).
  { intros X Heq. rewrite <- (append_nil_r (prefix a)) in Heq at 2.
    apply (inj _) in Heq. discriminate. }
  destruct (make_path_dirs a (init w) s0 Hp Hmk) as [Hin0 Hd0].
  destruct (make_path_Ok _ _ _ Hmk) as (Hf0 & _).
  assert (Hst : dirs (fs s1) = dirs (fs s0)).
  { apply (fetch_a3m_dirs a w (setup_mode a) (seqs_unique (seqs a)) s0 s1);
      try done. by rewrite Hf0. }
  assert (Hd1 : ∀ p, p ∈ dirs (fs s1) → p = prefix a ∨ p ∈ dirs (fs0 w)).
  { intros p. rewrite Hst. apply Hd0. }
  assert (Hpar1 : prefix a +:+ "_" +:+ s_mode (setup_mode a) ∉ dirs (fs s1)).
  { intros [Heq|Hin]%Hd1; [|done]. by apply Hne in Heq. }
  apply (fetch_templates_Ok_needs a t ∅ s1 tp sf Hpm Hpar1) in Hft as [-> Hall].
  apply read_hits_spec in Hhits as (_ & _ & _ & Hkeys).
  assert (Hthere : ∀ n, n ∈ hit_ids hits → TMPL_PATH a (setup_mode a) n ∈ dirs (fs0 w)).
  { intros n Hn.
    destruct (Hd1 _ (Hall n (proj2 (Hkeys n) (or_intror Hn)))) as [Heq|Hin]; [|done].
    unfold TMPL_PATH in Heq. by apply Hne in Heq. }
  exists hits. split; [done|]. split; [done|].
  intros Hwf. destruct (hit_ids hits) as [|n l] eqn:Hids; [done|].
  exfalso. apply Hpar.
  pose proof (Hwf _ (Hthere n (list_elem_of_here _ _))) as Hanc.
  rewrite TMPL_PATH_child in Hanc.
  destruct (normal_child _ _ Hpm (templates_single n)) as (_ & Ha & _).
  rewrite Ha in Hanc. apply Forall_app in Hanc as [_ Hlast].
  exact (proj1 (Forall_singleton _ _) Hlast).
Qed.

Lemma templates_need_existing_dirs_witness :
  ∃ hits,
    files (fs (snd (run_mmseqs Sample.with_templates
                      (World (MkFS ∅ {["out"]}) (replies Sample.normal)
                         (λ _, 3%nat)
                         (λ _, TarGz [("uniref.a3m", Sample.uniref);
                                      ("bfd.mgnify30.metaeuk30.smag30.a3m", Sample.bfd);
                                      ("pdb70.m8", EmptyString)])))))
      !! "out/pdb70.m8"
    = Some (Text hits) ∧
    hit_ids hits = [].
Proof.
  destruct (templates_need_existing_dirs Sample.with_templates
              (World (MkFS ∅ {["out"]}) (replies Sample.normal) (λ _, 3%nat)
                 (λ _, TarGz [("uniref.a3m", Sample.uniref);
                              ("bfd.mgnify30.metaeuk30.smag30.a3m", Sample.bfd);
                              ("pdb70.m8", EmptyString)]))
              (AlignmentsAndTemplates
                 [Py.join EmptyString (Py.readlines
                    (">101" +:+ Py.nl +:+ "SSS" +:+ Py.nl +:+ ">hit1" +:+ Py.nl
                     +:+ "AAA" +:+ Py.nl +:+ ">101" +:+ Py.nl +:+ "SSS" +:+ Py.nl
                     +:+ ">env1" +:+ Py.nl +:+ "CCC" +:+ Py.nl));
                  Py.join EmptyString (Py.readlines
                    (">102" +:+ Py.nl +:+ "TTT" +:+ Py.nl +:+ ">hit2" +:+ Py.nl
                     +:+ "BBB" +:+ Py.nl +:+ ">102" +:+ Py.nl +:+ "TTT" +:+ Py.nl));
                  Py.join EmptyString (Py.readlines
                    (">101" +:+ Py.nl +:+ "SSS" +:+ Py.nl +:+ ">hit1" +:+ Py.nl
                     +:+ "AAA" +:+ Py.nl +:+ ">101" +:+ Py.nl +:+ "SSS" +:+ Py.nl
                     +:+ ">env1" +:+ Py.nl +:+ "CCC" +:+ Py.nl))]
                 [None; None; None]))
    as (hits & Hfile & _ & Hnone).
  - vm_compute. reflexivity.
  - vm_compute. reflexivity.
  - vm_compute. reflexivity.
  - intros i ms [= <-].
    repeat (apply Forall_cons_2; [vm_compute; reflexivity|]). apply Forall_nil_2.
  - apply (bool_decide_unpack _). vm_compute. exact I.
  - exists hits. split; [exact Hfile|]. apply Hnone.
    intros d Hd. cbn [dirs fs0] in Hd.
    apply elem_of_singleton in Hd as ->. apply Forall_nil_2.
Defined.

(** ** More on alignment blocks *)

Lemma contains_join c (ls : list string) :
  Py.contains c (Py.join EmptyString ls) = false →
  Forall (λ l, Py.contains c l = false) ls.
Proof.
  induction ls as [|l ls IH]; [constructor|].
  rewrite join_empty_cons, contains_app. intros [Hl Hls]%orb_false_iff.
  constructor; [done | by apply IH].
Qed.

Lemma gather_text_one_block (d : gmap Z (list string)) n h B :
  header_for n h → Forall plain B →
  gather_text d (h :: B)
  = Ok (<[n := default [] (d !! n) ++ strip_nul h :: B]> d).
Proof.
  intros Hh HB. unfold gather_text.
  change (h :: B) with ([h] ++ B). rewrite gather_lines_app. simpl.
  rewrite (gather_line_header true None d h n) by eauto using header_for_nonempty.
  rewrite (gather_lines_plain _ n (default [] (d !! n) ++ [strip_nul h]))
    by (done || apply lookup_insert_eq).
  by rewrite insert_insert_eq, <- app_assoc.
Qed.

(** X20. A header is read only when the parser is armed.  In a file
    without NUL bytes whose first line is [>n], every line, also a later
    line that starts with [>], goes to the block of [n], and the entry
    returned for [n] is the text of the file as it is. *)
Theorem nul_free_file_is_one_block (t : string) (n : Z) (first : string)
    (rest : list string) :
  Py.readlines t = first :: rest →
  header_for n first →
  has_nul t = false →
  gather_text ∅ (Py.readlines t) = Ok {[ n := Py.readlines t ]} ∧
  join_blocks {[ n := Py.readlines t ]} [n] = Ok [t].
Proof.
  intros Hlines Hh Hnul.
  destruct (readlines_facts t) as (Hjoin & Hne & _).
  assert (Hplain : Forall plain (Py.readlines t)).
  { unfold has_nul in Hnul. rewrite <- Hjoin in Hnul.
    apply contains_join in Hnul. apply Forall_forall. intros l Hl. split.
    - by apply (proj1 (Forall_forall _ _) Hne).
    - by apply (proj1 (Forall_forall _ _) Hnul). }
  split.
  - rewrite Hlines in *. inversion Hplain as [|? ? [_ Hf] Hr]; subst.
    rewrite (gather_text_one_block ∅ n first rest Hh Hr).
    rewrite lookup_empty. simpl. unfold strip_nul.
    rewrite remove_char_id by done. done.
  - cbn [join_blocks]. rewrite lookup_singleton_eq. by rewrite Hjoin.
Qed.

Lemma nul_free_file_is_one_block_witness :
  gather_text ∅ (Py.readlines (">101" +:+ Py.nl +:+ "SSS" +:+ Py.nl +:+ ">102"
                               +:+ Py.nl +:+ "TTT" +:+ Py.nl))
  = Ok {[ 101 := [">101" +:+ Py.nl; "SSS" +:+ Py.nl; ">102" +:+ Py.nl;
                  "TTT" +:+ Py.nl] ]}.
Proof.
  refine (proj1 (nul_free_file_is_one_block
                   (">101" +:+ Py.nl +:+ "SSS" +:+ Py.nl +:+ ">102"
                    +:+ Py.nl +:+ "TTT" +:+ Py.nl) 101 (">101" +:+ Py.nl)
                   ["SSS" +:+ Py.nl; ">102" +:+ Py.nl; "TTT" +:+ Py.nl] _ _ _)).
  - vm_compute. reflexivity.
  - split; vm_compute; reflexivity.
  - vm_compute. reflexivity.
Defined.

(** X21. Two headers for different identifiers, the second armed by a
    NUL byte: the lines up to the second header are filed under the
    first identifier, the second header and what follows under the
    second, each after what was there before. *)
Theorem gather_separates_blocks (d : gmap Z (list string)) (n m : Z)
    (h1 h2 : string) (B1 Zs B2 : list string) :
  n ≠ m →
  header_for n h1 → Forall plain B1 → Forall not_header Zs →
  existsb has_nul Zs = true ∨ has_nul h2 = true →
  header_for m h2 → Forall plain B2 →
  gather_text d (h1 :: B1 ++ Zs ++ h2 :: B2)
  = Ok (<[m := default [] (d !! m) ++ strip_nul h2 :: B2]>
          (<[n := default [] (d !! n) ++ strip_nul h1 :: B1 ++ map strip_nul Zs]> d)).
Proof.
  intros Hnm Hh1 HB1 HZs Hnul Hh2 HB2.
  destruct (gather_two_blocks d n m h1 h2 B1 Zs B2 Hh1 HB1 HZs Hnul Hh2 HB2)
    as [H1 H2].
  unfold gather_text.
  change (h1 :: B1 ++ Zs ++ h2 :: B2) with ((h1 :: B1) ++ Zs ++ h2 :: B2).
  rewrite app_assoc, gather_lines_app.
  change ((h1 :: B1) ++ Zs) with (h1 :: B1 ++ Zs).
  rewrite H1, H2. cbn [a3m_lines]. by rewrite lookup_insert_ne.
Qed.

Lemma gather_separates_blocks_witness :
  gather_text ∅ (Py.readlines Sample.uniref)
  = Ok (<[102 := [">102" +:+ Py.nl; "TTT" +:+ Py.nl; ">hit2" +:+ Py.nl;
                  "BBB" +:+ Py.nl]]>
          (<[101 := [">101" +:+ Py.nl; "SSS" +:+ Py.nl; ">hit1" +:+ Py.nl;
                     "AAA" +:+ Py.nl]]> ∅)).
Proof.
  refine (gather_separates_blocks ∅ 101 102 (">101" +:+ Py.nl)
            (Sample.nul +:+ ">102" +:+ Py.nl)
            ["SSS" +:+ Py.nl; ">hit1" +:+ Py.nl; "AAA" +:+ Py.nl] []
            ["TTT" +:+ Py.nl; ">hit2" +:+ Py.nl; "BBB" +:+ Py.nl] _ _ _ _ _ _ _).
  - discriminate.
  - split; vm_compute; reflexivity.
  - repeat (apply Forall_cons_2; [split; [discriminate | vm_compute; reflexivity]|]).
    apply Forall_nil_2.
  - apply Forall_nil_2.
  - right. vm_compute. reflexivity.
  - split; vm_compute; reflexivity.
  - repeat (apply Forall_cons_2; [split; [discriminate | vm_compute; reflexivity]|]).
    apply Forall_nil_2.
Defined.

(** X22. The first line of a file must be a header: a first line that
    does not start with [>] raises [KeyError], because no block is open,
    and a header whose identifier is no integer raises [ValueError]. *)
Theorem gather_first_line_errors (d : gmap Z (list string)) (line : string)
    (rest : list string) :
  (line ≠ EmptyString → Py.startswith ">" (strip_nul line) = false →
   gather_text d (line :: rest) = Raise KeyError) ∧
  (Py.startswith ">" (strip_nul line) = true →
   Py.int (Py.rstrip (Py.tail (strip_nul line))) = None →
   gather_text d (line :: rest) = Raise ValueError).
Proof.
  unfold gather_text, strip_nul. cbn [gather_lines]. unfold gather_line.
  cbn [update_M cur_M a3m_lines]. split.
  - intros Hne Hgt. rewrite (nonempty_length _ Hne).
    destruct (Py.contains Py.NUL line) eqn:E.
    + by rewrite Hgt.
    + rewrite remove_char_id in Hgt by done. by rewrite Hgt.
  - intros Hgt Hint.
    assert (Hne : line ≠ EmptyString) by (by intros ->).
    rewrite (nonempty_length _ Hne).
    destruct (Py.contains Py.NUL line) eqn:E.
    + by rewrite Hgt, Hint.
    + rewrite remove_char_id in Hgt, Hint by done. by rewrite Hgt, Hint.
Qed.

Lemma gather_first_line_errors_witness :
  gather_text ∅ ["SSS" +:+ Py.nl; ">101" +:+ Py.nl] = Raise KeyError ∧
  gather_text ∅ [">UniRef100_A0A" +:+ Py.nl] = Raise ValueError.
Proof.
  split.
  - refine (proj1 (gather_first_line_errors ∅ ("SSS" +:+ Py.nl) [">101" +:+ Py.nl]) _ _).
    + discriminate.
    + vm_compute. reflexivity.
  - refine (proj2 (gather_first_line_errors ∅ (">UniRef100_A0A" +:+ Py.nl) []) _ _).
    + vm_compute. reflexivity.
    + vm_compute. reflexivity.
Defined.

Lemma gather_line_grows st line st' :
  gather_line st line = Ok st' →
  ∀ k ls, a3m_lines st !! k = Some ls →
          ∃ ls', a3m_lines st' !! k = Some (ls ++ ls').
Proof.
  unfold gather_line. destruct (0 <? String.length line)%nat.
  2:{ intros [= <-] k ls Hk. exists []. by rewrite app_nil_r. }
  set (line' := if Py.contains Py.NUL line then Py.remove_char Py.NUL line else line).
  set (upd := if Py.contains Py.NUL line then true else update_M st).
  assert (Hstep : ∀ u M (d : gmap Z (list string)),
             (∀ k ls, a3m_lines st !! k = Some ls → d !! k = Some ls) →
             match M with
             | None => Raise KeyError
             | Some m =>
                 match d !! m with
                 | None => Raise KeyError
                 | Some ls => Ok (PS u M (<[m := ls ++ [line']]> d))
                 end
             end = Ok st' →
             ∀ k ls, a3m_lines st !! k = Some ls →
                     ∃ ls', a3m_lines st' !! k = Some (ls ++ ls')).
  { intros u [m|] d Hd; [|done].
    destruct (d !! m) as [lm|] eqn:Hm; [|done].
    intros [= <-] k ls Hk. cbn [a3m_lines].
    destruct (decide (m = k)) as [->|Hne].
    - rewrite lookup_insert_eq. apply Hd in Hk. exists [line']. congruence.
    - rewrite lookup_insert_ne by done. exists []. rewrite app_nil_r. by apply Hd. }
  destruct (Py.startswith ">" line' && upd).
  - destruct (Py.int (Py.rstrip (Py.tail line'))) as [m|]; [|done].
    cbn [cur_M a3m_lines update_M].
    apply (Hstep false (Some m)
             (if bool_decide (is_Some (a3m_lines st !! m)) then a3m_lines st
              else <[m := []]> (a3m_lines st))).
    intros k ls Hk. case_bool_decide as Hin; [done|].
    rewrite lookup_insert_ne; [done|]. intros ->. apply Hin. eauto.
  - cbn [cur_M a3m_lines update_M].
    by apply (Hstep upd (cur_M st) (a3m_lines st)).
Qed.

Lemma gather_lines_grows st lines st' :
  gather_lines st lines = Ok st' →
  ∀ k ls, a3m_lines st !! k = Some ls →
          ∃ ls', a3m_lines st' !! k = Some (ls ++ ls').
Proof.
  revert st. induction lines as [|line lines IH]; intros st; cbn [gather_lines].
  - intros [= <-] k ls Hk. exists []. by rewrite app_nil_r.
  - destruct (gather_line st line) as [st1| |] eqn:H1; [|done|done].
    intros H k ls Hk.
    destruct (gather_line_grows _ _ _ H1 k ls Hk) as [l1 Hl1].
    destruct (IH _ H k _ Hl1) as [l2 Hl2].
    exists (l1 ++ l2). by rewrite app_assoc.
Qed.

(** X23. Parsing only ever appends: whatever the lines of a file are,
    when it parses, every block that was there before is still there and
    its old lines are the beginning of its new lines.  So is every file
    after the first. *)
Theorem gather_appends_only (d d' : gmap Z (list string)) (lines : list string) :
  gather_text d lines = Ok d' →
  ∀ k ls, d !! k = Some ls → ∃ ls', d' !! k = Some (ls ++ ls').
Proof.
  unfold gather_text.
  destruct (gather_lines (PS true None d) lines) as [st'| |] eqn:H; [|done|done].
  intros [= <-]. by apply (gather_lines_grows _ _ _ H).
Qed.

Lemma gather_appends_only_witness :
  ∃ d' ls',
    gather_text {[ 101 := [">101" +:+ Py.nl] ]} (Py.readlines Sample.bfd) = Ok d' ∧
    d' !! 101 = Some ([">101" +:+ Py.nl] ++ ls').
Proof.
  destruct (gather_text {[ 101 := [">101" +:+ Py.nl] ]} (Py.readlines Sample.bfd))
    as [d'| |] eqn:H; [|vm_compute in H; discriminate..].
  destruct (gather_appends_only _ d' _ H 101 [">101" +:+ Py.nl]) as [ls' Hls'].
  { vm_compute. reflexivity. }
  eauto.
Defined.

(** X24. Files are parsed one after the other into the same blocks, and
    each file starts armed: with two files that each open with a header
    for [n] and hold no NUL byte, the entry for [n] is the lines of the
    first file followed by the lines of the second, and reading them
    changes nothing on disk. *)
Theorem gather_two_files (f1 f2 t1 t2 : string) (n : Z) (h1 h2 : string)
    (B1 B2 : list string) (s : state) :
  files (fs s) !! f1 = Some (Text t1) →
  files (fs s) !! f2 = Some (Text t2) →
  Py.readlines t1 = h1 :: B1 → Py.readlines t2 = h2 :: B2 →
  header_for n h1 → header_for n h2 →
  Forall plain B1 → Forall plain B2 →
  for_fold [f1; f2] gather_file ∅ s
  = (Ok {[ n := strip_nul h1 :: B1 ++ strip_nul h2 :: B2 ]}, s).
Proof.
  intros Hf1 Hf2 Hl1 Hl2 Hh1 Hh2 HB1 HB2.
  cbn [for_fold]. unfold bind, gather_file, bind, Os.read_lines, lift, ret.
  rewrite Hf1, Hl1, (gather_text_one_block ∅ n h1 B1 Hh1 HB1).
  rewrite Hf2, Hl2, (gather_text_one_block _ n h2 B2 Hh2 HB2).
  rewrite lookup_empty, lookup_insert_eq, insert_insert_eq. simpl.
  by rewrite insert_empty.
Qed.

Lemma gather_two_files_witness :
  fst (for_fold ["out/uniref.a3m"; "out/env.a3m"] gather_file ∅
         (State (MkFS {[ "out/uniref.a3m" := Text (">101" +:+ Py.nl +:+ "SSS" +:+ Py.nl);
                         "out/env.a3m" := Text (">101" +:+ Py.nl +:+ "CCC" +:+ Py.nl) ]}
                   ∅) 0 0 []))
  = Ok {[ 101 := [">101" +:+ Py.nl; "SSS" +:+ Py.nl; ">101" +:+ Py.nl;
                  "CCC" +:+ Py.nl] ]}.
Proof.
  refine (f_equal fst
            (gather_two_files "out/uniref.a3m" "out/env.a3m"
               (">101" +:+ Py.nl +:+ "SSS" +:+ Py.nl)
               (">101" +:+ Py.nl +:+ "CCC" +:+ Py.nl) 101
               (">101" +:+ Py.nl) (">101" +:+ Py.nl)
               ["SSS" +:+ Py.nl] ["CCC" +:+ Py.nl] _ _ _ _ _ _ _ _ _)).
  - vm_compute. reflexivity.
  - vm_compute. reflexivity.
  - vm_compute. reflexivity.
  - vm_compute. reflexivity.
  - split; vm_compute; reflexivity.
  - split; vm_compute; reflexivity.
  - apply Forall_cons_2; [|apply Forall_nil_2].
    split; [discriminate | vm_compute; reflexivity].
  - apply Forall_cons_2; [|apply Forall_nil_2].
    split; [discriminate | vm_compute; reflexivity].
Defined.

(** ** Results *)

(** X25. The list of line 181 is built exactly when every identifier of
    [Ms] has a block, and is then the joined block of each index in
    turn; an identifier without a block raises [KeyError]. *)
Theorem join_blocks_cases (d : gmap Z (list string)) (ms : list Z) :
  ((∀ n, n ∈ ms → is_Some (d !! n)) →
   join_blocks d ms
   = Ok (map (λ n, Py.join EmptyString (default [] (d !! n))) ms)) ∧
  (∀ n, n ∈ ms → d !! n = None → join_blocks d ms = Raise KeyError).
Proof.
  split.
  - induction ms as [|n ms IH]; intros Hall; [done|].
    cbn [join_blocks map]. destruct (Hall n) as [ls Hls]; [left|].
    rewrite Hls, IH; [done|]. intros k Hk. apply Hall. by right.
  - induction ms as [|k ms IH]; intros n Hn Hnone; [by apply elem_of_nil in Hn|].
    cbn [join_blocks]. destruct (d !! k) as [ls|] eqn:Hk; [|done].
    apply elem_of_cons in Hn as [->|Hn]; [congruence|].
    by rewrite (IH n Hn Hnone).
Qed.

Lemma join_blocks_cases_witness :
  join_blocks {[ 101 := [">101" +:+ Py.nl] ]} [101; 102; 101] = Raise KeyError.
Proof.
  refine (proj2 (join_blocks_cases {[ 101 := [">101" +:+ Py.nl] ]} [101; 102; 101])
            102 _ _).
  - right. left.
  - vm_compute. reflexivity.
Defined.
